(** * vscode-shell: the ShellCheck lint pipeline, embedded in Rocq

    A shallow embedding of the parts of the ShellCheck feature that the
    specification makes claims about: settings normalisation, the version
    probe, failure classification, the argument vector, the reconciliation
    store, the missing-executable notification, the suppression command and
    fix-all aggregation.

    Conventions.
    - JavaScript strings are modelled as [string] (sequences of 8-bit
      characters); [toLowerCase] folds the ASCII letters only, and the
      whitespace class of [\s] and [trim] is its ASCII part.  The tool's
      output and the settings involved are ASCII.
    - The per-document and per-path [Map]s and [Set]s of the provider are
      [gmap]s and [gset]s keyed by the string form of the URI or the path.
    - A handler is a function from the provider's state to its new state
      and the list of effects it has on the host editor (notifications,
      commands); what it awaits from outside (the outcome of a process, the
      item the user picks) is an argument. *)

From Stdlib Require Import Ascii String.
From stdpp Require Import base option list strings pretty gmap sets.


(** ** JavaScript string primitives used by the sources *)
Module Js.

Definition is_upper (c : ascii) : bool :=
  let n := nat_of_ascii c in (65 <=? n)%nat && (n <=? 90)%nat.

Definition lower_char (c : ascii) : ascii :=
  if is_upper c then ascii_of_nat (nat_of_ascii c + 32) else c.

(** [String.prototype.toLowerCase] on ASCII characters, where it folds
    the letters A to Z and keeps every position.  Beyond ASCII the
    JavaScript function can turn one character into several (U+0130
    into an i and a combining dot); such strings are read by
    [Wide.toLowerCase] below. *)
Fixpoint toLowerCase (s : string) : string :=
  match s with
  | EmptyString => EmptyString
  | String c r => String (lower_char c) (toLowerCase r)
  end.

(** [String.prototype.startsWith] *)
Fixpoint startsWith (s p : string) {struct p} : bool :=
  match p, s with
  | EmptyString, _ => true
  | String a p', String b s' => if decide (a = b) then startsWith s' p' else false
  | String _ _, EmptyString => false
  end.

(** [String.prototype.indexOf]; [None] stands for [-1]. *)
Fixpoint indexOf (s needle : string) : option nat :=
  if startsWith s needle then Some 0
  else match s with
       | EmptyString => None
       | String _ r => S <$> indexOf r needle
       end.

(** [String.prototype.includes] *)
Definition includes (s needle : string) : bool :=
  match indexOf s needle with Some _ => true | None => false end.

(** [s.slice(n)] for [0 <= n] *)
Fixpoint slice_from (n : nat) (s : string) : string :=
  match n, s with
  | O, _ => s
  | S n', String _ r => slice_from n' r
  | S _, EmptyString => EmptyString
  end.

(** [s.slice(0, n)] for [0 <= n] *)
Fixpoint slice_to (n : nat) (s : string) : string :=
  match n, s with
  | O, _ => EmptyString
  | S n', String c r => String c (slice_to n' r)
  | S _, EmptyString => EmptyString
  end.

(** the character class [\s] *)
Definition is_space (c : ascii) : bool :=
  let n := nat_of_ascii c in
  (n =? 32)%nat || ((9 <=? n)%nat && (n <=? 13)%nat).

Fixpoint trimStart (s : string) : string :=
  match s with
  | EmptyString => EmptyString
  | String c r => if is_space c then trimStart r else s
  end.

Fixpoint all_space (s : string) : bool :=
  match s with
  | EmptyString => true
  | String c r => is_space c && all_space r
  end.

Fixpoint trimEnd (s : string) : string :=
  match s with
  | EmptyString => EmptyString
  | String c r => if all_space s then EmptyString else String c (trimEnd r)
  end.

(** [String.prototype.trim] *)
Definition trim (s : string) : string := trimEnd (trimStart s).

(** [s.split(/\s/u)]: every whitespace character is a separator, so the
    result always has at least one (possibly empty) field. *)
Fixpoint split_space (s : string) : list string :=
  match s with
  | EmptyString => [EmptyString]
  | String c r =>
      if is_space c then EmptyString :: split_space r
      else match split_space r with
           | f :: fs => String c f :: fs
           | [] => [String c EmptyString]
           end
  end.

(** [fields[0] ?? ""] *)
Definition first_field (fields : list string) : string :=
  match fields with t :: _ => t | [] => EmptyString end.

(** [xs.join(sep)] *)
Fixpoint join (sep : string) (xs : list string) : string :=
  match xs with
  | [] => EmptyString
  | [x] => x
  | x :: rest => x +:+ sep +:+ join sep rest
  end.

(** the character class [\d] *)
Definition is_digit (c : ascii) : bool :=
  let n := nat_of_ascii c in (48 <=? n)%nat && (n <=? 57)%nat.

End Js.

(** ** settings.ts: normalisation of the exclusion list *)
Module Settings.

(** [\d{4}$] anchored at the current position *)
Definition four_digits_then_end (s : string) : option string :=
  match s with
  | String a (String b (String c (String d EmptyString))) =>
      if Js.is_digit a && Js.is_digit b && Js.is_digit c && Js.is_digit d
      then Some s else None
  | _ => None
  end.

(** [validErrorCodePattern = /^(?:SC)?(\d{4})$/], returning capture
    group 1.  The optional group is greedy: the matcher first tries to
    consume [SC] and backtracks to the empty alternative. *)
Definition validErrorCodePattern_exec (pattern : string) : option string :=
  let with_prefix :=
    if Js.startsWith pattern "SC" then four_digits_then_end (Js.slice_from 2 pattern)
    else None in
  match with_prefix with
  | Some g => Some g
  | None => four_digits_then_end pattern
  end.

(** truthiness of a string value *)
Definition truthy (s : string) : bool :=
  match s with EmptyString => false | _ => true end.

(** The loop of [getWorkspaceSettings] that rebuilds [settings.exclude]. *)
Fixpoint filterExcludes_loop (exclude filteredExcludes : list string) : list string :=
  match exclude with
  | [] => filteredExcludes
  | pattern :: rest =>
      match validErrorCodePattern_exec pattern with
      | Some g =>
          if truthy g then filterExcludes_loop rest (filteredExcludes ++ [g])
          else filterExcludes_loop rest filteredExcludes
      | None => filterExcludes_loop rest filteredExcludes
      end
  end.

Definition filterExcludes (exclude : list string) : list string :=
  filterExcludes_loop exclude [].

End Settings.

(** ** Values that can be thrown and caught ([catch (error: unknown)]) *)
Module Thrown.

(** A property read off a caught object: absent, a string or a number. *)
Inductive field :=
| Undefined
| Str (s : string)
| Num (n : Z).

(** The properties the linter inspects: those of [NodeJS.ErrnoException]
    together with the ones execa adds to its errors. *)
Record props := {
  code : field;
  errno : field;
  exitCode : field;
  stderr : field;
  stdout : field;
  shortMessage : field;
  originalMessage : field;
  message : field;
}.

(** A caught value is either not an object at all ([null], [undefined],
    a primitive), or an object that may or may not be an [Error]. *)
Inductive value :=
| NotAnObject
| Object (instanceofError : bool) (p : props).

(** [new Error(msg)] *)
Definition new_Error (msg : string) : value :=
  Object true
    {| code := Undefined; errno := Undefined; exitCode := Undefined;
       stderr := Undefined; stdout := Undefined; shortMessage := Undefined;
       originalMessage := Undefined; message := Str msg |}.

(** The outcome of evaluating an expression that may throw. *)
Inductive outcome (A : Type) :=
| Returns (a : A)
| Throws (e : value).
Arguments Returns {A} a.
Arguments Throws {A} e.

End Thrown.

(** ** utils/tool-check.ts: the version probe *)
Module ToolCheck.
Import Thrown.

(** The result of [semver.parse]. *)
Record SemVer := {
  major : nat;
  minor : nat;
  patch : nat;
  prerelease : list string;
  build : list string;
}.

(** What [await execa(executable, ["-V"], { timeout: 5000 })] does:
    resolve with the captured standard output, or reject. *)
Inductive execa_result :=
| Resolved (stdout : string)
| Rejected (e : Thrown.value).

Section WithSemver.
(** [semver.parse] of the semver package; [None] is its [null]. *)
Variable semver_parse : string -> option SemVer.

Definition parseToolVersion (stdout : string) : outcome SemVer :=
  let lower := Js.toLowerCase stdout in
  let prefix := "version:" in
  match Js.indexOf lower prefix with
  | None => Throws (new_Error ("Unexpected response from ShellCheck: " +:+ stdout))
  | Some index =>
      let remainder := Js.trim (Js.slice_from (index + String.length prefix) stdout) in
      let token := Js.first_field (Js.split_space remainder) in
      let normalized := if Js.startsWith token "v" then Js.slice_from 1 token else token in
      match semver_parse normalized with
      | Some version => Returns version
      | None => Throws (new_Error ("Unable to parse ShellCheck version: " +:+ token))
      end
  end.

Definition getToolVersion (run : execa_result) : outcome SemVer :=
  match run with
  | Rejected e => Throws e
  | Resolved stdout => parseToolVersion stdout
  end.
End WithSemver.

(** [semver.parse] on plain [MAJOR.MINOR.PATCH] strings, each part a
    decimal number without leading zeros.  The package accepts more (a
    pre-release or build part, a leading [v]); this reading answers [None]
    there and is used only to run the probe on concrete outputs. *)
Fixpoint digits_value (acc : nat) (s : string) : option nat :=
  match s with
  | EmptyString => Some acc
  | String c r =>
      if Js.is_digit c then digits_value (10 * acc + (nat_of_ascii c - 48)) r
      else None
  end.

Definition number_of (s : string) : option nat :=
  match s with
  | EmptyString => None
  | String "0" (String _ _) => None
  | _ => digits_value 0 s
  end.

Fixpoint split_dot (s : string) : list string :=
  match s with
  | EmptyString => [EmptyString]
  | String c r =>
      if decide (c = "."%char) then EmptyString :: split_dot r
      else match split_dot r with
           | f :: fs => String c f :: fs
           | [] => [String c EmptyString]
           end
  end.

Definition plain_semver_parse (s : string) : option SemVer :=
  match split_dot s with
  | [a; b; c] =>
      match number_of a, number_of b, number_of c with
      | Some x, Some y, Some z =>
          Some {| major := x; minor := y; patch := z; prerelease := []; build := [] |}
      | _, _, _ => None
      end
  | _ => None
  end.

End ToolCheck.

(** ** Positions, ranges and edits of the host editor *)
Module Editor.

Record Position := { line : nat; character : nat }.

Definition isBefore (a b : Position) : bool :=
  (line a <? line b)%nat || ((line a =? line b)%nat && (character a <? character b)%nat).

Record Range := { start : Position; end_ : Position }.

(** [Range.contains(position)] *)
Definition contains_position (r : Range) (p : Position) : bool :=
  negb (isBefore p (start r)) && negb (isBefore (end_ r) p).

(** [Range.contains(range)] *)
Definition contains (r other : Range) : bool :=
  contains_position r (start other) && contains_position r (end_ other).

Record TextEdit := { range : Range; newText : string }.

(** [TextEdit.insert(position, newText)] *)
Definition TextEdit_insert (p : Position) (txt : string) : TextEdit :=
  {| range := {| start := p; end_ := p |}; newText := txt |}.

(** A [WorkspaceEdit] restricted to text edits: its [entries()], one
    pair per resource, in the order the resources were first set. *)
Definition WorkspaceEdit := list (string * list TextEdit).

Definition empty_edit : WorkspaceEdit := [].

(** [edit.get(uri)] *)
Fixpoint get (uri : string) (w : WorkspaceEdit) : option (list TextEdit) :=
  match w with
  | [] => None
  | (u, es) :: rest => if decide (u = uri) then Some es else get uri rest
  end.

(** [edit.set(uri, edits)] with a list of edits.  The host keeps one
    sequence of edits and appends the new ones to it (only [undefined]
    removes the edits of the resource), so the edits given are added
    behind those the resource already has. *)
Fixpoint set (uri : string) (edits : list TextEdit) (w : WorkspaceEdit) : WorkspaceEdit :=
  match w with
  | [] => [(uri, edits)]
  | (u, es) :: rest =>
      if decide (u = uri) then (u, es ++ edits) :: rest else (u, es) :: set uri edits rest
  end.

Record Diagnostic := {
  diag_range : Range;
  diag_message : string;
  diag_source : string;
  diag_code : option string;
}.

Record CodeAction := {
  title : string;
  isPreferred : bool;
  edit : option WorkspaceEdit;
  diagnostics : option (list Diagnostic);
}.

(** One entry of the parser's output ([ParseResult] of parser.ts). *)
Record ParseResult := {
  diagnostic : Diagnostic;
  codeAction : option CodeAction;
}.

(** The text of a document is kept as its lines; none of them contains
    a line break. *)
Definition LF : ascii := "010"%char.

Fixpoint split_lines (s : string) : list string :=
  match s with
  | EmptyString => [EmptyString]
  | String c r =>
      if decide (c = LF) then EmptyString :: split_lines r
      else match split_lines r with
           | f :: fs => String c f :: fs
           | [] => [String c EmptyString]
           end
  end.

(** What applying [TextEdit.insert(p, txt)] does to the lines: [txt] is
    spliced into line [line p] at column [character p], and the line
    breaks of [txt] start new lines. *)
Definition apply_insert (ls : list string) (p : Position) (txt : string) : list string :=
  match ls !! line p with
  | Some l =>
      take (line p) ls
      ++ split_lines (Js.slice_to (character p) l +:+ txt +:+ Js.slice_from (character p) l)
      ++ drop (S (line p)) ls
  | None => ls
  end.

End Editor.

(** ** fix-all.ts: aggregation of the individual fixes *)
Module FixAll.
Import Editor.

(** The code actions the linter's provider returns for [range] that
    survive the filter of [collectShellCheckActions].  The wiki and
    disable actions of the provider carry no edit and never pass it, so
    only the cached actions are listed. *)
Definition providedActions (results : list ParseResult) (range : Range) : list CodeAction :=
  omap codeAction
    (filter (fun result => is_Some (codeAction result)
                           ∧ contains (diag_range (diagnostic result)) range = true)
            results).

Definition collectShellCheckActions (results : list ParseResult) : list CodeAction :=
  let diagnostics :=
    filter (fun d => diag_source d = "shellcheck") (map diagnostic results) in
  flat_map
    (fun d =>
       filter (fun action => Js.startsWith (title action) "ShellCheck: " = true
                             ∧ isPreferred action = true
                             ∧ is_Some (edit action))
              (providedActions results (diag_range d)))
    diagnostics.

(** The inner loop of [mergeEdits] over the edits of one resource. *)
Fixpoint mergeEdits_inner (existing merged edits : list TextEdit) : list TextEdit :=
  match edits with
  | [] => merged
  | e :: rest =>
      if negb (existsb (fun existingEdit => contains (range existingEdit) (range e)) existing)
      then mergeEdits_inner existing (merged ++ [e]) rest
      else mergeEdits_inner existing merged rest
  end.

Fixpoint mergeEdits (target source : WorkspaceEdit) : WorkspaceEdit :=
  match source with
  | [] => target
  | (uri, edits) :: rest =>
      let existing := default [] (get uri target) in
      let merged := mergeEdits_inner existing existing edits in
      mergeEdits (set uri merged target) rest
  end.

(** The loop of [buildFixAllAction] that folds the actions' edits. *)
Fixpoint aggregate (aggregatedEdit : WorkspaceEdit) (actions : list CodeAction) : WorkspaceEdit :=
  match actions with
  | [] => aggregatedEdit
  | action :: rest =>
      aggregate (mergeEdits aggregatedEdit (default empty_edit (edit action))) rest
  end.

Definition buildFixAllAction (results : list ParseResult) : option CodeAction :=
  let actions := collectShellCheckActions results in
  if (length actions =? 0)%nat then None
  else
    let aggregatedDiagnostics := flat_map (fun a => default [] (diagnostics a)) actions in
    Some {| title := "ShellCheck: Fix all auto-fixable issues";
            isPreferred := false;
            edit := Some (aggregate empty_edit actions);
            diagnostics := if (0 <? length aggregatedDiagnostics)%nat
                           then Some aggregatedDiagnostics else None |}.

(** Two ranges overlap when they share a non-empty span of text. *)
Definition overlaps (a b : Range) : bool :=
  isBefore (start a) (end_ b) && isBefore (start b) (end_ a).

End FixAll.

(** ** linter.ts: the provider *)
Module Linter.
Import Thrown Editor.

Inductive reason := executableNotFound | executionFailed.

Inductive ToolStatus :=
| Ready (version : ToolCheck.SemVer)
| Unavailable (r : reason).

(** *** Failure classification *)

(** [typeof f === "string" ? f : undefined] *)
Definition string_or_undefined (f : field) : option string :=
  match f with Str s => Some s | _ => None end.

Definition nonempty (s : string) : bool :=
  match s with EmptyString => false | _ => true end.

Definition missingCodes : gset string := {[ "ENOENT" ]}.

(** [x && missingCodes.has(x)] for an optional string [x] *)
Definition is_missing_code (x : option string) : bool :=
  match x with
  | Some c => nonempty c && bool_decide (c ∈ missingCodes)
  | None => false
  end.

(** [f === n] for a number literal [n] *)
Definition strict_eq_num (f : field) (n : Z) : bool :=
  match f with Num m => (m =? n)%Z | _ => false end.

Definition mentions_missing (text : string) : bool :=
  Js.includes text "command not found"
  || Js.includes text "no such file or directory"
  || Js.includes text "is not recognized as an internal or external command"
  || Js.includes text "is not recognised as an internal or external command".

Definition errorLooksLikeMissingExecutable (error : value) : bool :=
  match error with
  | NotAnObject => false
  | Object _ err =>
      let code := string_or_undefined (code err) in
      let errno := string_or_undefined (errno err) in
      if is_missing_code code || is_missing_code errno then true
      else
        let numericExitCode :=
          match Thrown.code err with Num n => Num n | _ => exitCode err end in
        if strict_eq_num numericExitCode 127 || strict_eq_num numericExitCode 9009
        then true
        else
          let haystacks :=
            map Js.toLowerCase
              (filter (fun value => nonempty value = true)
                 (omap string_or_undefined
                    [stderr err; stdout err; shortMessage err;
                     originalMessage err; message err])) in
          existsb mentions_missing haystacks
  end.

(** [error instanceof Error] *)
Definition instanceof_Error (error : value) : bool :=
  match error with Object true _ => true | _ => false end.

Definition toolStatusByError (error : value) : ToolStatus :=
  if instanceof_Error error && errorLooksLikeMissingExecutable error
  then Unavailable executableNotFound
  else Unavailable executionFailed.

(** *** Settings *)

Inductive RunTrigger := onSave | onType | manual.

Record Executable := { path : string; bundled : bool }.

Record ShellCheckSettings := {
  enabled : bool;
  enableQuickFix : bool;
  executable : Executable;
  trigger : RunTrigger;
  exclude : list string;
  customArgs : list string;
  ignoreFileSchemes : gset string;
  useWorkspaceRootAsCwd : bool;
  ignorePatterns : list string;
}.

Record TextDocument := {
  uri : string;
  scheme : string;
  fileName : string;
  languageId : string;
  lines : list string;
}.

(** *** The argument vector of [runLint] *)
Section RunLint.
(** [path.extname] of Node *)
Variable path_extname : string -> string.
(** [createParser(textDocument, options).outputFormat] of parser.ts *)
Variable outputFormat : ToolCheck.SemVer -> bool -> string.

Definition runLint_args (textDocument : TextDocument) (settings : ShellCheckSettings)
    (version : ToolCheck.SemVer) : list string :=
  let args := ["-f"; outputFormat version (enableQuickFix settings)] in
  let args :=
    if (0 <? length (exclude settings))%nat
    then args ++ ["-e"; Js.join "," (exclude settings)]
    else args in
  let fileExt := path_extname (fileName textDocument) in
  let args :=
    if bool_decide (fileExt = ".bash") || bool_decide (fileExt = ".ksh")
       || bool_decide (fileExt = ".dash")
    then args ++ ["-s"; Js.slice_from 1 fileExt]
    else args in
  let args :=
    if (0 <? length (customArgs settings))%nat
    then args ++ customArgs settings
    else args in
  args ++ ["-"].

(** The arguments [runLint] hands to [execa], or [None] when it returns
    before spawning because the tool is not known to be ready. *)
Definition runLint_spawn (toolStatusByPath : gmap string ToolStatus)
    (textDocument : TextDocument) (settings : ShellCheckSettings)
    : option (string * list string) :=
  match toolStatusByPath !! path (executable settings) with
  | Some (Ready version) =>
      Some (path (executable settings), runLint_args textDocument settings version)
  | _ => None
  end.
End RunLint.

(** *** The provider's state *)

Record Provider := {
  settingsByUri : gmap string ShellCheckSettings;
  toolStatusByPath : gmap string ToolStatus;
  diagnosticCollection : gmap string (list Diagnostic);
  codeActionCollection : gmap string (list ParseResult);
  notifiedMissingExecutable : gset string;
}.

(** The state the constructor builds. *)
Definition new_Provider : Provider :=
  {| settingsByUri := ∅; toolStatusByPath := ∅; diagnosticCollection := ∅;
     codeActionCollection := ∅; notifiedMissingExecutable := ∅ |}.

Definition with_settingsByUri (f : gmap string ShellCheckSettings -> gmap string ShellCheckSettings)
    (st : Provider) : Provider :=
  {| settingsByUri := f (settingsByUri st);
     toolStatusByPath := toolStatusByPath st;
     diagnosticCollection := diagnosticCollection st;
     codeActionCollection := codeActionCollection st;
     notifiedMissingExecutable := notifiedMissingExecutable st |}.

Definition with_toolStatusByPath (f : gmap string ToolStatus -> gmap string ToolStatus)
    (st : Provider) : Provider :=
  {| settingsByUri := settingsByUri st;
     toolStatusByPath := f (toolStatusByPath st);
     diagnosticCollection := diagnosticCollection st;
     codeActionCollection := codeActionCollection st;
     notifiedMissingExecutable := notifiedMissingExecutable st |}.

Definition with_results (f : gmap string (list Diagnostic) -> gmap string (list Diagnostic))
    (g : gmap string (list ParseResult) -> gmap string (list ParseResult))
    (st : Provider) : Provider :=
  {| settingsByUri := settingsByUri st;
     toolStatusByPath := toolStatusByPath st;
     diagnosticCollection := f (diagnosticCollection st);
     codeActionCollection := g (codeActionCollection st);
     notifiedMissingExecutable := notifiedMissingExecutable st |}.

Definition with_notified (f : gset string -> gset string) (st : Provider) : Provider :=
  {| settingsByUri := settingsByUri st;
     toolStatusByPath := toolStatusByPath st;
     diagnosticCollection := diagnosticCollection st;
     codeActionCollection := codeActionCollection st;
     notifiedMissingExecutable := f (notifiedMissingExecutable st) |}.

(** *** Reconciliation *)

(** [results] is [None] for [null] and for an omitted argument.  The
    diagnostic collection is keyed by the URI and the code-action map by
    its string form; both are keyed by that string here. *)
Definition setResultCollections (uri : string) (results : option (list ParseResult))
    (st : Provider) : Provider :=
  match results with
  | None => with_results (delete uri) (delete uri) st
  | Some results =>
      if (length results =? 0)%nat
      then with_results (delete uri) (delete uri) st
      else
        let diagnostics := map diagnostic results in
        with_results (insert uri diagnostics) (insert uri results) st
  end.

(** *** Notifications *)

Inductive effect :=
| ShowErrorMessage (message : string) (items : list string)
| ExecuteCommand (command argument : string)
| OpenExternal (url : string)
| TryPromptForUpdatingTool (version : ToolCheck.SemVer).

Definition SHELLCHECK_SECTION : string := "vscode-shell.shellcheck".

Definition notFoundMessage : string :=
  "ShellCheck executable not found. Install ShellCheck or set '"
  +:+ SHELLCHECK_SECTION +:+ ".executablePath' to the binary location.".

(** a property interpolated into a template literal *)
Definition interpolate (f : field) : string :=
  match f with
  | Undefined => "undefined"
  | Str s => s
  | Num n => pretty n
  end.

(** [showShellCheckError] up to [await showErrorMessage]: the
    notification it puts up, or [None] when it returns at once because
    the path has been notified.  Nothing is recorded yet. *)
Definition showShellCheckError_shown (err : value) (executablePath : string)
    (st : Provider) : option (string * list string) :=
  let missingExecutable := errorLooksLikeMissingExecutable err in
  if missingExecutable && nonempty executablePath
     && bool_decide (executablePath ∈ notifiedMissingExecutable st)
  then None
  else
    Some
      match err with
      | Object true error =>
          if missingExecutable
          then (notFoundMessage, ["Configure Path"; "Installation Guide"])
          else ("Failed to run shellcheck: [" +:+ interpolate (code error) +:+ "] "
                +:+ interpolate (Thrown.message error), [])
      | _ => ("Failed to run shellcheck: unknown error", [])
      end.

(** [showShellCheckError] from the answer of the user on; [selected] is
    the item picked, if any.  Only now is the path recorded; then the
    command chosen is run.  [st] is the state found at that time, which
    other handlers may have changed while the notification was up. *)
Definition showShellCheckError_answered (err : value) (executablePath : string)
    (selected : option string) (st : Provider) : Provider * list effect :=
  let missingExecutable := errorLooksLikeMissingExecutable err in
  let st :=
    if missingExecutable && nonempty executablePath
    then with_notified (fun s => {[ executablePath ]} ∪ s) st
    else st in
  if bool_decide (selected = Some "Configure Path")
  then (st, [ExecuteCommand "workbench.action.openSettings"
               (SHELLCHECK_SECTION +:+ ".executablePath")])
  else if bool_decide (selected = Some "Installation Guide")
  then (st, [OpenExternal "https://github.com/koalaman/shellcheck#installing"])
  else (st, []).

(** The whole of [showShellCheckError], when no other handler runs while
    the notification is up.  What can happen when one does is in
    [Awaits] below. *)
Definition showShellCheckError (err : value) (executablePath : string)
    (selected : option string) (st : Provider) : Provider * list effect :=
  match showShellCheckError_shown err executablePath st with
  | None => (st, [])
  | Some (message, items) =>
      let '(st, fx) := showShellCheckError_answered err executablePath selected st in
      (st, ShowErrorMessage message items :: fx)
  end.

Definition handleShellCheckExecutionError (error : value) (executablePath : string)
    (selected : option string) (st : Provider) : Provider * list effect :=
  let '(st, fx) := showShellCheckError error executablePath selected st in
  (with_toolStatusByPath (insert executablePath (toolStatusByError error)) st, fx).

(** [probe] is the outcome of [await getToolVersion(settings.executable.path)];
    it is consulted only when the path has no cached status.  This is
    the call as a whole, with no other handler running at its awaits;
    [Awaits] has it from await to await. *)
Definition updateConfiguration (uri : string) (settings : ShellCheckSettings)
    (probe : outcome ToolCheck.SemVer) (selected : option string)
    (st : Provider) : Provider * list effect :=
  let st := with_settingsByUri (insert uri settings) st in
  let st := setResultCollections uri None st in
  let p := path (executable settings) in
  if enabled settings && negb (bool_decide (is_Some (toolStatusByPath st !! p)))
  then
    match probe with
    | Returns version =>
        (with_toolStatusByPath (insert p (Ready version)) st,
         if bundled (executable settings) then [] else [TryPromptForUpdatingTool version])
    | Throws error =>
        let '(st, fx) := showShellCheckError error p selected st in
        (with_toolStatusByPath (insert p (toolStatusByError error)) st, fx)
    end
  else (st, []).

(** [affects] is [checkIfConfigurationChanged(e)].  The lint runs the
    handler starts afterwards arrive as later events. *)
Definition handleDidChangeConfiguration (affects : bool) (st : Provider) : Provider :=
  if negb affects then st
  else with_toolStatusByPath (fun _ => ∅) (with_settingsByUri (fun _ => ∅) st).

(** The handler also drops the delayer of the document, which is kept
    with the scheduler below. *)
Definition handleDidCloseTextDocument (uri : string) (st : Provider) : Provider :=
  with_settingsByUri (delete uri) (setResultCollections uri None st).

(** What can happen to a provider, one after the other: each event is a
    handler that runs to its end before the next one starts. *)
Inductive event :=
| DidChangeConfiguration (affects : bool)
| DidCloseTextDocument (uri : string)
| UpdateConfiguration (uri : string) (settings : ShellCheckSettings)
    (probe : outcome ToolCheck.SemVer) (selected : option string)
| LintCompleted (uri : string) (results : option (list ParseResult))
| LintFailed (error : value) (executablePath : string) (selected : option string).

Definition step (ev : event) (st : Provider) : Provider * list effect :=
  match ev with
  | DidChangeConfiguration affects => (handleDidChangeConfiguration affects st, [])
  | DidCloseTextDocument uri => (handleDidCloseTextDocument uri st, [])
  | UpdateConfiguration uri settings probe selected =>
      updateConfiguration uri settings probe selected st
  | LintCompleted uri results => (setResultCollections uri results st, [])
  | LintFailed error executablePath selected =>
      handleShellCheckExecutionError error executablePath selected st
  end.

(** The executable path an event reports a failure for. *)
Definition failing_path (ev : event) : option string :=
  match ev with
  | UpdateConfiguration _ settings _ _ => Some (path (executable settings))
  | LintFailed _ executablePath _ => Some executablePath
  | _ => None
  end.

Definition is_notFound (fx : effect) : bool :=
  match fx with
  | ShowErrorMessage message _ => bool_decide (message = notFoundMessage)
  | _ => false
  end.

Definition notFound_count (fx : list effect) : nat :=
  length (filter (fun e => is_notFound e = true) fx).

(** The number of "executable not found" notifications shown for [p]
    while the events [evs] are handled from state [st]. *)
Fixpoint notFound_shown (p : string) (evs : list event) (st : Provider) : nat :=
  match evs with
  | [] => 0
  | ev :: rest =>
      (if bool_decide (failing_path ev = Some p) then notFound_count (snd (step ev st)) else 0)
      + notFound_shown p rest (fst (step ev st))
  end.

(** *** The suppression command *)

(** [TextLine.firstNonWhitespaceCharacterIndex]: the length of the
    leading run of [\s] characters (the whole length on a blank line). *)
Fixpoint firstNonWhitespaceCharacterIndex (text : string) : nat :=
  match text with
  | EmptyString => 0
  | String c r => if Js.is_space c then S (firstNonWhitespaceCharacterIndex r) else 0
  end.

(** [allowed] is [this.isAllowedTextDocument(textDocument)].  The result
    is the edit handed to [applyEdit], [None] when the command returns
    without one; [lineAt] throws on a line that does not exist. *)
Definition disableCheckForLine (allowed : bool) (textDocument : TextDocument)
    (ruleId : string) (range : Range) : outcome (option (string * list TextEdit)) :=
  if negb allowed then Returns None
  else
    match lines textDocument !! line (start range) with
    | None => Throws (new_Error "Illegal value for `line`")
    | Some text =>
        let indent := Js.slice_to (Nat.max 0 (firstNonWhitespaceCharacterIndex text)) text in
        let textEdit :=
          TextEdit_insert
            {| line := line (start range);
               character := firstNonWhitespaceCharacterIndex text |}
            ("# shellcheck disable=" +:+ ruleId +:+ String LF indent) in
        Returns (Some (uri textDocument, [textEdit]))
    end.

(** The lines of the document once the edit of [disableCheckForLine]
    has been applied. *)
Definition lines_after (textDocument : TextDocument)
    (applied : outcome (option (string * list TextEdit))) : list string :=
  match applied with
  | Returns (Some (_, edits)) =>
      foldl (fun ls e => apply_insert ls (start (Editor.range e)) (newText e))
            (lines textDocument) edits
  | _ => lines textDocument
  end.

End Linter.

(** ** The debounced scheduler behind [triggerLint] *)
Module Async.

Section Scheduler.
(** A task is the closure handed to [trigger]; for [triggerLint] it is
    [() => this.runLint(textDocument, settings)]. *)
Variable Task : Type.

(** Modelled from the spec: the debounced task scheduler
    ([ThrottledDelayer] of utils/async.ts, which is not among the
    sources), as the per-key state machine of its contract: no timer
    and nothing in flight; a timer pending for the latest task; a task
    executing; a task executing with a rerun recorded for the latest
    task. *)
Inductive machine :=
| Idle
| TimerPending (deadline : nat) (task : Task)
| Running
| RunningWithPendingRerun (next : Task).

(** Modelled from the spec: [trigger] at time [now].  With nothing
    pending a timer is started; a pending timer is cancelled and
    restarted with the latest task; during an execution the rerun is
    recorded with the latest task and the execution is not interrupted. *)
Definition trigger (now delayMillis : nat) (task : Task) (m : machine) : machine :=
  match m with
  | Idle => TimerPending (now + delayMillis) task
  | TimerPending _ _ => TimerPending (now + delayMillis) task
  | Running => RunningWithPendingRerun task
  | RunningWithPendingRerun _ => RunningWithPendingRerun task
  end.

(** Modelled from the spec: expiry of the timer.  At time [now] a
    pending timer whose deadline has been reached runs its task; the
    second component lists the executions started. *)
Definition expire (now : nat) (m : machine) : machine * list Task :=
  match m with
  | TimerPending deadline task =>
      if (deadline <=? now)%nat then (Running, [task]) else (m, [])
  | _ => (m, [])
  end.

(** Modelled from the spec: completion of the task in flight.  A
    recorded rerun starts immediately, without delay. *)
Definition complete (m : machine) : machine * list Task :=
  match m with
  | Running => (Idle, [])
  | RunningWithPendingRerun next => (Running, [next])
  | _ => (m, [])
  end.

(** What reaches the scheduler of one key. *)
Inductive input :=
| Trigger (task : Task)
| Elapse
| Completed.

(** One delayer as [triggerLint] keeps it in [this.delayers]: the delay
    is fixed when the delayer is created. *)
Record Delayer := { defaultDelay : nat; state : machine }.

(** An input at time [now]: timers that are due fire first. *)
Definition handle (now : nat) (i : input) (d : Delayer) : Delayer * list Task :=
  let '(m, started) := expire now (state d) in
  let '(m, started') :=
    match i with
    | Trigger task => (trigger now (defaultDelay d) task m, [])
    | Elapse => (m, [])
    | Completed => complete m
    end in
  ({| defaultDelay := defaultDelay d; state := m |}, started ++ started').

(** The tail of [triggerLint]: look the delayer of [key] up, create it
    on first use with 250 ms for the on-type trigger and 0 otherwise,
    and trigger it. *)
Definition delayer_for (key : string) (trg : Linter.RunTrigger)
    (delayers : gmap string Delayer) : Delayer :=
  match delayers !! key with
  | Some delayer => delayer
  | None =>
      {| defaultDelay := match trg with Linter.onType => 250 | _ => 0 end;
         state := Idle |}
  end.

Definition dispatch (now : nat) (key : string) (trg : Linter.RunTrigger) (i : input)
    (delayers : gmap string Delayer) : gmap string Delayer * list Task :=
  let '(delayer, started) := handle now i (delayer_for key trg delayers) in
  (<[key := delayer]> delayers, started).

Definition triggerLint (now : nat) (key : string) (trg : Linter.RunTrigger) (task : Task)
    (delayers : gmap string Delayer) : gmap string Delayer * list Task :=
  dispatch now key trg (Trigger task) delayers.

(** A sequence of timed inputs for one key; the executions started are
    collected in order. *)
Fixpoint feed (key : string) (trg : Linter.RunTrigger) (inputs : list (nat * input))
    (delayers : gmap string Delayer) : gmap string Delayer * list Task :=
  match inputs with
  | [] => (delayers, [])
  | (now, i) :: rest =>
      let '(delayers, started) := dispatch now key trg i delayers in
      let '(delayers, started') := feed key trg rest delayers in
      (delayers, started ++ started')
  end.

(** A burst: calls at non-decreasing times, each one arriving before
    the timer started by the previous one expires. *)
Fixpoint within_window (delay : nat) (t : nat) (later : list (nat * Task)) : Prop :=
  match later with
  | [] => True
  | (t', _) :: rest => t <= t' ∧ t' < t + delay ∧ within_window delay t' rest
  end.

End Scheduler.

Arguments Idle {Task}.
Arguments TimerPending {Task} deadline task.
Arguments Running {Task}.
Arguments RunningWithPendingRerun {Task} next.
Arguments Trigger {Task} task.
Arguments Elapse {Task}.
Arguments Completed {Task}.
Arguments Build_Delayer {Task} defaultDelay state.
Arguments defaultDelay {Task} d.
Arguments state {Task} d.
Arguments trigger {Task} now delayMillis task m.
Arguments expire {Task} now m.
Arguments complete {Task} m.
Arguments handle {Task} now i d.
Arguments delayer_for {Task} key trg delayers.
Arguments dispatch {Task} now key trg i delayers.
Arguments triggerLint {Task} now key trg task delayers.
Arguments feed {Task} key trg inputs delayers.
Arguments within_window {Task} delay t later.

(** The inputs of a burst of [triggerLint] calls that is left to settle:
    the calls, the moment [settle] at which the timer is found expired,
    and the completion of the task at [done_at]. *)
Definition settled_burst {Task : Type} (calls : list (nat * Task)) (settle done_at : nat)
    : list (nat * input Task) :=
  map (fun c => (fst c, Trigger (snd c))) calls ++ [(settle, Elapse); (done_at, Completed)].

End Async.

(** ** Vocabulary of the properties *)
Module Props.
Import Thrown Editor Linter.

(** An ASCII character. *)
Definition IsAscii (c : ascii) : Prop := nat_of_ascii c < 128.

(** A decimal digit, by its character code. *)
Definition IsDigit (c : ascii) : Prop := 48 <= nat_of_ascii c <= 57.

(** A string of exactly four digits. *)
Definition FourDigits (d : string) : Prop :=
  ∃ a b c e, d = String a (String b (String c (String e EmptyString)))
             ∧ IsDigit a ∧ IsDigit b ∧ IsDigit c ∧ IsDigit e.

(** A configured entry [p] is a rule id with digits [d]: an optional
    [SC] followed by exactly four digits. *)
Definition RuleEntry (p d : string) : Prop :=
  FourDigits d ∧ (p = d ∨ p = "SC" +:+ d).

(** [phrase] occurs in [text]. *)
Definition Contains (text phrase : string) : Prop :=
  ∃ pre post, text = pre +:+ phrase +:+ post.

(** [phrase] occurs in [text] at offset [i]. *)
Definition OccursAt (text phrase : string) (i : nat) : Prop :=
  ∃ pre post, text = pre +:+ phrase +:+ post ∧ String.length pre = i.

(** [i] is the offset of the first occurrence of [phrase] in [text]. *)
Definition FirstOccurrence (text phrase : string) (i : nat) : Prop :=
  OccursAt text phrase i ∧ ∀ j, j < i → ¬ OccursAt text phrase j.

(** The phrases with which shells report a command they cannot find. *)
Definition missing_phrases : list string :=
  [ "command not found";
    "no such file or directory";
    "is not recognized as an internal or external command";
    "is not recognised as an internal or external command" ].

(** The exit status a failed invocation reports: a numeric [code] when
    there is one, the [exitCode] of execa otherwise. *)
Definition reported_exit (e : props) : field :=
  match code e with Num n => Num n | _ => exitCode e end.

(** The texts captured from a failed invocation. *)
Definition captured (e : props) : list field :=
  [stderr e; stdout e; shortMessage e; originalMessage e; message e].

(** The error signals a missing executable: an [ENOENT] code, exit
    status 127 or 9009, or a captured text that mentions, in any letter
    case, one of the phrases. *)
Definition SignalsMissingExecutable (e : props) : Prop :=
  code e = Str "ENOENT" ∨ errno e = Str "ENOENT"
  ∨ reported_exit e = Num 127 ∨ reported_exit e = Num 9009
  ∨ ∃ text phrase, Str text ∈ captured e ∧ phrase ∈ missing_phrases
                   ∧ Contains (Js.toLowerCase text) phrase.

(** The exclusion flag: absent for an empty list, otherwise [-e] with
    the rule ids joined by commas. *)
Definition exclusion_flag (ids : list string) : list string :=
  match ids with
  | [] => []
  | _ :: _ => ["-e"; Js.join "," ids]
  end.

(** The dialect flag for a file extension. *)
Definition dialect_flag (ext : string) : list string :=
  if decide (ext = ".bash") then ["-s"; "bash"]
  else if decide (ext = ".ksh") then ["-s"; "ksh"]
  else if decide (ext = ".dash") then ["-s"; "dash"]
  else [].

(** Every character of [s] satisfies [P]. *)
Fixpoint AllChars (P : ascii → Prop) (s : string) : Prop :=
  match s with
  | EmptyString => True
  | String c r => P c ∧ AllChars P r
  end.

Definition IsSpace (c : ascii) : Prop := Js.is_space c = true.

(** [tok] is the first whitespace-delimited token of [rest]: [rest] is
    some whitespace, then [tok], which has no whitespace in it, and [tok]
    ends where [rest] ends or where the next whitespace begins.  A [rest]
    of whitespace only has the empty token. *)
Definition FirstToken (rest tok : string) : Prop :=
  ∃ ws tail, rest = ws +:+ tok +:+ tail
             ∧ AllChars IsSpace ws
             ∧ AllChars (λ c, ¬ IsSpace c) tok
             ∧ (tail = EmptyString
                ∨ (tok ≠ EmptyString ∧ ∃ c t, tail = String c t ∧ IsSpace c)).

(** [norm] is [tok] without its leading [v], if it has one. *)
Definition StripV (tok norm : string) : Prop :=
  tok = "v" +:+ norm ∨ (norm = tok ∧ ∀ r, tok ≠ "v" +:+ r).

(** The status cached for the executable of [settings] once
    [updateConfiguration] has probed it and read [stdout]. *)
Definition status_after_probe (semver_parse : string → option ToolCheck.SemVer)
    (stdout : string) (uri : string) (settings : ShellCheckSettings)
    (selected : option string) (st : Provider) : option ToolStatus :=
  toolStatusByPath
    (fst (updateConfiguration uri settings
            (ToolCheck.getToolVersion semver_parse (ToolCheck.Resolved stdout)) selected st))
    !! path (executable settings).

(** The probe that read [stdout] surfaces an error, and the status it
    leaves for a path that had none is not [Ready]. *)
Definition ProbeFails (semver_parse : string → option ToolCheck.SemVer)
    (stdout : string) : Prop :=
  (∃ e, ToolCheck.getToolVersion semver_parse (ToolCheck.Resolved stdout) = Throws e)
  ∧ ∀ uri settings selected st,
      enabled settings = true →
      toolStatusByPath st !! path (executable settings) = None →
      ∃ r, status_after_probe semver_parse stdout uri settings selected st
           = Some (Unavailable r).

Definition NotLF (c : ascii) : Prop := c ≠ LF.

(** No two edits of the list overlap. *)
Definition NoOverlap (edits : list TextEdit) : Prop :=
  ∀ i j a b, i ≠ j → edits !! i = Some a → edits !! j = Some b →
             FixAll.overlaps (range a) (range b) = false.

(** The event reports a failure for [p] that signals a missing
    executable. *)
Definition missing_failure (p : string) (ev : event) : bool :=
  match ev with
  | UpdateConfiguration _ settings (Throws err) _ =>
      bool_decide (path (executable settings) = p) && errorLooksLikeMissingExecutable err
  | LintFailed err executablePath _ =>
      bool_decide (executablePath = p) && errorLooksLikeMissingExecutable err
  | _ => false
  end.

(** The notifications for [p] that "exactly once per path per
    configuration epoch" calls for: one for each epoch in which a failure
    for [p] signals a missing executable, where a configuration change
    that affects the linter starts a new epoch.  [seen] tells whether the
    current epoch has had its notification. *)
Fixpoint once_per_epoch (p : string) (seen : bool) (evs : list event) : nat :=
  match evs with
  | [] => 0
  | DidChangeConfiguration true :: rest => once_per_epoch p false rest
  | ev :: rest =>
      if missing_failure p ev && negb seen
      then S (once_per_epoch p true rest)
      else once_per_epoch p seen rest
  end.

End Props.

(** ** Concrete data for running the definitions *)
Module Samples.
Import Thrown Editor Linter.

(** The text from the last dot of a file name on, for names with a
    non-empty stem and no directory part after the dot; what
    [path.extname] returns on such names. *)
Fixpoint from_last_dot (s : string) : option string :=
  match s with
  | EmptyString => None
  | String c r =>
      match from_last_dot r with
      | Some ext => Some ext
      | None => if decide (c = "."%char) then Some s else None
      end
  end.

Definition extname (fileName : string) : string :=
  match fileName with
  | EmptyString => EmptyString
  | String _ r => default EmptyString (from_last_dot r)
  end.

(** Modelled from the spec: the output format chosen by [createParser]
    of parser.ts, which is not among the sources: the newer format, which
    carries fix data, when quick fixes are enabled and the probed version
    is recent enough, and the older one otherwise. *)
Definition outputFormat (version : ToolCheck.SemVer) (enableQuickFix : bool) : string :=
  if enableQuickFix
     && ((0 <? ToolCheck.major version)%nat || (7 <=? ToolCheck.minor version)%nat)
  then "json1" else "json".

Definition version_0_9_0 : ToolCheck.SemVer :=
  {| ToolCheck.major := 0; ToolCheck.minor := 9; ToolCheck.patch := 0;
     ToolCheck.prerelease := []; ToolCheck.build := [] |}.

Definition settings : ShellCheckSettings :=
  {| enabled := true; enableQuickFix := true;
     executable := {| path := "shellcheck"; bundled := false |};
     trigger := onType;
     exclude := ["2086"; "2046"];
     customArgs := ["--external-sources"];
     ignoreFileSchemes := {[ "git"; "gitfs"; "output" ]};
     useWorkspaceRootAsCwd := false;
     ignorePatterns := [] |}.

Definition document : TextDocument :=
  {| uri := "file:///work/deploy.bash"; scheme := "file";
     fileName := "/work/deploy.bash"; languageId := "shellscript";
     lines := ["if true; then"; "    echo $x"; "fi"] |}.

(** A finding on columns 5 to 7 of the first line, without a fix. *)
Definition result : ParseResult :=
  {| diagnostic :=
       {| diag_range := {| start := {| line := 0; character := 5 |};
                           end_ := {| line := 0; character := 7 |} |};
          diag_message := "Double quote to prevent globbing and word splitting.";
          diag_source := "shellcheck";
          diag_code := Some "SC2086" |};
     codeAction := None |}.

(** A provider that holds results for [a.sh] and [b.sh]. *)
Definition provider : Provider :=
  setResultCollections "file:///b.sh" (Some [result; result])
    (setResultCollections "file:///a.sh" (Some [result; result]) new_Provider).

(** What [shellcheck -V] prints. *)
Definition version_output : string :=
  "ShellCheck - shell script analysis tool" +:+ String LF
    ("version: 0.9.0" +:+ String LF
       "license: GNU General Public License, version 3").

(** A finding on [range] of the first line of [a.sh] whose preferred
    quick fix replaces that range by [replacement]. *)
Definition fixable (rule : string) (r : Range) (replacement : string) : ParseResult :=
  let d := {| diag_range := r; diag_message := "fixable finding";
              diag_source := "shellcheck"; diag_code := Some rule |} in
  {| diagnostic := d;
     codeAction :=
       Some {| title := "ShellCheck: Apply fix for " +:+ rule;
               isPreferred := true;
               edit := Some [("file:///a.sh", [{| range := r; newText := replacement |}])];
               diagnostics := Some [d] |} |}.

Definition columns (from to : nat) : Range :=
  {| start := {| line := 0; character := from |};
     end_ := {| line := 0; character := to |} |}.

(** Two findings, in the order the parser reports them, whose fixes
    rewrite columns 0 to 5 and columns 3 to 8 of the same line. *)
Definition overlapping_results : list ParseResult :=
  [fixable "SC2006" (columns 0 5) "$(ls)"; fixable "SC2086" (columns 3 8) "x"].

(** The error of a spawn that finds no executable. *)
Definition enoent : Thrown.value :=
  Object true
    {| code := Str "ENOENT"; errno := Num (-2); exitCode := Undefined;
       stderr := Str ""; stdout := Str "";
       shortMessage := Str "Command failed with ENOENT: shellcheck -V";
       originalMessage := Str "spawn shellcheck ENOENT";
       message := Str "Command failed with ENOENT: shellcheck -V" |}.

(** A document is opened while the executable is missing, the
    configuration is changed, and the document is linted again with the
    executable still missing. *)
Definition missing_twice : list event :=
  [ UpdateConfiguration "file:///work/deploy.bash" settings (Throws enoent) None;
    DidChangeConfiguration true;
    UpdateConfiguration "file:///work/deploy.bash" settings (Throws enoent) None ].

(** Three edits of [a.sh] typed within the 250 ms window; a task is the
    text the lint run will read. *)
Definition typing_burst : list (nat * string) :=
  [(0, "echo $"); (100, "echo $x"); (300, "echo $xy")].

End Samples.

(** ** More JavaScript string primitives *)
Module Text.

(** [s.split(sep)] for a non-empty string [sep]: the fields between the
    occurrences of [sep], found from left to right without overlap.
    [skip] counts the characters of an occurrence still to be passed. *)
Fixpoint split_go (sep : string) (skip : nat) (s : string) : list string :=
  match s with
  | EmptyString => [EmptyString]
  | String c r =>
      match skip with
      | S k => split_go sep k r
      | O =>
          if Js.startsWith s sep
          then EmptyString :: split_go sep (String.length sep - 1) r
          else match split_go sep 0 r with
               | f :: fs => String c f :: fs
               | [] => [String c EmptyString]
               end
      end
  end.

Definition split (sep s : string) : list string := split_go sep 0 s.

(** [s.replaceAll(pattern, replacement)] for a non-empty string pattern *)
Definition replaceAll (pattern replacement s : string) : string :=
  Js.join replacement (split pattern s).

Definition is_lower (c : ascii) : bool :=
  let n := nat_of_ascii c in (97 <=? n)%nat && (n <=? 122)%nat.

Definition upper_char (c : ascii) : ascii :=
  if is_lower c then ascii_of_nat (nat_of_ascii c - 32) else c.

(** [String.prototype.toUpperCase] on ASCII characters, where it folds
    the letters a to z and keeps every position.  Beyond ASCII the
    JavaScript function can turn one character into several (a sharp s
    into SS); such strings are outside this reading. *)
Fixpoint toUpperCase (s : string) : string :=
  match s with
  | EmptyString => EmptyString
  | String c r => String (upper_char c) (toUpperCase r)
  end.

(** the character class [\w] *)
Definition is_word (c : ascii) : bool :=
  let n := nat_of_ascii c in
  ((48 <=? n)%nat && (n <=? 57)%nat) || ((65 <=? n)%nat && (n <=? 90)%nat)
  || ((97 <=? n)%nat && (n <=? 122)%nat) || (n =? 95)%nat.

(** the character class [[ \t]] *)
Definition is_blank (c : ascii) : bool :=
  let n := nat_of_ascii c in (n =? 32)%nat || (n =? 9)%nat.

Fixpoint skip_blanks (s : string) : string :=
  match s with
  | EmptyString => EmptyString
  | String c r => if is_blank c then skip_blanks r else s
  end.

Fixpoint all_digits (s : string) : bool :=
  match s with
  | EmptyString => true
  | String c r => Js.is_digit c && all_digits r
  end.

End Text.

(** ** utils/link.ts: the wiki page of a rule *)
Module Link.

(** [/^\s*SC\d+$/u.test(asString)] *)
Definition looks_normalized (asString : string) : bool :=
  let rest := Js.trimStart asString in
  Js.startsWith rest "SC"
  && Linter.nonempty (Js.slice_from 2 rest)
  && Text.all_digits (Js.slice_from 2 rest).

(** [asString.replace(/^SC/u, "")] *)
Definition strip_SC (asString : string) : string :=
  if Js.startsWith asString "SC" then Js.slice_from 2 asString else asString.

(** The [normalized] constant of [getWikiUrlForRule]. *)
Definition normalized (asString : string) : string :=
  if looks_normalized asString then asString else "SC" +:+ strip_SC asString.

(** [asString] is [String(ruleId)]: the rule id itself, or the decimal
    digits of a numeric id. *)
Definition getWikiUrlForRule (asString : string) : string :=
  "https://www.shellcheck.net/wiki/" +:+ normalized asString.

End Link.

(** ** linkify.ts: links in suppression directives *)
Module Linkify.
Import Editor.

Record DocumentLink := { link_range : Range; target : string }.

(** [position.translate(0, delta)] *)
Definition translate (p : Position) (delta : nat) : Position :=
  {| line := line p; character := character p + delta |}.

Definition four_digits_here (s : string) : bool :=
  match s with
  | String a (String b (String c (String d _))) =>
      Js.is_digit a && Js.is_digit b && Js.is_digit c && Js.is_digit d
  | _ => false
  end.

(** [\b] after a word character: the next character, if any, is not a
    word character. *)
Definition boundary_after (rest : string) : bool :=
  match rest with
  | EmptyString => true
  | String c _ => negb (Text.is_word c)
  end.

(** One attempt of [/\b(?:SC)?\d{4}\b/] at the start of [s], where
    [prev_word] tells whether the character before is a word character;
    the result is the length of the match.  A match starts with a word
    character, so [\b] asks for no word character before it; the optional
    group is tried first and given up when the rest does not follow. *)
Definition match_here (prev_word : bool) (s : string) : option nat :=
  if prev_word then None
  else if Js.startsWith s "SC"
          && four_digits_here (Js.slice_from 2 s)
          && boundary_after (Js.slice_from 6 s)
  then Some 6
  else if four_digits_here s && boundary_after (Js.slice_from 4 s)
  then Some 4
  else None.

(** [line.matchAll(pattern)]: the index and the text of each match, from
    left to right; after a match the search resumes behind it.  [col] is
    the index of the first character of [s] in the line, [skip] the number
    of characters of the last match still to be passed. *)
Fixpoint matches (prev_word : bool) (col skip : nat) (s : string) : list (nat * string) :=
  match s with
  | EmptyString => []
  | String c r =>
      match skip with
      | S k => matches (Text.is_word c) (S col) k r
      | O =>
          match match_here prev_word s with
          | Some len => (col, Js.slice_to len s) :: matches (Text.is_word c) (S col) (len - 1) r
          | None => matches (Text.is_word c) (S col) 0 r
          end
      end
  end.

Definition collectMatchesOnLine (startPosition : Position) (line : string)
    (result : list DocumentLink) : list DocumentLink :=
  result
  ++ map (fun m =>
            let matchIndex := fst m in
            let ruleId := snd m in
            let url := Link.getWikiUrlForRule ruleId in
            let position := translate startPosition matchIndex in
            {| link_range := {| start := position;
                                end_ := translate position (String.length ruleId) |};
               target := url |})
         (matches false 0 0 line).

(** [/^[ \t]*#[ \t]*shellcheck[ \t]+disable=.+$/] on one line of the
    text.  With the [m] flag the anchors are the ends of a line and [.]
    stays within it, so a match is a whole line of this shape. *)
Definition is_directive (line : string) : bool :=
  let s := Text.skip_blanks line in
  Js.startsWith s "#"
  && (let s := Text.skip_blanks (Js.slice_from 1 s) in
      Js.startsWith s "shellcheck"
      && (let s := Js.slice_from 10 s in
          Js.startsWith (Text.skip_blanks s) "disable="
          && negb (String.length (Text.skip_blanks s) =? String.length s)%nat
          && Linter.nonempty (Js.slice_from 8 (Text.skip_blanks s)))).

(** The loop of [provideDocumentLinks] over the matches of the directive
    pattern, which are the directive lines of the document; a match
    begins at the first column of its line. *)
Fixpoint links_from (lineNumber : nat) (lines : list string)
    (result : list DocumentLink) : list DocumentLink :=
  match lines with
  | [] => result
  | l :: rest =>
      links_from (S lineNumber) rest
        (if is_directive l
         then collectMatchesOnLine {| line := lineNumber; character := 0 |} l result
         else result)
  end.

Definition provideDocumentLinks (document : Linter.TextDocument) : list DocumentLink :=
  links_from 0 (Linter.lines document) [].

End Linkify.

(** ** Vocabulary of the further properties *)
Module Terms.
Import Editor.

Definition IsBlank (c : ascii) : Prop := Text.is_blank c = true.

(** A character at which no rule id can begin. *)
Definition Plain (c : ascii) : Prop := Js.is_digit c = false ∧ c ≠ "S"%char.

(** [pre] does not end with a word character. *)
Definition NotAfterWord (pre : string) : Prop :=
  ∀ pre' c, pre = pre' +:+ String c EmptyString → Text.is_word c = false.

(** [post] does not start with a word character. *)
Definition NotBeforeWord (post : string) : Prop :=
  ∀ c t, post = String c t → Text.is_word c = false.

(** [p] is a rule id with digits [d] that stands at offset [idx] of
    [line] as a word of its own. *)
Definition RuleToken (line : string) (idx : nat) (p d : string) : Prop :=
  ∃ pre post, line = pre +:+ p +:+ post ∧ String.length pre = idx
              ∧ Props.RuleEntry p d ∧ NotAfterWord pre ∧ NotBeforeWord post.

(** [text] is a suppression directive: optional blanks, [#], optional
    blanks, [shellcheck], at least one blank, [disable=] and at least one
    more character. *)
Definition Directive (text : string) : Prop :=
  ∃ b1 b2 b3 rest,
    text = b1 +:+ "#" +:+ b2 +:+ "shellcheck" +:+ b3 +:+ "disable=" +:+ rest
    ∧ Props.AllChars IsBlank b1 ∧ Props.AllChars IsBlank b2 ∧ Props.AllChars IsBlank b3
    ∧ b3 ≠ EmptyString ∧ rest ≠ EmptyString.

(** Whether the last character of [pre] is a word character. *)
Fixpoint ends_with_word (pre : string) : bool :=
  match pre with
  | EmptyString => false
  | String c EmptyString => Text.is_word c
  | String _ r => ends_with_word r
  end.

(** The link on the [len] characters from column [col] of line [n] to
    the wiki page of rule [SC<d>]. *)
Definition link_to_rule (n col len : nat) (d : string) : Linkify.DocumentLink :=
  {| Linkify.link_range :=
       {| start := {| line := n; character := col |};
          end_ := {| line := n; character := col + len |} |};
     Linkify.target := "https://www.shellcheck.net/wiki/SC" +:+ d |}.

End Terms.

(** ** More concrete data *)
Module Cases.
Import Editor Linter.

(** A script with one suppression directive naming two rules. *)
Definition script_with_directive : TextDocument :=
  {| uri := "file:///work/build.sh"; scheme := "file";
     fileName := "/work/build.sh"; languageId := "shellscript";
     lines := ["#!/bin/sh"; "  # shellcheck disable=SC2086,2046"; "echo $x $(ls)"] |}.

End Cases.

(** ** utils/path.ts *)
Module PathUtil.
Import Linter.

(** A workspace folder, by the scheme and the file-system path of its URI. *)
Record WorkspaceFolder := { folder_scheme : string; fsPath : string }.

(** What the functions read from [vscode.workspace]: the folder that
    contains a URI, and the list of folders ([None] when no folder is
    open). *)
Record Workspace := {
  getWorkspaceFolder : string -> option WorkspaceFolder;
  workspaceFolders : option (list WorkspaceFolder);
}.

Section WithPlatform.
(** [process.platform] *)
Variable platform : string.

Definition fixDriveCasingInWindows (pathToFix : string) : string :=
  if negb (bool_decide (platform = "win32")) || (String.length pathToFix =? 0)%nat
  then pathToFix
  else Text.toUpperCase (Js.slice_to 1 pathToFix) +:+ Js.slice_from 1 pathToFix.

Definition isFileUriScheme (uri_scheme : string) : bool :=
  bool_decide (uri_scheme = "file").

Definition getWorkspaceFolderPath (ws : Workspace) (uri : option string)
    (requireFileUri : bool) : option string :=
  let isSafeUriSchemeFunc := if requireFileUri then isFileUriScheme else fun _ => true in
  let fromUri :=
    match uri with
    | Some u =>
        match getWorkspaceFolder ws u with
        | Some workspace =>
            if isSafeUriSchemeFunc (folder_scheme workspace)
            then Some (fixDriveCasingInWindows (fsPath workspace))
            else None
        | None => None
        end
    | None => None
    end in
  match fromUri with
  | Some p => Some p
  | None =>
      match workspaceFolders ws with
      | Some folders =>
          if (0 <? length folders)%nat
          then match List.find (fun folder => isSafeUriSchemeFunc (folder_scheme folder)) folders with
               | Some folder => Some (fixDriveCasingInWindows (fsPath folder))
               | None => None
               end
          else None
      | None => None
      end
  end.

(** [path_dirname] is [path.dirname] of Node; [isUntitled] the flag of
    the document. *)
Definition guessDocumentDirname (path_dirname : string -> string) (ws : Workspace)
    (isUntitled : bool) (textDocument : TextDocument) : option string :=
  if isUntitled then getWorkspaceFolderPath ws (Some (uri textDocument)) true
  else if isFileUriScheme (scheme textDocument) then Some (path_dirname (fileName textDocument))
  else None.

(** [path_resolve] is [path.resolve]; [stat p] is the outcome of
    [fs.promises.stat(p)]: [None] when it rejects, otherwise whether the
    entry is a directory. *)
Definition ensureCurrentWorkingDirectory (path_resolve : string -> string)
    (stat : string -> option bool) (cwd : option string) : option string :=
  match cwd with
  | None => None
  | Some cwd =>
      if negb (nonempty cwd) then None
      else
        let normalizedCwd := path_resolve cwd in
        match stat normalizedCwd with
        | Some isDirectory => if negb isDirectory then None else Some normalizedCwd
        | None => None
        end
  end.

(** The working directory [runLint] hands to [execa]. *)
Definition runLint_cwd (path_dirname path_resolve : string -> string)
    (stat : string -> option bool) (ws : Workspace) (isUntitled : bool)
    (textDocument : TextDocument) (settings : ShellCheckSettings) : option string :=
  let initialCwd :=
    if useWorkspaceRootAsCwd settings
    then getWorkspaceFolderPath ws (Some (uri textDocument)) true
    else guessDocumentDirname path_dirname ws isUntitled textDocument in
  ensureCurrentWorkingDirectory path_resolve stat initialCwd.

(** [activeUri] is [vscode.window.activeTextEditor?.document.uri]. *)
Definition substitutePath (ws : Workspace) (activeUri : option string)
    (input : string) (workspaceFolder : option string) : string :=
  let folder :=
    match workspaceFolder with
    | Some f => f
    | None => default EmptyString (getWorkspaceFolderPath ws activeUri true)
    end in
  Js.join folder
    (Text.split "${workspaceFolder}"
       (Js.join folder (Text.split "${workspaceRoot}" input))).

End WithPlatform.
End PathUtil.

(** ** utils/filematcher.ts *)
Module FileMatcher.
Import Linter.

Section WithMinimatch.
(** [minimatch(path, pattern, { dot: true })] of the minimatch package *)
Variable minimatch : string -> string -> bool.

Record t := {
  excludePatterns : list string;
  excludeCache : gmap string bool;
}.

(** [new FileMatcher()] *)
Definition create : t := {| excludePatterns := []; excludeCache := ∅ |}.

(** [FileSettings] by its entries, in the order of [Object.entries]. *)
Definition pickTrueKeys (settings : option (list (string * bool))) : list string :=
  match settings with
  | None => []
  | Some entries => map fst (List.filter (fun e => snd e) entries)
  end.

Definition configure (exclude : option (list (string * bool))) (m : t) : t :=
  {| excludePatterns := pickTrueKeys exclude; excludeCache := ∅ |}.

Definition clear (m : t) : t :=
  {| excludePatterns := excludePatterns m; excludeCache := ∅ |}.

(** [s.charAt(n) === c] *)
Fixpoint charAt_is (n : nat) (s : string) (c : ascii) : bool :=
  match n, s with
  | O, String x _ => bool_decide (x = c)
  | S n', String _ r => charAt_is n' r c
  | _, EmptyString => false
  end.

Definition relativeTo (fsPath : string) (folder : option string) : string :=
  match folder with
  | Some folder =>
      if nonempty folder && Js.startsWith fsPath folder
      then
        let cuttingPoint := String.length folder in
        let cuttingPoint :=
          if (cuttingPoint <? String.length fsPath)%nat && charAt_is cuttingPoint fsPath "/"
          then cuttingPoint + 1 else cuttingPoint in
        Js.slice_from cuttingPoint fsPath
      else fsPath
  | None => fsPath
  end.

Definition matches (excludePatterns : list string) (filePath : string)
    (root : option string) : bool :=
  let relativePath := relativeTo filePath root in
  existsb (fun pattern => minimatch relativePath pattern) excludePatterns.

(** The answer and the matcher with its cache updated. *)
Definition excludes (fsPath : string) (root : option string) (m : t) : bool * t :=
  if negb (nonempty fsPath) then (true, m)
  else
    match excludeCache m !! fsPath with
    | Some cached => (cached, m)
    | None =>
        let shouldBeExcluded := matches (excludePatterns m) fsPath root in
        (shouldBeExcluded,
         {| excludePatterns := excludePatterns m;
            excludeCache := <[fsPath := shouldBeExcluded]> (excludeCache m) |})
    end.

End WithMinimatch.
End FileMatcher.

(** ** settings.ts: the settings keys and the run trigger *)
Module SettingsKeys.
Import Linter.

Definition SHELLCHECK_SETTING_KEYS : list string :=
  [ "enable"; "enableQuickFix"; "executablePath"; "run"; "exclude"; "customArgs";
    "ignorePatterns"; "ignoreFileSchemes"; "useWorkspaceRootAsCwd" ].

(** [affectsConfiguration] is the method of the change event. *)
Fixpoint checkIfConfigurationChanged_loop (affectsConfiguration : string -> bool)
    (keys : list string) : bool :=
  match keys with
  | [] => false
  | key :: rest =>
      let section := SHELLCHECK_SECTION +:+ "." +:+ key in
      if affectsConfiguration section then true
      else checkIfConfigurationChanged_loop affectsConfiguration rest
  end.

Definition checkIfConfigurationChanged (affectsConfiguration : string -> bool) : bool :=
  checkIfConfigurationChanged_loop affectsConfiguration SHELLCHECK_SETTING_KEYS.

(** The handler on the event itself. *)
Definition onDidChangeConfiguration (affectsConfiguration : string -> bool)
    (st : Provider) : Provider :=
  handleDidChangeConfiguration (checkIfConfigurationChanged affectsConfiguration) st.

Definition runTriggerFrom (value : string) : RunTrigger :=
  if bool_decide (value = "onSave") then onSave
  else if bool_decide (value = "onType") then onType
  else manual.

End SettingsKeys.

(** ** Vocabulary for the path and matcher properties *)
Module Notions.
Import PathUtil.

(** [f] may be used: any folder when file URIs are not required,
    otherwise only a folder with the [file] scheme. *)
Definition SafeFolder (requireFileUri : bool) (f : WorkspaceFolder) : Prop :=
  requireFileUri = true → folder_scheme f = "file".

(** The folders [getWorkspaceFolderPath] can choose from: the one that
    contains the URI and the folders of the workspace. *)
Definition Candidate (ws : Workspace) (uri : option string) (f : WorkspaceFolder) : Prop :=
  (∃ u, uri = Some u ∧ getWorkspaceFolder ws u = Some f)
  ∨ (∃ folders, workspaceFolders ws = Some folders ∧ f ∈ folders).

End Notions.

(** ** Concrete data for the path and matcher properties *)
Module Fixtures.
Import Linter PathUtil.

(** The text before the last [/] of an absolute file name below the
    root; what [path.dirname] returns on such names. *)
Fixpoint before_last_slash (s : string) : option string :=
  match s with
  | EmptyString => None
  | String c r =>
      match before_last_slash r with
      | Some d => Some (String c d)
      | None => if decide (c = "/"%char) then Some EmptyString else None
      end
  end.

Definition dirname (fileName : string) : string :=
  default "." (before_last_slash fileName).

Definition work : WorkspaceFolder := {| folder_scheme := "file"; fsPath := "/work" |}.

(** A workspace with the single folder [/work]. *)
Definition workspace : Workspace :=
  {| getWorkspaceFolder := fun u =>
       if Js.startsWith u "file:///work/" then Some work else None;
     workspaceFolders := Some [work] |}.

(** A file system in which only [/work] exists, as a directory. *)
Definition stat (p : string) : option bool :=
  if bool_decide (p = "/work") then Some true else None.

(** A matcher for patterns of the form [*SUFFIX] and for literal
    patterns; what [minimatch] answers on such patterns for a path
    without [/]. *)
Fixpoint ends_with (s suffix : string) : bool :=
  bool_decide (s = suffix)
  || match s with
     | EmptyString => false
     | String _ r => ends_with r suffix
     end.

Definition glob (path pattern : string) : bool :=
  match pattern with
  | String "*" suffix => negb (Js.includes path "/") && ends_with path suffix
  | _ => bool_decide (path = pattern)
  end.

End Fixtures.


(** ** linter.ts: requesting and running a lint *)
Module Runs.
Import Thrown Editor Linter.

Definition CR : ascii := "013"%char.

(** The text handed to the tool on its standard input:
    [getText().replaceAll("\r\n", "\n").replaceAll("\r", "\n")]. *)
Definition script (text : string) : string :=
  Text.replaceAll (String CR EmptyString) (String LF EmptyString)
    (Text.replaceAll (String CR (String LF EmptyString)) (String LF EmptyString) text).

(** [toolStatus.ok] *)
Definition ok (status : ToolStatus) : bool :=
  match status with Ready _ => true | Unavailable _ => false end.

Section WithParser.
(** [parser.parse] of parser.ts, which may throw. *)
Variable parse : string -> outcome (list ParseResult).

(** What [runLint] does once the process has been awaited.  [spawned] is
    the outcome of [await execa(...)]: the [stdout] of its result ([None]
    when there is none) or the error it rejects with.  With [reject:
    false] a spawn that fails resolves with a result without output, so
    a rejection is the rare case and the [catch] mostly sees what the
    parser throws.  [selected] is the user's answer to a notification.
    The run is taken to complete without other handlers in between. *)
Definition runLint (textDocument : TextDocument) (settings : ShellCheckSettings)
    (spawned : outcome (option string)) (selected : option string) (st : Provider)
    : Provider * list effect :=
  match toolStatusByPath st !! path (executable settings) with
  | Some (Ready version) =>
      let executable := executable settings in
      let tried :=
        match spawned with
        | Returns stdout =>
            let output := default EmptyString stdout in
            if (0 <? String.length output)%nat
            then match parse output with
                 | Returns result => Returns (Some result)
                 | Throws error => Throws error
                 end
            else Returns None
        | Throws error => Throws error
        end in
      match tried with
      | Returns result => (setResultCollections (uri textDocument) result st, [])
      | Throws error => handleShellCheckExecutionError error (path executable) selected st
      end
  | _ => (st, [])
  end.
End WithParser.

(** The provider together with its delayers: for each document key the
    delay its [ThrottledDelayer] was created with. *)
Record Session := {
  provider : Provider;
  delayers : gmap string nat;
}.

Definition with_provider (st : Provider) (ss : Session) : Session :=
  {| provider := st; delayers := delayers ss |}.

(** What a call of [triggerLint] comes to: it returns without a request,
    its promise rejects, or it hands [runLint(textDocument, settings)] to
    the delayer of the document, which waits [delay] milliseconds. *)
Inductive request :=
| NoRequest
| Rejected (error : value)
| Trigger (delay : nat) (settings : ShellCheckSettings).

(** The [TypeError] of reading a property of [undefined]. *)
Definition TypeError (property : string) : value :=
  new_Error ("Cannot read properties of undefined (reading '" +:+ property +:+ "')").

(** [fresh] is the outcome of [await getWorkspaceSettings(...)]; [probe]
    and [selected] are as for [updateConfiguration].  The settings
    returned are the entry of the map, as the source reads it back. *)
Definition getSettings (uri : string) (fresh : outcome ShellCheckSettings)
    (probe : outcome ToolCheck.SemVer) (selected : option string) (st : Provider)
    : outcome (option ShellCheckSettings) * Provider * list effect :=
  if bool_decide (is_Some (settingsByUri st !! uri))
  then (Returns (settingsByUri st !! uri), st, [])
  else
    match fresh with
    | Throws error => (Throws error, st, [])
    | Returns settings =>
        let '(st, fx) := updateConfiguration uri settings probe selected st in
        (Returns (settingsByUri st !! uri), st, fx)
    end.

(** [allowed] is [this.isAllowedTextDocument(textDocument)] and
    [excluded] the answer of [settings.fileMatcher.excludes(fileName,
    getWorkspaceFolderPath(uri, false))]. *)
Definition triggerLint (allowed : bool) (textDocument : TextDocument)
    (extraCondition : ShellCheckSettings -> bool)
    (fresh : outcome ShellCheckSettings) (probe : outcome ToolCheck.SemVer)
    (selected : option string) (excluded : bool) (ss : Session)
    : Session * list effect * request :=
  if negb allowed then (ss, [], NoRequest)
  else
    let '(got, st, fx) := getSettings (uri textDocument) fresh probe selected (provider ss) in
    let ss := with_provider st ss in
    match got with
    | Throws error => (ss, fx, Rejected error)
    | Returns None => (ss, fx, Rejected (TypeError "executable"))
    | Returns (Some settings) =>
        let skip :=
          if negb (extraCondition settings) then Returns true
          else
            match toolStatusByPath st !! path (executable settings) with
            | None => Throws (TypeError "ok")
            | Some status =>
                Returns (negb (ok status)
                         || bool_decide (scheme textDocument ∈ ignoreFileSchemes settings))
            end in
        match skip with
        | Throws error => (ss, fx, Rejected error)
        | Returns true => (ss, fx, NoRequest)
        | Returns false =>
            if negb (enabled settings)
            then (with_provider (setResultCollections (uri textDocument) None st) ss,
                  fx, NoRequest)
            else if excluded then (ss, fx, NoRequest)
            else
              let key := uri textDocument in
              match delayers ss !! key with
              | Some delay => (ss, fx, Trigger delay settings)
              | None =>
                  let delay := match trigger settings with onType => 250 | _ => 0 end in
                  ({| provider := st; delayers := <[key := delay]> (delayers ss) |},
                   fx, Trigger delay settings)
              end
        end
    end.

(** The handlers catch a rejection and log it; the request they come to
    is kept as it is. *)
Definition handleDidOpenTextDocument (allowed : bool) (textDocument : TextDocument) :=
  triggerLint allowed textDocument (fun _ => true).

Definition handleDidChangeTextDocument (allowed : bool) (textDocument : TextDocument)
    (fresh : outcome ShellCheckSettings) (probe : outcome ToolCheck.SemVer)
    (selected : option string) (excluded : bool) (ss : Session)
    : Session * list effect * request :=
  if bool_decide (scheme textDocument = "output") then (ss, [], NoRequest)
  else
    triggerLint allowed textDocument
      (fun settings => match trigger settings with onType => true | _ => false end)
      fresh probe selected excluded ss.

Definition handleDidSaveTextDocument (allowed : bool) (textDocument : TextDocument) :=
  triggerLint allowed textDocument
    (fun settings => match trigger settings with onSave => true | _ => false end).

(** [handleDidCloseTextDocument] with the delayers. *)
Definition didCloseTextDocument (uri : string) (ss : Session) : Session :=
  {| provider := handleDidCloseTextDocument uri (provider ss);
     delayers := delete uri (delayers ss) |}.

(** [handleDidChangeConfiguration] with the delayers, which it leaves. *)
Definition didChangeConfiguration (affectsConfiguration : string -> bool)
    (ss : Session) : Session :=
  with_provider (SettingsKeys.onDidChangeConfiguration affectsConfiguration (provider ss)) ss.

End Runs.

(** ** linter.ts: the code actions of the provider *)
Module Actions.
Import Editor Linter.

(** What [provideCodeActions] returns: the two command actions built for
    a diagnostic, and the cached actions of the parser. *)
Inductive provided :=
| OpenRuleDoc (title url : string)
| DisableCheckForLine (title : string) (document : TextDocument) (ruleId : string)
    (range : Range)
| Cached (action : CodeAction).

(** [diag_code] holds the [value] of a diagnostic code that is an object
    with a string value; any other code is [None]. *)
Definition extractRuleId (diagnostic : Diagnostic) : option string :=
  match diag_code diagnostic with
  | Some value => if Js.startsWith value "SC" then Some value else None
  | None => None
  end.

(** [context_diagnostics] is [context.diagnostics]. *)
Definition provideCodeActions (st : Provider) (document : TextDocument) (range : Range)
    (context_diagnostics : list Diagnostic) : list provided :=
  let shellcheckDiagnostics :=
    List.filter (fun diagnostic => bool_decide (diag_source diagnostic = "shellcheck"))
      context_diagnostics in
  let actions :=
    flat_map
      (fun diagnostic =>
         match extractRuleId diagnostic with
         | None => []
         | Some ruleId =>
             if negb (nonempty ruleId) then []
             else
               [ OpenRuleDoc ("ShellCheck: Show wiki for " +:+ ruleId)
                   (Link.getWikiUrlForRule ruleId);
                 DisableCheckForLine ("ShellCheck: Disable " +:+ ruleId +:+ " for this line")
                   document ruleId (diag_range diagnostic) ]
         end)
      shellcheckDiagnostics in
  let results := default [] (codeActionCollection st !! uri document) in
  let additionalActions :=
    omap codeAction
      (List.filter (fun result => bool_decide (is_Some (codeAction result))
                                  && contains (diag_range (diagnostic result)) range)
         results) in
  actions ++ map Cached additionalActions.

End Actions.


(** ** Vocabulary for the properties of lint requests and runs *)
Module Conditions.
Import Thrown Editor Linter Runs.

Definition NoCR (c : ascii) : Prop := c ≠ CR.

(** The run fails with [error]: the process has given output, and the
    parser throws [error] on it.  The process is started with [reject:
    false], so a spawn that fails (a missing executable, say) does not
    reject: it gives a result without output, and the run does not fail
    in this sense. *)
Definition RunFails (parse : string → outcome (list ParseResult))
    (spawned : outcome (option string)) (error : value) : Prop :=
  ∃ output, spawned = Returns (Some output) ∧ output ≠ "" ∧ parse output = Throws error.

(** The debounce the run trigger of [settings] calls for. *)
Definition delay_for (settings : ShellCheckSettings) : nat :=
  match trigger settings with onType => 250 | _ => 0 end.

(** The event affects one of the settings of the linter. *)
Definition AffectsLinter (affectsConfiguration : string → bool) : Prop :=
  ∃ key, key ∈ SettingsKeys.SHELLCHECK_SETTING_KEYS
         ∧ affectsConfiguration ("vscode-shell.shellcheck." +:+ key) = true.

(** The session of a provider that has just been constructed. *)
Definition new_Session : Session := {| provider := new_Provider; delayers := ∅ |}.

(** A provider that has probed [shellcheck] and found version 0.9.0. *)
Definition ready_provider : Provider :=
  with_toolStatusByPath (insert "shellcheck" (Ready Samples.version_0_9_0)) new_Provider.

(** A parser that throws on every output, as a JSON parser does on
    output that is no JSON. *)
Definition parse_rejects (output : string) : outcome (list ParseResult) :=
  Throws (new_Error "Unexpected token in JSON at position 0").

(** [Samples.settings] with the linter switched off. *)
Definition disabled_settings : ShellCheckSettings :=
  {| enabled := false; enableQuickFix := true;
     executable := {| path := "shellcheck"; bundled := false |};
     trigger := onType;
     exclude := [];
     customArgs := [];
     ignoreFileSchemes := {[ "git"; "gitfs"; "output" ]};
     useWorkspaceRootAsCwd := false;
     ignorePatterns := [] |}.

(** [Samples.settings] with the run trigger [onSave]. *)
Definition on_save_settings : ShellCheckSettings :=
  {| enabled := true; enableQuickFix := true;
     executable := {| path := "shellcheck"; bundled := false |};
     trigger := onSave;
     exclude := [];
     customArgs := [];
     ignoreFileSchemes := {[ "git"; "gitfs"; "output" ]};
     useWorkspaceRootAsCwd := false;
     ignorePatterns := [] |}.

(** A document is opened in a new session and the probe finds version
    0.9.0. *)
Definition first_request : Session * list effect * request :=
  triggerLint true Samples.document (fun _ => true) (Returns Samples.settings)
    (Returns Samples.version_0_9_0) None false new_Session.

(** A change event for the setting [run]. *)
Definition run_changed (section : string) : bool :=
  bool_decide (section = "vscode-shell.shellcheck.run").

End Conditions.


(** ** linter.ts: the document filters of the extension API *)
Module Filters.
Import Linter Runs.

(** The provider with the document filters registered through the API.
    The filters are objects held in a [Set], compared by identity; a
    filter is named here by a number. *)
Record Registry := {
  session : Session;
  additionalDocumentFilters : gset nat;
}.

(** What disposing the [Disposable] returned by a registration does:
    nothing (the empty [Disposable.from()]), or remove the filter. *)
Inductive disposable :=
| Nothing
| Unregister (documentFilter : nat).

(** [this.settingsByUri.clear(); this.toolStatusByPath.clear()] *)
Definition clear_caches (ss : Session) : Session :=
  with_provider
    (with_toolStatusByPath (fun _ => ∅) (with_settingsByUri (fun _ => ∅) (provider ss))) ss.

(** The lint of the whole workspace that a new registration starts
    arrives as later requests. *)
Definition registerDocumentFilter (documentFilter : nat) (r : Registry)
    : Registry * disposable :=
  if bool_decide (documentFilter ∈ additionalDocumentFilters r) then (r, Nothing)
  else
    ({| session := clear_caches (session r);
        additionalDocumentFilters := {[ documentFilter ]} ∪ additionalDocumentFilters r |},
     Unregister documentFilter).

Definition dispose (d : disposable) (r : Registry) : Registry :=
  match d with
  | Nothing => r
  | Unregister documentFilter =>
      {| session := clear_caches (session r);
         additionalDocumentFilters := additionalDocumentFilters r ∖ {[ documentFilter ]} |}
  end.

Definition LANGUAGES : list string := ["shellscript"; "bats"].

(** [!!vscode.languages.match([...LANGUAGES, ...filters], textDocument)]:
    a language identifier matches the documents of that language, and
    [score documentFilter textDocument] tells whether the host gives the
    filter a positive score on the document. *)
Definition isAllowedTextDocument (score : nat -> TextDocument -> bool) (r : Registry)
    (textDocument : TextDocument) : bool :=
  existsb (fun language => bool_decide (languageId textDocument = language)) LANGUAGES
  || bool_decide (set_Exists (fun documentFilter => score documentFilter textDocument = true)
                    (additionalDocumentFilters r)).

End Filters.


(** ** utils/tool-check.ts: the suggestion to update the tool *)
Module UpdatePrompt.
Import ToolCheck.

Definition MINIMUM_TOOL_VERSION : string := "0.7.0".

Definition quote : string := String "034"%char EmptyString.

Inductive effect :=
| ShowInformationMessage (message : string) (items : list string)
| OpenExternal (url : string).

Section WithHost.
(** The configuration of the host editor for the section of the linter,
    read by [config.get<boolean>("disableVersionCheck")] ([None] when
    undefined) and written by [config.update("disableVersionCheck", true,
    true)]. *)
Variable Config : Type.
Variable config_get : Config -> option bool.
Variable config_update : Config -> Config.
(** [semver.lt] and [version.format()] of the semver package *)
Variable semver_lt : SemVer -> string -> bool.
Variable format : SemVer -> string.

(** [new DisableVersionCheckUpdateSetting().isDisabled] *)
Definition isDisabled (config : Config) : bool := default false (config_get config).

(** [selected] is the item the user picks, if any. *)
Definition promptForUpdatingTool (currentVersion : string) (selected : option string)
    (config : Config) : Config * list effect :=
  let shown :=
    [ShowInformationMessage
       ("The ShellCheck extension is better with a newer version of " +:+ quote
        +:+ "shellcheck" +:+ quote +:+ " (you got v" +:+ currentVersion +:+ ", v"
        +:+ MINIMUM_TOOL_VERSION +:+ " or newer is recommended)")
       ["Don't Show Again"; "Update"]] in
  if bool_decide (selected = Some "Don't Show Again") then (config_update config, shown)
  else if bool_decide (selected = Some "Update")
  then (config, shown ++ [OpenExternal "https://github.com/koalaman/shellcheck#installing"])
  else (config, shown).

Definition tryPromptForUpdatingTool (version : SemVer) (selected : option string)
    (config : Config) : Config * list effect :=
  if isDisabled config then (config, [])
  else if semver_lt version MINIMUM_TOOL_VERSION
  then promptForUpdatingTool (format version) selected config
  else (config, []).
End WithHost.

(** A host whose configuration is the stored flag alone, and an order
    on plain versions [MAJOR.MINOR.PATCH], to run the prompt. *)
Definition stored_flag (config : option bool) : option bool := config.

Definition store_true (config : option bool) : option bool := Some true.

Definition plain_lt (version : SemVer) (other : string) : bool :=
  match plain_semver_parse other with
  | Some o =>
      (major version <? major o)%nat
      || ((major version =? major o)%nat
          && ((minor version <? minor o)%nat
              || ((minor version =? minor o)%nat && (patch version <? patch o)%nat)))
  | None => false
  end.

Definition plain_format (version : SemVer) : string :=
  pretty (major version) +:+ "." +:+ pretty (minor version) +:+ "." +:+ pretty (patch version).

Definition version_0_6_0 : SemVer :=
  {| major := 0; minor := 6; patch := 0; prerelease := []; build := [] |}.

End UpdatePrompt.


(** ** utils/tool-check.ts on outputs beyond ASCII *)
Module Wide.
Import ToolCheck.

(** A JavaScript string as the sequence of its UTF-16 code units. *)
Definition text := list N.

Fixpoint of_string (s : string) : text :=
  match s with
  | EmptyString => []
  | String c r => N.of_nat (nat_of_ascii c) :: of_string r
  end.

(** [String.prototype.startsWith] *)
Fixpoint startsWith (s p : text) {struct p} : bool :=
  match p, s with
  | [], _ => true
  | a :: p', b :: s' => if (a =? b)%N then startsWith s' p' else false
  | _ :: _, [] => false
  end.

(** [String.prototype.indexOf]; [None] stands for [-1]. *)
Fixpoint indexOf (s needle : text) : option nat :=
  if startsWith s needle then Some 0
  else match s with
       | [] => None
       | _ :: r => S <$> indexOf r needle
       end.

(** The white space and line terminators of the language: what [trim]
    removes and [\s] matches. *)
Definition is_space (u : N) : bool :=
  ((u =? 32) || ((9 <=? u) && (u <=? 13)) || (u =? 160) || (u =? 5760)
   || ((8192 <=? u) && (u <=? 8202)) || (u =? 8232) || (u =? 8233) || (u =? 8239)
   || (u =? 8287) || (u =? 12288) || (u =? 65279))%N.

Fixpoint trimStart (s : text) : text :=
  match s with
  | [] => []
  | u :: r => if is_space u then trimStart r else s
  end.

(** [String.prototype.trim] *)
Definition trim (s : text) : text := rev (trimStart (rev (trimStart s))).

(** [s.split(/\s/u)[0] ?? ""]: the text before the first white space *)
Fixpoint first_field (s : text) : text :=
  match s with
  | [] => []
  | u :: r => if is_space u then [] else u :: first_field r
  end.

(** What [parseToolVersion] comes to: the version it returns, or the
    message of the [Error] it throws. *)
Inductive result :=
| Version (version : SemVer)
| Error (message : text).

Section WithHost.
(** [String.prototype.toLowerCase] and [semver.parse] *)
Variable toLowerCase : text -> text.
Variable semver_parse : text -> option SemVer.

Definition parseToolVersion (stdout : text) : result :=
  let lower := toLowerCase stdout in
  let prefix := of_string "version:" in
  match indexOf lower prefix with
  | None => Error (of_string "Unexpected response from ShellCheck: " ++ stdout)
  | Some index =>
      let remainder := trim (drop (index + length prefix) stdout) in
      let token := first_field remainder in
      let normalized := if startsWith token (of_string "v") then drop 1 token else token in
      match semver_parse normalized with
      | Some version => Version version
      | None => Error (of_string "Unable to parse ShellCheck version: " ++ token)
      end
  end.
End WithHost.

(** [toLowerCase] on texts of ASCII characters and U+0130, the capital I
    with a dot above: the letters A to Z are folded, U+0130 becomes an i
    followed by the combining dot U+0307, and every other ASCII character
    stays. *)
Definition lower_unit (u : N) : text :=
  if ((65 <=? u) && (u <=? 90))%N then [(u + 32)%N]
  else if (u =? 304)%N then [105%N; 775%N]
  else [u].

Definition toLowerCase (s : text) : text := flat_map lower_unit s.

(** The ASCII string with these code units, if there is one. *)
Fixpoint as_ascii (s : text) : option string :=
  match s with
  | [] => Some EmptyString
  | u :: r =>
      if (u <? 128)%N
      then String (ascii_of_nat (N.to_nat u)) <$> as_ascii r
      else None
  end.

(** [plain_semver_parse] on code units. *)
Definition plain_parse (s : text) : option SemVer :=
  match as_ascii s with
  | Some a => plain_semver_parse a
  | None => None
  end.

(** An output that starts with two U+0130. *)
Definition dotted_output : text := 304%N :: 304%N :: of_string " version: 1.2.3".

End Wide.


(** ** linter.ts: reading the settings, at the grain of its awaits *)
Module Awaits.
Import Thrown Linter.

(** A call of [updateConfiguration] is suspended at [await
    getToolVersion] and, when the probe throws and a notification is put
    up, at [await showErrorMessage]; while it is, other handlers run.
    Where a call stands; [probe] is what the probe settles with and
    [selected] the answer the user gives. *)
Inductive call :=
| AwaitingProbe (settings : ShellCheckSettings) (probe : outcome ToolCheck.SemVer)
    (selected : option string)
| AwaitingAnswer (settings : ShellCheckSettings) (error : value) (selected : option string)
| Ended.

(** [updateConfiguration] from its start to its first await. *)
Definition start (uri : string) (settings : ShellCheckSettings)
    (probe : outcome ToolCheck.SemVer) (selected : option string) (st : Provider)
    : Provider * call :=
  let st := with_settingsByUri (insert uri settings) st in
  let st := setResultCollections uri None st in
  let p := path (executable settings) in
  if enabled settings && negb (bool_decide (is_Some (toolStatusByPath st !! p)))
  then (st, AwaitingProbe settings probe selected)
  else (st, Ended).

(** The call from one await to the next (or to its end), on the state
    it finds when it is resumed. *)
Definition resume (c : call) (st : Provider) : Provider * list effect * call :=
  match c with
  | AwaitingProbe settings (Returns version) _ =>
      (with_toolStatusByPath (insert (path (executable settings)) (Ready version)) st,
       if bundled (executable settings) then [] else [TryPromptForUpdatingTool version],
       Ended)
  | AwaitingProbe settings (Throws error) selected =>
      let p := path (executable settings) in
      match showShellCheckError_shown error p st with
      | Some (message, items) =>
          (st, [ShowErrorMessage message items], AwaitingAnswer settings error selected)
      | None => (with_toolStatusByPath (insert p (toolStatusByError error)) st, [], Ended)
      end
  | AwaitingAnswer settings error selected =>
      let p := path (executable settings) in
      let '(st, fx) := showShellCheckError_answered error p selected st in
      (with_toolStatusByPath (insert p (toolStatusByError error)) st, fx, Ended)
  | Ended => (st, [], Ended)
  end.

(** A call that runs from its start to its end with no other handler
    in between. *)
Definition alone (uri : string) (settings : ShellCheckSettings)
    (probe : outcome ToolCheck.SemVer) (selected : option string) (st : Provider)
    : Provider * list effect :=
  let '(st, c) := start uri settings probe selected st in
  let '(st, fx1, c) := resume c st in
  let '(st, fx2, c) := resume c st in
  (st, fx1 ++ fx2).

(** Two documents that use the same missing executable are opened one
    right after the other: the second call starts while the notification
    of the first is still up. *)
Definition overlapping_probes : Provider * list effect :=
  let '(st, a) :=
    start "file:///a.sh" Samples.settings (Throws Samples.enoent) None new_Provider in
  let '(st, fx1, a) := resume a st in
  let '(st, b) := start "file:///b.sh" Samples.settings (Throws Samples.enoent) None st in
  let '(st, fx2, b) := resume b st in
  let '(st, fx3, a) := resume a st in
  let '(st, fx4, b) := resume b st in
  (st, fx1 ++ fx2 ++ fx3 ++ fx4).

End Awaits.


(** * Properties *)

(** ** Facts about the string primitives *)
Section JsFacts.

Lemma app_cons c (a b : string) : String c a +:+ b = String c (a +:+ b).
Proof. reflexivity. Qed.

Lemma app_nil_l (b : string) : "" +:+ b = b.
Proof. reflexivity. Qed.

Lemma startsWith_split s p :
  Js.startsWith s p = true → s = p +:+ Js.slice_from (String.length p) s.
Proof.
  revert s. induction p as [|a p IH]; intros s H; [done|].
  destruct s as [|b s]; simpl in H; [done|].
  destruct (decide (a = b)) as [->|]; [|done].
  rewrite app_cons. simpl. f_equal. by apply IH.
Qed.

Lemma startsWith_app p r : Js.startsWith (p +:+ r) p = true.
Proof.
  induction p as [|a p IH]; [done|].
  rewrite app_cons. simpl. by rewrite decide_True.
Qed.

Lemma slice_from_app p r : Js.slice_from (String.length p) (p +:+ r) = r.
Proof. induction p as [|a p IH]; [done|]. by rewrite app_cons. Qed.

Lemma slice_to_app p r : Js.slice_to (String.length p) (p +:+ r) = p.
Proof. induction p as [|a p IH]; [done|]. rewrite app_cons. simpl. by f_equal. Qed.

Lemma slice_to_from n s : Js.slice_to n s +:+ Js.slice_from n s = s.
Proof.
  revert s. induction n as [|n IH]; intros [|c s]; simpl; try done.
  by rewrite app_cons, IH.
Qed.

Lemma app_assoc_string (a b c : string) : (a +:+ b) +:+ c = a +:+ (b +:+ c).
Proof. induction a as [|x a IH]; [done|]. by rewrite !app_cons, IH. Qed.

Lemma app_empty_r (a : string) : a +:+ "" = a.
Proof. induction a as [|x a IH]; [done|]. by rewrite app_cons, IH. Qed.

Lemma length_app_string (a b : string) :
  String.length (a +:+ b) = String.length a + String.length b.
Proof. induction a as [|x a IH]; [done|]. rewrite app_cons. simpl. by rewrite IH. Qed.

Lemma length_toLowerCase s : String.length (Js.toLowerCase s) = String.length s.
Proof. induction s as [|c s IH]; [done|]. simpl. by rewrite IH. Qed.

End JsFacts.

(** ** The exclusion list of a settings snapshot *)
Section ExcludeList.
Import Settings Props.

Lemma is_digit_spec c : Js.is_digit c = true ↔ IsDigit c.
Proof.
  unfold Js.is_digit, IsDigit. rewrite andb_true_iff, !Nat.leb_le. done.
Qed.

Lemma four_digits_then_end_Some s g :
  four_digits_then_end s = Some g ↔ g = s ∧ FourDigits s.
Proof.
  unfold four_digits_then_end. split.
  - destruct s as [|a [|b [|c [|e [|? ?]]]]]; try done.
    destruct (Js.is_digit a) eqn:Ha; [|done].
    destruct (Js.is_digit b) eqn:Hb; [|done].
    destruct (Js.is_digit c) eqn:Hc; [|done].
    destruct (Js.is_digit e) eqn:He; [|done].
    simpl. intros [= <-]. split; [done|].
    exists a, b, c, e. by rewrite <- !is_digit_spec.
  - intros [-> (a & b & c & e & -> & Ha & Hb & Hc & He)].
    apply is_digit_spec in Ha, Hb, Hc, He. by rewrite Ha, Hb, Hc, He.
Qed.

Lemma FourDigits_not_prefixed d : FourDigits d → Js.startsWith d "SC" = false.
Proof.
  intros (a & b & c & e & -> & Ha & _). simpl.
  destruct (decide ("S"%char = a)) as [<-|]; [|done].
  unfold IsDigit in Ha. change (nat_of_ascii "S") with 83 in Ha. lia.
Qed.

Lemma exec_of_entry p d : RuleEntry p d → validErrorCodePattern_exec p = Some d.
Proof.
  intros [Hd [->| ->]]; unfold validErrorCodePattern_exec.
  - rewrite (FourDigits_not_prefixed d Hd).
    by apply four_digits_then_end_Some.
  - rewrite (startsWith_app "SC" d).
    change 2 with (String.length "SC"). rewrite slice_from_app.
    by rewrite (proj2 (four_digits_then_end_Some d d)).
Qed.

Lemma entry_of_exec p d : validErrorCodePattern_exec p = Some d → RuleEntry p d.
Proof.
  unfold validErrorCodePattern_exec.
  destruct (Js.startsWith p "SC") eqn:Hp.
  - destruct (four_digits_then_end (Js.slice_from 2 p)) as [g|] eqn:Hg.
    + intros [= <-]. apply four_digits_then_end_Some in Hg as [-> Hd].
      split; [done|]. right. by apply startsWith_split in Hp.
    + intros [-> Hd]%four_digits_then_end_Some.
      by rewrite (FourDigits_not_prefixed _ Hd) in Hp.
  - intros [-> Hd]%four_digits_then_end_Some. split; [done | by left].
Qed.

Lemma exec_None p : validErrorCodePattern_exec p = None ↔ ∀ d, ¬ RuleEntry p d.
Proof.
  split.
  - intros H d Hd. apply exec_of_entry in Hd. congruence.
  - intros H. destruct (validErrorCodePattern_exec p) as [d|] eqn:E; [|done].
    apply entry_of_exec in E. by destruct (H d).
Qed.

Lemma FourDigits_truthy d : FourDigits d → truthy d = true.
Proof. by intros (a & b & c & e & -> & _). Qed.

Lemma filterExcludes_loop_app exclude acc :
  filterExcludes_loop exclude acc = acc ++ filterExcludes exclude.
Proof.
  unfold filterExcludes. revert acc.
  induction exclude as [|p rest IH]; intros acc; simpl.
  - by rewrite app_nil_r.
  - destruct (validErrorCodePattern_exec p) as [g|]; [|done].
    destruct (truthy g); [|done].
    rewrite (IH (acc ++ [g])), (IH [g]). by rewrite <- app_assoc.
Qed.

Lemma filterExcludes_cons_entry p d rest :
  RuleEntry p d → filterExcludes (p :: rest) = d :: filterExcludes rest.
Proof.
  intros H. unfold filterExcludes at 1. simpl.
  rewrite (exec_of_entry p d H), (FourDigits_truthy d (proj1 H)).
  by rewrite filterExcludes_loop_app.
Qed.

Lemma filterExcludes_cons_other p rest :
  (∀ d, ¬ RuleEntry p d) → filterExcludes (p :: rest) = filterExcludes rest.
Proof.
  intros H. unfold filterExcludes at 1. simpl.
  by rewrite (proj2 (exec_None p) H).
Qed.

Lemma filterExcludes_app l1 l2 :
  filterExcludes (l1 ++ l2) = filterExcludes l1 ++ filterExcludes l2.
Proof.
  induction l1 as [|p l1 IH]; [done|].
  rewrite <- app_comm_cons.
  destruct (validErrorCodePattern_exec p) as [d|] eqn:E.
  - apply entry_of_exec in E.
    by rewrite !(filterExcludes_cons_entry p d _ E), IH.
  - pose proof (proj1 (exec_None p) E) as E'.
    by rewrite !(filterExcludes_cons_other p _ E'), IH.
Qed.

(** C9. In a resolved settings snapshot every entry of the exclusion
    list is a string of exactly four digits.  The list is the configured
    one, in order, where an entry that is an optional [SC] followed by
    four digits contributes its digits (the prefix is stripped) and any
    other entry is dropped. *)
Theorem exclude_list_normalised (exclude : list string) :
  Forall FourDigits (filterExcludes exclude)
  ∧ (∀ pre p post d, exclude = pre ++ p :: post → RuleEntry p d →
       filterExcludes exclude = filterExcludes pre ++ d :: filterExcludes post)
  ∧ (∀ pre p post, exclude = pre ++ p :: post → (∀ d, ¬ RuleEntry p d) →
       filterExcludes exclude = filterExcludes pre ++ filterExcludes post).
Proof.
  split; [|split].
  - induction exclude as [|p rest IH]; [constructor|].
    destruct (validErrorCodePattern_exec p) as [d|] eqn:E.
    + apply entry_of_exec in E.
      rewrite (filterExcludes_cons_entry p d _ E). constructor; [apply E | done].
    + pose proof (proj1 (exec_None p) E) as E'.
      by rewrite (filterExcludes_cons_other p _ E').
  - intros pre p post d -> H.
    by rewrite filterExcludes_app, (filterExcludes_cons_entry p d _ H).
  - intros pre p post -> H.
    by rewrite filterExcludes_app, (filterExcludes_cons_other p _ H).
Qed.

Lemma FourDigits_2086 : FourDigits "2086".
Proof.
  exists "2"%char, "0"%char, "8"%char, "6"%char.
  unfold IsDigit. repeat split; vm_compute; lia.
Qed.

Lemma not_RuleEntry_all d : ¬ RuleEntry "all" d.
Proof.
  intros [(a & b & c & e & -> & Ha & _) [H|H]]; [done|].
  vm_compute in H. done.
Qed.

(** The snapshot for the configured list [SC2086; all; 2086]. *)
Lemma exclude_list_normalised_witness :
  Forall FourDigits (filterExcludes ["SC2086"; "all"; "2086"])
  ∧ filterExcludes ["SC2086"; "all"; "2086"]
    = filterExcludes [] ++ "2086" :: filterExcludes ["all"; "2086"]
  ∧ filterExcludes ["SC2086"; "all"; "2086"]
    = filterExcludes ["SC2086"] ++ filterExcludes ["2086"].
Proof.
  destruct (exclude_list_normalised ["SC2086"; "all"; "2086"]) as (H1 & H2 & H3).
  split; [exact H1|]. split.
  - apply (H2 [] "SC2086" ["all"; "2086"] "2086" eq_refl).
    split; [apply FourDigits_2086 | by right].
  - apply (H3 ["SC2086"] "all" ["2086"] eq_refl), not_RuleEntry_all.
Defined.

End ExcludeList.

(** ** The reconciliation store *)
Section Reconciliation.
Import Editor Linter.

Lemma lookup_diagnostics_with_results f g st :
  diagnosticCollection (with_results f g st) = f (diagnosticCollection st).
Proof. reflexivity. Qed.

Lemma lookup_codeActions_with_results f g st :
  codeActionCollection (with_results f g st) = g (codeActionCollection st).
Proof. reflexivity. Qed.

Lemma setResultCollections_clear uri results st :
  results = None ∨ results = Some [] →
  setResultCollections uri results st = with_results (delete uri) (delete uri) st.
Proof. by intros [-> | ->]. Qed.

Lemma setResultCollections_replace uri results st :
  results ≠ [] →
  setResultCollections uri (Some results) st
  = with_results (insert uri (map diagnostic results)) (insert uri results) st.
Proof. by destruct results. Qed.

(** C5. Setting the results of a document to [null] or to the empty
    list removes its diagnostics and its cached code actions; setting a
    non-empty list stores exactly the diagnostics of that list and
    exactly that list, whatever was stored for the document before. *)
Theorem setResultCollections_clears_or_replaces (uri : string) (st : Provider) :
  (∀ results, results = None ∨ results = Some [] →
     diagnosticCollection (setResultCollections uri results st) !! uri = None
     ∧ codeActionCollection (setResultCollections uri results st) !! uri = None)
  ∧ (∀ results, results ≠ [] →
       diagnosticCollection (setResultCollections uri (Some results) st) !! uri
       = Some (map diagnostic results)
       ∧ codeActionCollection (setResultCollections uri (Some results) st) !! uri
         = Some results).
Proof.
  split.
  - intros results H. rewrite (setResultCollections_clear _ _ _ H).
    rewrite lookup_diagnostics_with_results, lookup_codeActions_with_results.
    by rewrite !lookup_delete_eq.
  - intros results H. rewrite (setResultCollections_replace _ _ _ H).
    rewrite lookup_diagnostics_with_results, lookup_codeActions_with_results.
    by rewrite !lookup_insert_eq.
Qed.

(** C10. Setting the results of one document leaves the diagnostics
    and the cached code actions of every other document as they were,
    and does not touch the other caches of the provider. *)
Theorem setResultCollections_frame (uri other : string)
    (results : option (list ParseResult)) (st : Provider) :
  other ≠ uri →
  diagnosticCollection (setResultCollections uri results st) !! other
  = diagnosticCollection st !! other
  ∧ codeActionCollection (setResultCollections uri results st) !! other
    = codeActionCollection st !! other
  ∧ settingsByUri (setResultCollections uri results st) = settingsByUri st
  ∧ toolStatusByPath (setResultCollections uri results st) = toolStatusByPath st
  ∧ notifiedMissingExecutable (setResultCollections uri results st)
    = notifiedMissingExecutable st.
Proof.
  intros Hne. unfold setResultCollections.
  destruct results as [[|r rs]|]; simpl;
    rewrite ?lookup_delete_ne, ?lookup_insert_ne by done; done.
Qed.

Lemma setResultCollections_clears_or_replaces_witness :
  (diagnosticCollection (setResultCollections "file:///a.sh" None Samples.provider)
     !! "file:///a.sh" = None
   ∧ codeActionCollection (setResultCollections "file:///a.sh" None Samples.provider)
       !! "file:///a.sh" = None)
  ∧ (diagnosticCollection (setResultCollections "file:///a.sh" (Some []) Samples.provider)
       !! "file:///a.sh" = None
     ∧ codeActionCollection (setResultCollections "file:///a.sh" (Some []) Samples.provider)
         !! "file:///a.sh" = None)
  ∧ (diagnosticCollection
       (setResultCollections "file:///a.sh" (Some [Samples.result]) Samples.provider)
       !! "file:///a.sh" = Some [diagnostic Samples.result]
     ∧ codeActionCollection
         (setResultCollections "file:///a.sh" (Some [Samples.result]) Samples.provider)
         !! "file:///a.sh" = Some [Samples.result]).
Proof.
  destruct (setResultCollections_clears_or_replaces "file:///a.sh" Samples.provider)
    as [Hclear Hreplace].
  split; [|split].
  - apply Hclear. by left.
  - apply Hclear. by right.
  - apply (Hreplace [Samples.result]). discriminate.
Defined.

Lemma setResultCollections_frame_witness :
  "file:///b.sh" ≠ "file:///a.sh"
  ∧ codeActionCollection (setResultCollections "file:///a.sh" None Samples.provider)
      !! "file:///b.sh"
    = codeActionCollection Samples.provider !! "file:///b.sh".
Proof.
  assert (Hne : "file:///b.sh" ≠ "file:///a.sh") by discriminate.
  split; [exact Hne|].
  exact (proj1 (proj2
    (setResultCollections_frame "file:///a.sh" "file:///b.sh" None Samples.provider Hne))).
Defined.

End Reconciliation.

(** ** The argument vector *)
Section ArgumentVector.
Import Linter Props.
Variable path_extname : string → string.
Variable outputFormat : ToolCheck.SemVer → bool → string.

Lemma exclusion_flag_args (ids : list string) (args : list string) :
  (if (0 <? length ids)%nat then args ++ ["-e"; Js.join "," ids] else args)
  = args ++ exclusion_flag ids.
Proof. destruct ids; simpl; [by rewrite app_nil_r | done]. Qed.

Lemma dialect_flag_args (ext : string) (args : list string) :
  (if bool_decide (ext = ".bash") || bool_decide (ext = ".ksh") || bool_decide (ext = ".dash")
   then args ++ ["-s"; Js.slice_from 1 ext] else args)
  = args ++ dialect_flag ext.
Proof.
  unfold dialect_flag.
  destruct (decide (ext = ".bash")) as [->|H1]; [done|].
  destruct (decide (ext = ".ksh")) as [->|H2]; [done|].
  destruct (decide (ext = ".dash")) as [->|H3]; [done|].
  rewrite !bool_decide_eq_false_2 by done. simpl. by rewrite app_nil_r.
Qed.

Lemma customArgs_args (extra args : list string) :
  (if (0 <? length extra)%nat then args ++ extra else args) = args ++ extra.
Proof. destruct extra; simpl; [by rewrite app_nil_r | done]. Qed.

Lemma runLint_args_eq textDocument settings version :
  runLint_args path_extname outputFormat textDocument settings version
  = ["-f"; outputFormat version (enableQuickFix settings)]
    ++ exclusion_flag (exclude settings)
    ++ dialect_flag (path_extname (fileName textDocument))
    ++ customArgs settings
    ++ ["-"].
Proof.
  unfold runLint_args.
  rewrite exclusion_flag_args, dialect_flag_args, customArgs_args.
  by rewrite <- !app_assoc.
Qed.

(** C4. Whenever [runLint] spawns the tool, the argument vector is, in
    order: [-f] with the output format; [-e] with the comma-joined rule
    ids, present exactly when the exclusion list is not empty; [-s] with
    the dialect when the extension of the file name is [.bash], [.ksh] or
    [.dash]; the extra arguments as configured; and [-] last. *)
Theorem runLint_argument_vector (statuses : gmap string ToolStatus)
    (textDocument : TextDocument) (settings : ShellCheckSettings)
    (command : string) (args : list string) :
  runLint_spawn path_extname outputFormat statuses textDocument settings
  = Some (command, args) →
  ∃ version excl dialect,
    statuses !! path (executable settings) = Some (Ready version)
    ∧ command = path (executable settings)
    ∧ args = ["-f"; outputFormat version (enableQuickFix settings)]
             ++ excl ++ dialect ++ customArgs settings ++ ["-"]
    ∧ (exclude settings = [] → excl = [])
    ∧ (exclude settings ≠ [] → excl = ["-e"; Js.join "," (exclude settings)])
    ∧ (path_extname (fileName textDocument) = ".bash" → dialect = ["-s"; "bash"])
    ∧ (path_extname (fileName textDocument) = ".ksh" → dialect = ["-s"; "ksh"])
    ∧ (path_extname (fileName textDocument) = ".dash" → dialect = ["-s"; "dash"])
    ∧ (path_extname (fileName textDocument) ∉ [".bash"; ".ksh"; ".dash"] → dialect = []).
Proof.
  unfold runLint_spawn.
  destruct (statuses !! path (executable settings)) as [[version|]|] eqn:E; try done.
  intros [= <- <-].
  exists version, (exclusion_flag (exclude settings)),
    (dialect_flag (path_extname (fileName textDocument))).
  split; [done|]. split; [done|]. split; [apply runLint_args_eq|].
  split; [by intros ->|].
  split; [by destruct (exclude settings)|].
  unfold dialect_flag.
  split; [by intros ->|]. split; [by intros ->|]. split; [by intros ->|].
  intros Hnot. rewrite !decide_False; [done| | |]; intros Heq; apply Hnot; rewrite Heq;
    set_solver.
Qed.

End ArgumentVector.

(** The vector for [/work/deploy.bash] with two excluded rules and one
    extra argument. *)
Lemma runLint_argument_vector_witness :
  ∃ version excl dialect,
    ({[ "shellcheck" := Linter.Ready Samples.version_0_9_0 ]} : gmap string Linter.ToolStatus)
      !! "shellcheck" = Some (Linter.Ready version)
    ∧ "shellcheck" = "shellcheck"
    ∧ ["-f"; "json1"; "-e"; "2086,2046"; "-s"; "bash"; "--external-sources"; "-"]
      = ["-f"; Samples.outputFormat version true]
        ++ excl ++ dialect ++ ["--external-sources"] ++ ["-"]
    ∧ (["2086"; "2046"] = [] → excl = [])
    ∧ (["2086"; "2046"] ≠ [] → excl = ["-e"; Js.join "," ["2086"; "2046"]])
    ∧ (".bash" = ".bash" → dialect = ["-s"; "bash"])
    ∧ (".bash" = ".ksh" → dialect = ["-s"; "ksh"])
    ∧ (".bash" = ".dash" → dialect = ["-s"; "dash"])
    ∧ (".bash" ∉ [".bash"; ".ksh"; ".dash"] → dialect = []).
Proof.
  apply (runLint_argument_vector Samples.extname Samples.outputFormat
           {[ "shellcheck" := Linter.Ready Samples.version_0_9_0 ]}
           Samples.document Samples.settings).
  vm_compute. reflexivity.
Defined.

(** ** Searching in strings *)
Section Occurrences.
Import Props.

Lemma startsWith_at_iff text phrase i :
  OccursAt text phrase i
  ↔ i <= String.length text ∧ Js.startsWith (Js.slice_from i text) phrase = true.
Proof.
  split.
  - intros (pre & post & -> & <-). split.
    + rewrite length_app_string. lia.
    + rewrite slice_from_app. apply startsWith_app.
  - intros [Hi H]. apply startsWith_split in H.
    exists (Js.slice_to i text), (Js.slice_from (String.length phrase) (Js.slice_from i text)).
    split.
    + by rewrite <- H, slice_to_from.
    + clear H. revert text Hi. induction i as [|i IH]; intros [|c text] Hi; simpl in *;
        try done; try lia.
      f_equal. apply IH. lia.
Qed.

Lemma indexOf_first text phrase i :
  Js.indexOf text phrase = Some i → FirstOccurrence text phrase i.
Proof.
  revert i. induction text as [|c text IH]; intros i; simpl.
  - destruct (Js.startsWith "" phrase) eqn:E; [|done].
    intros [= <-]. split; [|intros j Hj; lia].
    by apply startsWith_at_iff.
  - destruct (Js.startsWith (String c text) phrase) eqn:E.
    + intros [= <-]. split; [|intros j Hj; lia].
      apply startsWith_at_iff. simpl. split; [lia | done].
    + destruct (Js.indexOf text phrase) as [k|] eqn:Ek; [|done].
      intros [= <-]. destruct (IH k eq_refl) as [Hk Hmin]. split.
      * apply startsWith_at_iff in Hk as [Hk1 Hk2].
        apply startsWith_at_iff. simpl. split; [lia | done].
      * intros [|j] Hj [Hj1 Hj2]%startsWith_at_iff.
        -- simpl in Hj2. congruence.
        -- apply (Hmin j); [lia|]. apply startsWith_at_iff. simpl in *. split; [lia | done].
Qed.

Lemma indexOf_none text phrase i :
  Js.indexOf text phrase = None → ¬ OccursAt text phrase i.
Proof.
  revert i. induction text as [|c text IH]; intros i; simpl.
  - destruct (Js.startsWith "" phrase) eqn:E; [done|].
    intros _ [Hi1 Hi2]%startsWith_at_iff. simpl in Hi1.
    assert (i = 0) as -> by lia. simpl in Hi2. congruence.
  - destruct (Js.startsWith (String c text) phrase) eqn:E; [done|].
    destruct (Js.indexOf text phrase) as [k|] eqn:Ek; [done|].
    intros _ [Hi1 Hi2]%startsWith_at_iff. destruct i as [|i].
    + simpl in Hi2. congruence.
    + apply (IH i eq_refl). apply startsWith_at_iff. simpl in *. split; [lia | done].
Qed.

Lemma includes_spec text phrase :
  Js.includes text phrase = true ↔ Contains text phrase.
Proof.
  unfold Js.includes. destruct (Js.indexOf text phrase) as [i|] eqn:E.
  - split; [|done]. intros _.
    destruct (indexOf_first _ _ _ E) as [(pre & post & -> & _) _]. by exists pre, post.
  - split; [done|]. intros (pre & post & H).
    destruct (indexOf_none text phrase (String.length pre) E). by exists pre, post.
Qed.

Lemma FirstOccurrence_unique text phrase i j :
  FirstOccurrence text phrase i → FirstOccurrence text phrase j → i = j.
Proof.
  intros [Hi Hmi] [Hj Hmj].
  destruct (Nat.lt_trichotomy i j) as [H|[H|H]]; [|done|].
  - by destruct (Hmj i H).
  - by destruct (Hmi j H).
Qed.

End Occurrences.

(** ** Classification of a failed invocation *)
Section FailureClassification.
Import Thrown Linter Props.

Lemma is_missing_code_spec f :
  is_missing_code (string_or_undefined f) = true ↔ f = Str "ENOENT".
Proof.
  destruct f as [|c|n]; simpl; try done.
  unfold missingCodes. split.
  - intros [_ H]%andb_true_iff. apply bool_decide_eq_true in H.
    apply elem_of_singleton in H. by subst.
  - intros [= ->]. simpl. apply bool_decide_eq_true. by apply elem_of_singleton.
Qed.

Lemma strict_eq_num_spec f n : strict_eq_num f n = true ↔ f = Num n.
Proof.
  destruct f as [|c|m]; simpl; try done.
  rewrite Z.eqb_eq. split; congruence.
Qed.

Lemma mentions_missing_spec text :
  mentions_missing text = true ↔ ∃ phrase, phrase ∈ missing_phrases ∧ Contains text phrase.
Proof.
  unfold mentions_missing, missing_phrases.
  rewrite !orb_true_iff, !includes_spec. split.
  - intros [[[H|H]|H]|H]; eexists; (split; [|exact H]); set_solver.
  - intros (phrase & Hin & H).
    rewrite !elem_of_cons, elem_of_nil in Hin.
    destruct Hin as [->|[->|[->|[->|[]]]]]; tauto.
Qed.

Lemma not_Contains_empty phrase :
  phrase ∈ missing_phrases → ¬ Contains "" phrase.
Proof.
  intros Hin (pre & post & H).
  assert (String.length phrase = 0) as Hlen.
  { apply (f_equal String.length) in H.
    rewrite !length_app_string in H. simpl in H. lia. }
  unfold missing_phrases in Hin. rewrite !elem_of_cons, elem_of_nil in Hin.
  destruct Hin as [->|[->|[->|[->|[]]]]]; simpl in Hlen; lia.
Qed.

Lemma haystacks_spec (fields : list field) :
  existsb mentions_missing
    (map Js.toLowerCase
       (filter (λ value, nonempty value = true) (omap string_or_undefined fields))) = true
  ↔ ∃ text phrase, Str text ∈ fields ∧ phrase ∈ missing_phrases
                   ∧ Contains (Js.toLowerCase text) phrase.
Proof.
  rewrite existsb_exists. split.
  - intros (low & Hin & Hm). apply in_map_iff in Hin as (text & <- & Hin).
    apply list_elem_of_In, list_elem_of_filter in Hin as [_ Hin].
    apply list_elem_of_omap in Hin as (f & Hf & Hs).
    destruct f as [|s|n]; simplify_eq/=.
    apply mentions_missing_spec in Hm as (phrase & Hp & Hc). by exists text, phrase.
  - intros (text & phrase & Hin & Hp & Hc). exists (Js.toLowerCase text). split.
    + apply in_map_iff. exists text. split; [done|].
      apply list_elem_of_In, list_elem_of_filter. split.
      * destruct text; [|done]. by destruct (not_Contains_empty phrase Hp).
      * apply list_elem_of_omap. by exists (Str text).
    + apply mentions_missing_spec. by exists phrase.
Qed.

Lemma errorLooksLikeMissingExecutable_spec (b : bool) (e : props) :
  errorLooksLikeMissingExecutable (Object b e) = true ↔ SignalsMissingExecutable e.
Proof.
  unfold errorLooksLikeMissingExecutable, SignalsMissingExecutable.
  fold (reported_exit e). fold (captured e).
  pose proof (is_missing_code_spec (code e)) as Hc.
  pose proof (is_missing_code_spec (errno e)) as He.
  pose proof (strict_eq_num_spec (reported_exit e) 127) as H1.
  pose proof (strict_eq_num_spec (reported_exit e) 9009) as H2.
  pose proof (haystacks_spec (captured e)) as Hh.
  destruct (is_missing_code (string_or_undefined (code e))); [tauto|].
  destruct (is_missing_code (string_or_undefined (errno e))); [tauto|].
  simpl.
  destruct (strict_eq_num (reported_exit e) 127); [tauto|].
  destruct (strict_eq_num (reported_exit e) 9009); [tauto|].
  simpl. rewrite Hh. intuition congruence.
Qed.

(** Only [Error] instances are ever classified as a missing executable. *)
Lemma toolStatusByError_not_an_Error (error : value) :
  instanceof_Error error = false → toolStatusByError error = Unavailable executionFailed.
Proof. unfold toolStatusByError. by intros ->. Qed.

(** C6. For every [Error] thrown while the tool is invoked, the status
    is [Unavailable executableNotFound] exactly when the error signals a
    missing executable (an [ENOENT] code, exit status 127 or 9009, or a
    captured text mentioning one of the "not found" phrases), and
    [Unavailable executionFailed] in every other case. *)
Theorem toolStatusByError_classifies (e : props) :
  (toolStatusByError (Object true e) = Unavailable executableNotFound
   ↔ SignalsMissingExecutable e)
  ∧ (toolStatusByError (Object true e) = Unavailable executionFailed
     ↔ ¬ SignalsMissingExecutable e).
Proof.
  pose proof (errorLooksLikeMissingExecutable_spec true e) as H.
  unfold toolStatusByError. simpl instanceof_Error.
  destruct (errorLooksLikeMissingExecutable (Object true e)); simpl.
  - assert (SignalsMissingExecutable e) as Hs by by apply H.
    split; split; intros; done.
  - assert (¬ SignalsMissingExecutable e) as Hs by (intros Hs; by apply H in Hs).
    split; split; intros; done.
Qed.

End FailureClassification.

(** The error of a spawn that finds no executable is classified as a
    missing executable. *)
Lemma toolStatusByError_classifies_witness :
  Linter.toolStatusByError Samples.enoent = Linter.Unavailable Linter.executableNotFound.
Proof.
  apply (toolStatusByError_classifies
           {| Thrown.code := Thrown.Str "ENOENT"; Thrown.errno := Thrown.Num (-2);
              Thrown.exitCode := Thrown.Undefined;
              Thrown.stderr := Thrown.Str ""; Thrown.stdout := Thrown.Str "";
              Thrown.shortMessage := Thrown.Str "Command failed with ENOENT: shellcheck -V";
              Thrown.originalMessage := Thrown.Str "spawn shellcheck ENOENT";
              Thrown.message := Thrown.Str "Command failed with ENOENT: shellcheck -V" |}).
  left. reflexivity.
Defined.

(** ** The version probe *)
Section VersionProbe.
Import Thrown ToolCheck Linter Props.
Variable semver_parse : string → option SemVer.

Lemma trimStart_spaces ws s : AllChars IsSpace ws → Js.trimStart (ws +:+ s) = Js.trimStart s.
Proof.
  induction ws as [|c ws IH]; [done|].
  intros [Hc Hws]. rewrite app_cons. simpl. rewrite Hc. by apply IH.
Qed.

Lemma trimStart_token tok tail :
  AllChars (λ c, ¬ IsSpace c) tok → tok ≠ "" → Js.trimStart (tok +:+ tail) = tok +:+ tail.
Proof.
  destruct tok as [|c tok]; [done|]. intros [Hc _] _.
  rewrite app_cons. simpl. unfold IsSpace in Hc.
  destruct (Js.is_space c); [by destruct Hc | done].
Qed.

Lemma split_space_nonempty s : Js.split_space s ≠ [].
Proof.
  induction s as [|c s IH]; [done|]. simpl.
  destruct (Js.is_space c); [done|]. by destruct (Js.split_space s).
Qed.

Lemma first_field_token tok tail :
  AllChars (λ c, ¬ IsSpace c) tok →
  (tail = "" ∨ ∃ c t, tail = String c t ∧ IsSpace c) →
  Js.first_field (Js.split_space (Js.trimEnd (tok +:+ tail))) = tok.
Proof.
  intros Htok Htail. induction tok as [|a tok IH].
  - rewrite app_nil_l. destruct Htail as [->|(c & t & -> & Hc)]; [done|].
    simpl. rewrite Hc. simpl. destruct (Js.all_space t); [done|].
    simpl. by rewrite Hc.
  - destruct Htok as [Ha Htok]. rewrite app_cons. simpl.
    destruct (Js.is_space a) eqn:Ea; [done|]. simpl. rewrite Ea.
    specialize (IH Htok).
    pose proof (split_space_nonempty (Js.trimEnd (tok +:+ tail))) as Hne.
    destruct (Js.split_space (Js.trimEnd (tok +:+ tail))) as [|f fs]; [done|].
    simpl in *. by rewrite IH.
Qed.

Lemma token_of_remainder rest tok :
  FirstToken rest tok → Js.first_field (Js.split_space (Js.trim rest)) = tok.
Proof.
  intros (ws & tail & -> & Hws & Htok & Htail). unfold Js.trim.
  rewrite (trimStart_spaces ws _ Hws).
  destruct Htail as [->|[Hne Htail]].
  - destruct (decide (tok = "")) as [->|Hne]; [done|].
    rewrite (trimStart_token tok "" Htok Hne). apply first_field_token; [done | by left].
  - rewrite (trimStart_token tok tail Htok Hne). apply first_field_token; [done | by right].
Qed.

Lemma normalized_of_token tok norm :
  StripV tok norm → (if Js.startsWith tok "v" then Js.slice_from 1 tok else tok) = norm.
Proof.
  intros [->|[-> Hno]].
  - by rewrite (startsWith_app "v" norm).
  - destruct (Js.startsWith tok "v") eqn:E; [|done].
    apply startsWith_split in E. by destruct (Hno _ E).
Qed.

Lemma indexOf_of_first text phrase i :
  FirstOccurrence text phrase i → Js.indexOf text phrase = Some i.
Proof.
  intros H. destruct (Js.indexOf text phrase) as [j|] eqn:E.
  - f_equal. eapply FirstOccurrence_unique; [by apply indexOf_first | done].
  - destruct (indexOf_none text phrase i E). apply H.
Qed.

Lemma parseToolVersion_found stdout i tok norm :
  FirstOccurrence (Js.toLowerCase stdout) "version:" i →
  FirstToken (Js.slice_from (i + 8) stdout) tok →
  StripV tok norm →
  parseToolVersion semver_parse stdout
  = match semver_parse norm with
    | Some version => Returns version
    | None => Throws (new_Error ("Unable to parse ShellCheck version: " +:+ tok))
    end.
Proof.
  intros Hi Htok Hnorm. unfold parseToolVersion.
  rewrite (indexOf_of_first _ _ _ Hi).
  change (String.length "version:") with 8.
  rewrite (token_of_remainder _ _ Htok).
  by rewrite (normalized_of_token _ _ Hnorm).
Qed.

Lemma parseToolVersion_no_marker stdout :
  (∀ i, ¬ OccursAt (Js.toLowerCase stdout) "version:" i) →
  parseToolVersion semver_parse stdout
  = Throws (new_Error ("Unexpected response from ShellCheck: " +:+ stdout)).
Proof.
  intros H. unfold parseToolVersion.
  destruct (Js.indexOf (Js.toLowerCase stdout) "version:") as [i|] eqn:E; [|done].
  destruct (H i). by apply indexOf_first in E as [E _].
Qed.

End VersionProbe.

(** ** The cached tool status after a probe *)
Section ProbeStatus.
Import Thrown ToolCheck Linter Props.

Lemma showShellCheckError_toolStatus err p selected st :
  toolStatusByPath (fst (showShellCheckError err p selected st)) = toolStatusByPath st.
Proof.
  unfold showShellCheckError, showShellCheckError_answered.
  destruct (showShellCheckError_shown err p st) as [[message items]|]; [|done].
  destruct (errorLooksLikeMissingExecutable err && nonempty p);
    repeat case_bool_decide; done.
Qed.

Lemma toolStatusByError_unavailable error : ∃ r, toolStatusByError error = Unavailable r.
Proof. unfold toolStatusByError. destruct (_ && _); eauto. Qed.

Lemma updateConfiguration_probe_failed uri settings error selected st :
  enabled settings = true →
  toolStatusByPath st !! path (executable settings) = None →
  toolStatusByPath (fst (updateConfiguration uri settings (Throws error) selected st))
    !! path (executable settings) = Some (toolStatusByError error).
Proof.
  intros Hen Hnone. unfold updateConfiguration. rewrite Hen. simpl.
  rewrite Hnone. rewrite bool_decide_eq_false_2 by (by intros [? ?]). simpl.
  destruct (showShellCheckError _ _ _ _) as [st' fx]. simpl.
  by rewrite lookup_insert_eq.
Qed.

Lemma updateConfiguration_probe_succeeded uri settings version selected st :
  enabled settings = true →
  toolStatusByPath st !! path (executable settings) = None →
  toolStatusByPath (fst (updateConfiguration uri settings (Returns version) selected st))
    !! path (executable settings) = Some (Ready version).
Proof.
  intros Hen Hnone. unfold updateConfiguration. rewrite Hen. simpl.
  rewrite Hnone. rewrite bool_decide_eq_false_2 by (by intros [? ?]). simpl.
  by rewrite lookup_insert_eq.
Qed.

End ProbeStatus.

Section VersionProbeClaim.
Import Thrown ToolCheck Linter Props.
Variable semver_parse : string → option SemVer.

Lemma ProbeFails_of_throw stdout e :
  getToolVersion semver_parse (Resolved stdout) = Throws e → ProbeFails semver_parse stdout.
Proof.
  intros He. split; [by exists e|].
  intros uri settings selected st Hen Hnone. unfold status_after_probe. rewrite He.
  rewrite (updateConfiguration_probe_failed _ _ _ _ _ Hen Hnone).
  destruct (toolStatusByError_unavailable e) as [r ->]. by exists r.
Qed.

(** Every text has a first token, and every token a normal form. *)
Lemma FirstToken_exists rest : ∃ tok, FirstToken rest tok.
Proof.
  induction rest as [|c rest (tok & ws & tail & Hrest & Hws & Htok & Htail)].
  - exists "", "", "". repeat split; by left.
  - destruct (Js.is_space c) eqn:Ec.
    + exists tok, (String c ws), tail. rewrite app_cons, <- Hrest. by repeat split.
    + destruct ws as [|w ws].
      * exists (String c tok), "", tail. rewrite app_nil_l in *. rewrite app_cons, <- Hrest.
        repeat split; [by unfold IsSpace; rewrite Ec | done |].
        destruct Htail as [->|[_ H]]; [by left | by right].
      * exists (String c ""), "", (String w ws +:+ tok +:+ tail).
        rewrite app_nil_l, app_cons, app_nil_l, <- Hrest.
        repeat split; [by unfold IsSpace; rewrite Ec|].
        right. split; [done|]. exists w, (ws +:+ tok +:+ tail). split; [done | apply Hws].
Qed.

Lemma StripV_exists tok : ∃ norm, StripV tok norm.
Proof.
  destruct (Js.startsWith tok "v") eqn:E.
  - apply startsWith_split in E. eexists. by left.
  - exists tok. right. split; [done|]. intros r ->. by rewrite (startsWith_app "v" r) in E.
Qed.

(** C7. On an output of ASCII characters, the probe returns the semantic
    version read from the first whitespace-delimited token after the first
    [version:] (found in any letter case), once an optional leading [v] is
    removed from it.  When there is no [version:], or when that token is
    not a semantic version, the probe throws and the status cached for the
    path is not [Ready]. *)
Theorem version_probe_reads_first_token (stdout : string) :
  AllChars IsAscii stdout →
  (∀ i tok norm version,
     FirstOccurrence (Js.toLowerCase stdout) "version:" i →
     FirstToken (Js.slice_from (i + 8) stdout) tok →
     StripV tok norm →
     semver_parse norm = Some version →
     getToolVersion semver_parse (Resolved stdout) = Returns version
     ∧ ∀ uri settings selected st,
         enabled settings = true →
         toolStatusByPath st !! path (executable settings) = None →
         status_after_probe semver_parse stdout uri settings selected st
         = Some (Ready version))
  ∧ (∀ i tok norm,
       FirstOccurrence (Js.toLowerCase stdout) "version:" i →
       FirstToken (Js.slice_from (i + 8) stdout) tok →
       StripV tok norm →
       semver_parse norm = None →
       ProbeFails semver_parse stdout)
  ∧ ((∀ i, ¬ OccursAt (Js.toLowerCase stdout) "version:" i) →
     ProbeFails semver_parse stdout).
Proof.
  intros _. split; [|split].
  - intros i tok norm version Hi Htok Hnorm Hv.
    assert (getToolVersion semver_parse (Resolved stdout) = Returns version) as Hget.
    { simpl. by rewrite (parseToolVersion_found _ _ _ _ _ Hi Htok Hnorm), Hv. }
    split; [done|]. intros uri settings selected st Hen Hnone.
    unfold status_after_probe. rewrite Hget.
    by apply updateConfiguration_probe_succeeded.
  - intros i tok norm Hi Htok Hnorm Hv.
    eapply ProbeFails_of_throw. simpl.
    by rewrite (parseToolVersion_found _ _ _ _ _ Hi Htok Hnorm), Hv.
  - intros Hno. eapply ProbeFails_of_throw. simpl.
    by apply parseToolVersion_no_marker.
Qed.

End VersionProbeClaim.

(** The probe on the output of [shellcheck -V] for version 0.9.0. *)
Lemma version_probe_reads_first_token_witness :
  ToolCheck.getToolVersion ToolCheck.plain_semver_parse
    (ToolCheck.Resolved Samples.version_output) = Thrown.Returns Samples.version_0_9_0
  ∧ Props.status_after_probe ToolCheck.plain_semver_parse Samples.version_output
      "file:///work/deploy.bash" Samples.settings None Linter.new_Provider
    = Some (Linter.Ready Samples.version_0_9_0).
Proof.
  assert (Props.AllChars Props.IsAscii Samples.version_output) as Hascii
    by (vm_compute; repeat split; lia).
  destruct (proj1 (version_probe_reads_first_token ToolCheck.plain_semver_parse
                     Samples.version_output Hascii)
              40 "0.9.0" "0.9.0" Samples.version_0_9_0) as [Hget Hstatus].
  - apply indexOf_first. vm_compute. reflexivity.
  - exists " ", (String Editor.LF "license: GNU General Public License, version 3").
    split; [vm_compute; reflexivity|].
    split; [vm_compute; tauto|].
    split; [vm_compute; intuition discriminate|].
    right. split; [discriminate|]. eexists _, _. split; [reflexivity | vm_compute; reflexivity].
  - right. split; [reflexivity|]. intros r H. vm_compute in H. discriminate H.
  - vm_compute. reflexivity.
  - split; [exact Hget|]. apply Hstatus; [reflexivity | vm_compute; reflexivity].
Defined.

(** ** The suppression command *)
Section Suppression.
Import Thrown Editor Linter Props.

Lemma firstNonWhitespace_split indent rest :
  AllChars IsSpace indent →
  (rest = "" ∨ ∃ c t, rest = String c t ∧ ¬ IsSpace c) →
  firstNonWhitespaceCharacterIndex (indent +:+ rest) = String.length indent.
Proof.
  intros Hind Hrest. induction indent as [|a indent IH].
  - rewrite app_nil_l. destruct Hrest as [->|(c & t & -> & Hc)]; [done|].
    simpl. unfold IsSpace in Hc. by destruct (Js.is_space c).
  - destruct Hind as [Ha Hind]. rewrite app_cons. simpl. rewrite Ha. f_equal. by apply IH.
Qed.

Lemma leading_whitespace_exists text :
  ∃ indent rest, text = indent +:+ rest ∧ AllChars IsSpace indent
                 ∧ (rest = "" ∨ ∃ c t, rest = String c t ∧ ¬ IsSpace c).
Proof.
  induction text as [|c text (indent & rest & -> & Hind & Hrest)].
  - exists "", "". repeat split. by left.
  - destruct (Js.is_space c) eqn:Ec.
    + exists (String c indent), rest. by repeat split.
    + exists "", (String c (indent +:+ rest)). repeat split.
      right. exists c, (indent +:+ rest). split; [done|]. unfold IsSpace. by rewrite Ec.
Qed.

Lemma AllChars_app P a b : AllChars P (a +:+ b) ↔ AllChars P a ∧ AllChars P b.
Proof.
  induction a as [|c a IH]; [rewrite app_nil_l; simpl; tauto|].
  rewrite app_cons. simpl. tauto.
Qed.

Lemma split_lines_nonempty s : split_lines s ≠ [].
Proof.
  induction s as [|c s IH]; [done|]. simpl.
  destruct (decide (c = LF)); [done|]. by destruct (split_lines s).
Qed.

Lemma split_lines_one s : AllChars NotLF s → split_lines s = [s].
Proof.
  induction s as [|c s IH]; [done|]. intros [Hc Hs]. simpl.
  rewrite decide_False by done. by rewrite (IH Hs).
Qed.

Lemma split_lines_break a b :
  AllChars NotLF a → split_lines (a +:+ String LF b) = a :: split_lines b.
Proof.
  induction a as [|c a IH].
  - intros _. rewrite app_nil_l. cbn [split_lines]. by rewrite decide_True.
  - intros [Hc Ha]. rewrite app_cons. simpl.
    rewrite decide_False by done. by rewrite (IH Ha).
Qed.

Lemma disableCheckForLine_edit textDocument ruleId range indent rest :
  lines textDocument !! line (start range) = Some (indent +:+ rest) →
  AllChars IsSpace indent →
  (rest = "" ∨ ∃ c t, rest = String c t ∧ ¬ IsSpace c) →
  disableCheckForLine true textDocument ruleId range
  = Returns (Some (uri textDocument,
                   [TextEdit_insert {| line := line (start range);
                                       character := String.length indent |}
                      ("# shellcheck disable=" +:+ ruleId +:+ String LF indent)])).
Proof.
  intros Hline Hind Hrest. unfold disableCheckForLine. simpl. rewrite Hline.
  rewrite (firstNonWhitespace_split _ _ Hind Hrest). simpl.
  by rewrite slice_to_app.
Qed.

(** C8. For a document the linter handles, the suppression command
    inserts [# shellcheck disable=<RULE>], a line break and the leading
    whitespace of the target line at the first non-blank column of that
    line.  The document then has a new line immediately above the target
    line, made of that leading whitespace and the comment, and the target
    line itself is unchanged, as are all other lines. *)
Theorem disableCheckForLine_inserts_above (textDocument : TextDocument)
    (ruleId : string) (range : Range) (indent rest : string) :
  lines textDocument !! line (start range) = Some (indent +:+ rest) →
  AllChars IsSpace indent →
  (rest = "" ∨ ∃ c t, rest = String c t ∧ ¬ IsSpace c) →
  AllChars NotLF (indent +:+ rest) →
  AllChars NotLF ruleId →
  disableCheckForLine true textDocument ruleId range
  = Returns (Some (uri textDocument,
                   [TextEdit_insert {| line := line (start range);
                                       character := String.length indent |}
                      ("# shellcheck disable=" +:+ ruleId +:+ String LF indent)]))
  ∧ lines_after textDocument (disableCheckForLine true textDocument ruleId range)
    = take (line (start range)) (lines textDocument)
      ++ [indent +:+ "# shellcheck disable=" +:+ ruleId; indent +:+ rest]
      ++ drop (S (line (start range))) (lines textDocument).
Proof.
  intros Hline Hind Hrest Htext Hrule.
  rewrite (disableCheckForLine_edit _ _ _ _ _ Hline Hind Hrest).
  split; [done|]. unfold lines_after. simpl. unfold apply_insert. simpl. rewrite Hline.
  rewrite slice_to_app, slice_from_app.
  do 2 f_equal.
  apply AllChars_app in Htext as [Hi Hr].
  rewrite !app_assoc_string.
  rewrite <- (app_assoc_string indent "# shellcheck disable=" (ruleId +:+ _)).
  rewrite <- (app_assoc_string (indent +:+ "# shellcheck disable=") ruleId).
  rewrite (app_cons LF indent rest), split_lines_break.
  - rewrite split_lines_one; [by rewrite !app_assoc_string|].
    apply AllChars_app. done.
  - apply AllChars_app. split; [|done]. apply AllChars_app. split; [done|].
    vm_compute. intuition discriminate.
Qed.

End Suppression.

(** The command for [SC2086] on the line [    echo $x], which is indented
    with four spaces. *)
Lemma disableCheckForLine_inserts_above_witness :
  Linter.disableCheckForLine true Samples.document "SC2086"
    {| Editor.start := {| Editor.line := 1; Editor.character := 9 |};
       Editor.end_ := {| Editor.line := 1; Editor.character := 11 |} |}
  = Thrown.Returns
      (Some ("file:///work/deploy.bash",
             [Editor.TextEdit_insert {| Editor.line := 1; Editor.character := 4 |}
                ("# shellcheck disable=SC2086" +:+ String Editor.LF "    ")]))
  ∧ Linter.lines_after Samples.document
      (Linter.disableCheckForLine true Samples.document "SC2086"
         {| Editor.start := {| Editor.line := 1; Editor.character := 9 |};
            Editor.end_ := {| Editor.line := 1; Editor.character := 11 |} |})
    = ["if true; then"; "    # shellcheck disable=SC2086"; "    echo $x"; "fi"].
Proof.
  apply (disableCheckForLine_inserts_above Samples.document "SC2086"
           {| Editor.start := {| Editor.line := 1; Editor.character := 9 |};
              Editor.end_ := {| Editor.line := 1; Editor.character := 11 |} |}
           "    " "echo $x").
  - reflexivity.
  - vm_compute. tauto.
  - right. exists "e"%char, "cho $x". split; [reflexivity|]. vm_compute. discriminate.
  - vm_compute. intuition discriminate.
  - vm_compute. intuition discriminate.
Defined.

(** ** Fix-all aggregation *)
Section FixAllAggregation.
Import Editor FixAll Props.

(** What the inner loop of [mergeEdits] computes: the edits already in
    the target, followed by those edits of the source that no edit of the
    target contains. *)
Lemma mergeEdits_inner_filter existing merged edits :
  mergeEdits_inner existing merged edits
  = merged ++ List.filter
                (λ e, negb (existsb (λ existingEdit, contains (range existingEdit) (range e))
                              existing))
                edits.
Proof.
  revert merged. induction edits as [|e edits IH]; intros merged; simpl.
  - by rewrite app_nil_r.
  - destruct (negb _); rewrite IH; [by rewrite <- app_assoc | done].
Qed.

(** A candidate that only partly overlaps the accepted edits is kept. *)
Lemma mergeEdits_inner_keeps_partial_overlap existing e :
  existsb (λ existingEdit, contains (range existingEdit) (range e)) existing = false →
  mergeEdits_inner existing existing [e] = existing ++ [e].
Proof. intros H. rewrite mergeEdits_inner_filter. simpl. by rewrite H. Qed.

(** C1. On two cached fixes whose ranges overlap without one containing
    the other, the aggregated fix-all edit keeps both edits, so it is not
    free of overlapping ranges: [mergeEdits] drops a candidate only when an
    edit accepted from an earlier action contains its whole range.  The
    first edit is held twice, since the merged list, which starts with the
    edits already held, is added behind them. *)
Theorem fix_all_keeps_partly_overlapping_edits :
  ∃ fixAll e1 e2,
    buildFixAllAction Samples.overlapping_results = Some fixAll
    ∧ edit fixAll = Some [("file:///a.sh", [e1; e1; e2])]
    ∧ range e1 = Samples.columns 0 5
    ∧ range e2 = Samples.columns 3 8
    ∧ overlaps (range e1) (range e2) = true
    ∧ ¬ NoOverlap [e1; e2]
    ∧ ¬ NoOverlap [e1; e1; e2].
Proof.
  eexists _, _, _. split; [vm_compute; reflexivity|].
  split; [reflexivity|]. split; [reflexivity|]. split; [reflexivity|].
  split; [reflexivity|]. split.
  - intros H. specialize (H 0 1 _ _ ltac:(done) eq_refl eq_refl). vm_compute in H. done.
  - intros H. specialize (H 1 2 _ _ ltac:(done) eq_refl eq_refl). vm_compute in H. done.
Qed.

End FixAllAggregation.

(** ** The missing-executable notification *)
Section MissingExecutableNotice.
Import Thrown Linter Props.

Lemma failed_message_differs x : "Failed to run shellcheck: " +:+ x ≠ notFoundMessage.
Proof. intros H. vm_compute in H. discriminate H. Qed.

Lemma notFound_count_cons_other fx rest :
  is_notFound fx = false → notFound_count (fx :: rest) = notFound_count rest.
Proof.
  intros H. unfold notFound_count. rewrite filter_cons.
  destruct (decide (is_notFound fx = true)); [congruence | done].
Qed.

Lemma notFound_count_cons_notFound fx rest :
  is_notFound fx = true → notFound_count (fx :: rest) = S (notFound_count rest).
Proof.
  intros H. unfold notFound_count. rewrite filter_cons.
  destruct (decide (is_notFound fx = true)); [done | congruence].
Qed.

Lemma is_notFound_failed x y :
  is_notFound (ShowErrorMessage ("Failed to run shellcheck: [" +:+ x +:+ "] " +:+ y) []) = false.
Proof.
  apply bool_decide_eq_false_2.
  apply (failed_message_differs ("[" +:+ x +:+ "] " +:+ y)).
Qed.

Lemma is_notFound_notFound items :
  is_notFound (ShowErrorMessage notFoundMessage items) = true.
Proof. by apply bool_decide_eq_true_2. Qed.

Ltac count_notFound :=
  repeat first
    [ rewrite notFound_count_cons_notFound by apply is_notFound_notFound
    | rewrite notFound_count_cons_other
        by first [ apply is_notFound_failed | reflexivity ] ];
  change (notFound_count []) with 0.

Lemma showShellCheckError_notice err p selected st :
  notifiedMissingExecutable st ⊆ notifiedMissingExecutable (fst (showShellCheckError err p selected st))
  ∧ notFound_count (snd (showShellCheckError err p selected st)) <= 1
  ∧ (notFound_count (snd (showShellCheckError err p selected st)) = 1 →
     nonempty p = true →
     (p ∉ notifiedMissingExecutable st)
     ∧ (p ∈ notifiedMissingExecutable (fst (showShellCheckError err p selected st)))).
Proof.
  unfold showShellCheckError, showShellCheckError_shown, showShellCheckError_answered.
  destruct (errorLooksLikeMissingExecutable err) eqn:Hm;
    destruct (nonempty p) eqn:Hp;
    destruct (bool_decide (p ∈ notifiedMissingExecutable st)) eqn:Hin;
    destruct err as [|[|] e]; simpl;
    destruct (bool_decide (selected = Some "Configure Path"));
    try destruct (bool_decide (selected = Some "Installation Guide"));
    simpl; count_notFound;
    try apply bool_decide_eq_false in Hin;
    (split; [set_solver|]); (split; [lia|]); intros H1 H2; try lia; try done;
    split; set_solver.
Qed.

Lemma showShellCheckError_first e p selected st :
  SignalsMissingExecutable e →
  nonempty p = true →
  p ∉ notifiedMissingExecutable st →
  notFound_count (snd (showShellCheckError (Object true e) p selected st)) = 1
  ∧ p ∈ notifiedMissingExecutable (fst (showShellCheckError (Object true e) p selected st)).
Proof.
  intros Hs Hp Hin. apply (errorLooksLikeMissingExecutable_spec true) in Hs.
  unfold showShellCheckError, showShellCheckError_shown, showShellCheckError_answered.
  rewrite Hs, Hp.
  rewrite (bool_decide_eq_false_2 _ Hin). simpl.
  destruct (bool_decide (selected = Some "Configure Path"));
    try destruct (bool_decide (selected = Some "Installation Guide"));
    simpl; count_notFound; (split; [done | set_solver]).
Qed.

Lemma step_notice ev st :
  notifiedMissingExecutable st ⊆ notifiedMissingExecutable (fst (step ev st))
  ∧ notFound_count (snd (step ev st)) <= 1
  ∧ ∀ p, failing_path ev = Some p →
         notFound_count (snd (step ev st)) = 1 →
         nonempty p = true →
         (p ∉ notifiedMissingExecutable st)
         ∧ (p ∈ notifiedMissingExecutable (fst (step ev st))).
Proof.
  destruct ev as [affects|uri|uri settings probe selected|uri results|error q selected];
    simpl.
  - split; [by destruct affects|]. split; [by change (notFound_count []) with 0; lia|].
    intros p [=].
  - split; [done|]. split; [by change (notFound_count []) with 0; lia|]. intros p [=].
  - unfold updateConfiguration.
    set (st2 := setResultCollections uri None (with_settingsByUri (insert uri settings) st)).
    assert (notifiedMissingExecutable st2 = notifiedMissingExecutable st) as Hsame by done.
    destruct (enabled settings && _); simpl.
    + destruct probe as [version|error]; simpl.
      * split; [done|].
        split; [destruct (bundled _); count_notFound; lia|].
        intros p _ H. destruct (bundled _); revert H; count_notFound; lia.
      * pose proof (showShellCheckError_notice error (path (executable settings)) selected st2)
          as (H1 & H2 & H3).
        destruct (showShellCheckError _ _ _ st2) as [st' fx]. simpl in *.
        split; [done|]. split; [done|].
        intros p [= <-]. apply H3.
    + split; [done|]. split; [by change (notFound_count []) with 0; lia|].
      intros p _ H. change (notFound_count []) with 0 in H. lia.
  - split; [by destruct results as [[|? ?]|]|].
    split; [by change (notFound_count []) with 0; lia|]. intros p [=].
  - unfold handleShellCheckExecutionError.
    pose proof (showShellCheckError_notice error q selected st) as (H1 & H2 & H3).
    destruct (showShellCheckError _ _ _ st) as [st' fx]. simpl in *.
    split; [done|]. split; [done|]. intros p [= <-]. apply H3.
Qed.

Lemma notFound_shown_notified p evs st :
  nonempty p = true →
  p ∈ notifiedMissingExecutable st →
  notFound_shown p evs st = 0.
Proof.
  intros Hp. revert st. induction evs as [|ev evs IH]; intros st Hin; [done|].
  simpl. destruct (step_notice ev st) as (Hmono & Hle & Hnew).
  rewrite (IH (fst (step ev st))) by (by apply Hmono).
  case_bool_decide as Hpath; [|done].
  destruct (decide (notFound_count (snd (step ev st)) = 1)) as [H1|H1]; [|lia].
  by destruct (Hnew p Hpath H1 Hp).
Qed.

Lemma notFound_shown_at_most_once p evs st :
  nonempty p = true → notFound_shown p evs st <= 1.
Proof.
  intros Hp. revert st. induction evs as [|ev evs IH]; intros st; simpl; [lia|].
  destruct (step_notice ev st) as (Hmono & Hle & Hnew).
  case_bool_decide as Hpath; [|apply IH].
  destruct (decide (notFound_count (snd (step ev st)) = 1)) as [H1|H1].
  - destruct (Hnew p Hpath H1 Hp) as [_ Hin].
    rewrite (notFound_shown_notified p evs _ Hp Hin). lia.
  - specialize (IH (fst (step ev st))). lia.
Qed.

Lemma updateConfiguration_probe_first e uri settings selected st :
  SignalsMissingExecutable e →
  nonempty (path (executable settings)) = true →
  path (executable settings) ∉ notifiedMissingExecutable st →
  enabled settings = true →
  toolStatusByPath st !! path (executable settings) = None →
  notFound_count
    (snd (updateConfiguration uri settings (Throws (Object true e)) selected st)) = 1
  ∧ path (executable settings)
      ∈ notifiedMissingExecutable
          (fst (updateConfiguration uri settings (Throws (Object true e)) selected st)).
Proof.
  intros Hs Hp Hin Hen Hnone. unfold updateConfiguration. rewrite Hen. simpl.
  rewrite Hnone. rewrite bool_decide_eq_false_2 by (by intros [? ?]). simpl.
  destruct (showShellCheckError_first e (path (executable settings)) selected
              (with_results (delete uri) (delete uri)
                 (with_settingsByUri (insert uri settings) st)) Hs Hp Hin)
    as [H1 H2].
  destruct (showShellCheckError _ _ _ _) as [st' fx]. simpl in *. done.
Qed.

(** A call of [updateConfiguration] that runs alone is the handler as a
    whole. *)
Lemma alone_is_updateConfiguration uri settings probe selected st :
  Awaits.alone uri settings probe selected st
  = updateConfiguration uri settings probe selected st.
Proof.
  unfold Awaits.alone, Awaits.start, updateConfiguration.
  destruct (enabled settings && _); [|done].
  destruct probe as [version|error]; simpl.
  - by rewrite app_nil_r.
  - unfold showShellCheckError.
    destruct (showShellCheckError_shown error _ _) as [[message items]|]; [|done].
    simpl. by destruct (showShellCheckError_answered error _ selected _).
Qed.

(** C2, as the code has it.  When each failure is handled to its end
    before the next one is handled, the "executable not found"
    notification is shown at most once for a non-empty executable path in
    the lifetime of the provider: the first failure for that path that is
    an [Error] signalling a missing executable shows it and records the
    path, be it a version probe that throws or the error of a run, and
    from then on no failure for that path shows it again, whatever happens
    in between.  A configuration change empties the settings and
    tool-status caches and leaves the set of notified paths as it is. *)
Theorem notFound_notice_once_per_path (p : string) (evs : list event) (st : Provider) :
  nonempty p = true →
  notFound_shown p evs st <= 1
  ∧ (p ∈ notifiedMissingExecutable st → notFound_shown p evs st = 0)
  ∧ (∀ e selected, SignalsMissingExecutable e → p ∉ notifiedMissingExecutable st →
       notFound_shown p (LintFailed (Object true e) p selected :: evs) st = 1
       ∧ p ∈ notifiedMissingExecutable
               (fst (step (LintFailed (Object true e) p selected) st)))
  ∧ (∀ e uri settings selected,
       SignalsMissingExecutable e → p ∉ notifiedMissingExecutable st →
       path (executable settings) = p → enabled settings = true →
       toolStatusByPath st !! p = None →
       notFound_shown p
         (UpdateConfiguration uri settings (Throws (Object true e)) selected :: evs) st = 1
       ∧ p ∈ notifiedMissingExecutable
               (fst (step (UpdateConfiguration uri settings (Throws (Object true e))
                             selected) st)))
  ∧ (∀ affects,
       notifiedMissingExecutable (handleDidChangeConfiguration affects st)
       = notifiedMissingExecutable st).
Proof.
  intros Hp. split; [by apply notFound_shown_at_most_once|].
  split; [by apply notFound_shown_notified|]. split; [|split].
  - intros e selected Hs Hin.
    destruct (showShellCheckError_first e p selected st Hs Hp Hin) as [H1 H2].
    cbn [notFound_shown failing_path]. rewrite bool_decide_eq_true_2 by done.
    simpl step. unfold handleShellCheckExecutionError.
    destruct (showShellCheckError _ _ _ st) as [st' fx]. simpl in *.
    rewrite H1. rewrite (notFound_shown_notified p evs _ Hp); [done|]. done.
  - intros e uri settings selected Hs Hin <- Hen Hnone.
    destruct (updateConfiguration_probe_first e uri settings selected st Hs Hp Hin Hen Hnone)
      as [H1 H2].
    cbn [notFound_shown failing_path]. rewrite bool_decide_eq_true_2 by done.
    simpl step. rewrite H1.
    rewrite (notFound_shown_notified _ evs _ Hp); [done|]. done.
  - by intros [|].
Qed.

End MissingExecutableNotice.

(** A missing executable, a configuration change, and the executable
    still missing: the probe of the first document shows the
    notification, and it is shown once. *)
Lemma notFound_notice_once_per_path_witness :
  Linter.nonempty "shellcheck" = true
  ∧ Linter.notFound_shown "shellcheck" Samples.missing_twice Linter.new_Provider <= 1
  ∧ Linter.notFound_shown "shellcheck" Samples.missing_twice Linter.new_Provider = 1
  ∧ "shellcheck"
      ∈ Linter.notifiedMissingExecutable
          (fst (Linter.step
                  (Linter.UpdateConfiguration "file:///work/deploy.bash" Samples.settings
                     (Thrown.Throws Samples.enoent) None)
                  Linter.new_Provider)).
Proof.
  destruct (notFound_notice_once_per_path "shellcheck" Samples.missing_twice
              Linter.new_Provider eq_refl) as (H1 & _).
  destruct (notFound_notice_once_per_path "shellcheck"
              [Linter.DidChangeConfiguration true;
               Linter.UpdateConfiguration "file:///work/deploy.bash" Samples.settings
                 (Thrown.Throws Samples.enoent) None]
              Linter.new_Provider eq_refl) as (_ & _ & _ & H4 & _).
  destruct (H4 {| Thrown.code := Thrown.Str "ENOENT"; Thrown.errno := Thrown.Num (-2);
                  Thrown.exitCode := Thrown.Undefined;
                  Thrown.stderr := Thrown.Str ""; Thrown.stdout := Thrown.Str "";
                  Thrown.shortMessage := Thrown.Str "Command failed with ENOENT: shellcheck -V";
                  Thrown.originalMessage := Thrown.Str "spawn shellcheck ENOENT";
                  Thrown.message := Thrown.Str "Command failed with ENOENT: shellcheck -V" |}
              "file:///work/deploy.bash" Samples.settings None) as [H5 H6].
  - by left.
  - apply not_elem_of_empty.
  - reflexivity.
  - reflexivity.
  - reflexivity.
  - split; [reflexivity|]. split; [exact H1|]. split; [exact H5 | exact H6].
Defined.

(** C2, as stated, fails in two ways.  After a configuration change the
    executable is probed again and is still missing, yet no second
    notification is shown, where once per configuration epoch calls for
    two.  And within one epoch the notification is shown twice when a
    second document is opened while the notification for the first is
    still up: the path is recorded only once the user has answered. *)
Lemma notFound_notice_not_once_per_epoch :
  (Linter.notFound_shown "shellcheck" Samples.missing_twice Linter.new_Provider = 1
   ∧ Props.once_per_epoch "shellcheck" false Samples.missing_twice = 2)
  ∧ Linter.notFound_count (snd Awaits.overlapping_probes) = 2.
Proof. split; [split|]; vm_compute; reflexivity. Qed.

(** ** The debounced scheduler *)
Section Debounce.
Import Async.
Context {Task : Type}.
Implicit Types (delayers : gmap string (Delayer Task)) (later : list (nat * Task)).

Lemma delayer_for_insert key trg (d : Delayer Task) delayers :
  delayer_for key trg (<[key := d]> delayers) = d.
Proof. unfold delayer_for. by rewrite lookup_insert_eq. Qed.

Lemma dispatch_eq now key trg (i : input Task) delayers :
  dispatch now key trg i delayers
  = (<[key := fst (handle now i (delayer_for key trg delayers))]> delayers,
     snd (handle now i (delayer_for key trg delayers))).
Proof. unfold dispatch. by destruct (handle _ _ _). Qed.

Lemma feed_cons key trg now (i : input Task) rest delayers :
  feed key trg ((now, i) :: rest) delayers
  = (fst (feed key trg rest (fst (dispatch now key trg i delayers))),
     snd (dispatch now key trg i delayers)
     ++ snd (feed key trg rest (fst (dispatch now key trg i delayers)))).
Proof.
  simpl. destruct (dispatch _ _ _ _ _) as [d1 s1]. simpl.
  by destruct (feed _ _ _ _) as [d2 s2].
Qed.

Lemma feed_app key trg (xs ys : list (nat * input Task)) delayers :
  feed key trg (xs ++ ys) delayers
  = (fst (feed key trg ys (fst (feed key trg xs delayers))),
     snd (feed key trg xs delayers)
     ++ snd (feed key trg ys (fst (feed key trg xs delayers)))).
Proof.
  revert delayers. induction xs as [|[now i] xs IH]; intros delayers.
  - simpl. by destruct (feed _ _ _ _).
  - rewrite <- app_comm_cons, !feed_cons, IH. simpl. by rewrite app_assoc.
Qed.

Lemma last_cons_default {A} (l : list A) (x d : A) :
  List.last (x :: l) d = List.last l x.
Proof.
  revert x d. induction l as [|y l IH]; intros x d; [done|].
  change (List.last (x :: y :: l) d) with (List.last (y :: l) d).
  by rewrite !IH.
Qed.

(** A trigger while the timer is pending and not yet due restarts the
    timer with the new task and starts nothing. *)
Lemma handle_trigger_pending now delay deadline (old task : Task) :
  now < deadline →
  handle now (Trigger task) {| defaultDelay := delay; state := TimerPending deadline old |}
  = ({| defaultDelay := delay; state := TimerPending (now + delay) task |}, []).
Proof.
  intros H. unfold handle. simpl.
  destruct (deadline <=? now)%nat eqn:E; [apply Nat.leb_le in E; lia | done].
Qed.

Lemma handle_trigger_idle now delay (task : Task) :
  handle now (Trigger task) {| defaultDelay := delay; state := Idle |}
  = ({| defaultDelay := delay; state := TimerPending (now + delay) task |}, []).
Proof. reflexivity. Qed.

Lemma handle_elapse_due now delay deadline (task : Task) :
  deadline <= now →
  handle now Elapse {| defaultDelay := delay; state := TimerPending deadline task |}
  = ({| defaultDelay := delay; state := Running |}, [task]).
Proof.
  intros H. unfold handle. simpl. by rewrite (proj2 (Nat.leb_le _ _) H).
Qed.

Lemma handle_completed_running now delay :
  handle (Task := Task) now Completed {| defaultDelay := delay; state := Running |}
  = ({| defaultDelay := delay; state := Idle |}, []).
Proof. reflexivity. Qed.

Lemma feed_triggers_pending key trg later : ∀ delayers delay t (task : Task),
  delayer_for key trg delayers
  = {| defaultDelay := delay; state := TimerPending (t + delay) task |} →
  within_window delay t later →
  snd (feed key trg (map (λ c, (fst c, Trigger (snd c))) later) delayers) = []
  ∧ delayer_for key trg
      (fst (feed key trg (map (λ c, (fst c, Trigger (snd c))) later) delayers))
    = {| defaultDelay := delay;
         state := TimerPending (fst (List.last later (t, task)) + delay)
                    (snd (List.last later (t, task))) |}.
Proof.
  induction later as [|[t' task'] later IH]; intros delayers delay t task Hd Hw.
  - done.
  - destruct Hw as (Hle & Hlt & Hw).
    rewrite map_cons, feed_cons, dispatch_eq, Hd. cbn [fst snd].
    rewrite (handle_trigger_pending t' delay (t + delay) task task' Hlt). cbn [fst snd].
    destruct (IH (<[key := {| defaultDelay := delay; state := TimerPending (t' + delay) task' |}]>
                    delayers) delay t' task'
                (delayer_for_insert _ _ _ _) Hw) as [IH1 IH2].
    rewrite IH1, IH2. split; [done|]. by rewrite last_cons_default.
Qed.


(** C3. A burst of [triggerLint] calls for one document key, each call
    arriving before the timer of the previous one expires, that starts
    with no timer pending and no task in flight and is then left to
    settle, results in exactly one task execution, and the task executed
    is the one supplied by the last call of the burst. *)
Theorem burst_runs_last_task_once (key : string) (trg : Linter.RunTrigger) delayers
    (t0 : nat) (task0 : Task) later (settle done_at : nat) :
  state (delayer_for key trg delayers) = Idle →
  within_window (defaultDelay (delayer_for key trg delayers)) t0 later →
  fst (List.last later (t0, task0)) + defaultDelay (delayer_for key trg delayers) <= settle →
  settle <= done_at →
  snd (feed key trg (settled_burst ((t0, task0) :: later) settle done_at) delayers)
  = [snd (List.last later (t0, task0))]
  ∧ state (delayer_for key trg
             (fst (feed key trg (settled_burst ((t0, task0) :: later) settle done_at)
                     delayers)))
    = Idle.
Proof.
  intros Hidle Hw Hsettle Hdone.
  destruct (delayer_for key trg delayers) as [delay m] eqn:Hd.
  simpl in Hidle, Hw, Hsettle. subst m.
  unfold settled_burst. rewrite map_cons, <- app_comm_cons, feed_cons, dispatch_eq, Hd.
  cbn [fst snd]. rewrite handle_trigger_idle. cbn [fst snd app].
  rewrite feed_app.
  destruct (feed_triggers_pending key trg later
              (<[key := {| defaultDelay := delay; state := TimerPending (t0 + delay) task0 |}]>
                 delayers) delay t0 task0 (delayer_for_insert _ _ _ _) Hw) as [H1 H2].
  rewrite H1. cbn [fst snd app].
  set (ds := fst (feed key trg _ _)) in *.
  rewrite feed_cons, dispatch_eq, H2, (handle_elapse_due _ _ _ _ Hsettle).
  cbn [fst snd app].
  rewrite feed_cons, dispatch_eq, delayer_for_insert, handle_completed_running.
  cbn [fst snd feed]. by rewrite delayer_for_insert.
Qed.

End Debounce.

(** Three edits typed 0, 100 and 300 ms in: one lint run, on the text
    of the third. *)
Lemma burst_runs_last_task_once_witness :
  snd (Async.feed "file:///a.sh" Linter.onType
         (Async.settled_burst Samples.typing_burst 550 600) ∅)
  = ["echo $xy"]
  ∧ Async.state
      (Async.delayer_for "file:///a.sh" Linter.onType
         (fst (Async.feed "file:///a.sh" Linter.onType
                 (Async.settled_burst Samples.typing_burst 550 600) ∅)))
    = Async.Idle.
Proof.
  apply (burst_runs_last_task_once "file:///a.sh" Linter.onType ∅
           0 "echo $" [(100, "echo $x"); (300, "echo $xy")] 550 600).
  - reflexivity.
  - vm_compute. lia.
  - vm_compute. lia.
  - lia.
Defined.

(** C7, as stated, fails in two ways.  An output whose marker is written
    [VERSION:] contains no [version:], yet the probe reads the version
    after it.  And on an output beyond ASCII the token is not the one
    after the marker: lower-casing turns each U+0130 into two code units,
    the marker is found two places further in the lower-cased copy than
    it stands in the output, and the output is cut there; the probe
    throws on [.2.3] although [1.2.3] follows the marker. *)
Lemma version_probe_marker_in_any_case :
  (¬ Props.Contains "VERSION: 1.2.3" "version:"
   ∧ ToolCheck.getToolVersion ToolCheck.plain_semver_parse
       (ToolCheck.Resolved "VERSION: 1.2.3")
     = Thrown.Returns
         {| ToolCheck.major := 1; ToolCheck.minor := 2; ToolCheck.patch := 3;
            ToolCheck.prerelease := []; ToolCheck.build := [] |})
  ∧ (Wide.dotted_output
     = [304%N; 304%N] ++ Wide.of_string " " ++ Wide.of_string "version:"
       ++ Wide.of_string " " ++ Wide.of_string "1.2.3"
     ∧ Wide.plain_parse (Wide.of_string "1.2.3")
       = Some {| ToolCheck.major := 1; ToolCheck.minor := 2; ToolCheck.patch := 3;
                 ToolCheck.prerelease := []; ToolCheck.build := [] |}
     ∧ Wide.parseToolVersion Wide.toLowerCase Wide.plain_parse Wide.dotted_output
       = Wide.Error (Wide.of_string "Unable to parse ShellCheck version: .2.3")).
Proof.
  split; [split|split; [|split]]; try (vm_compute; reflexivity).
  rewrite <- includes_spec. vm_compute. discriminate.
Qed.

(** On the output of [shellcheck -V], which is ASCII, the reading by code
    units and the reading by characters agree. *)
Lemma wide_probe_agrees_on_version_output :
  Wide.parseToolVersion Wide.toLowerCase Wide.plain_parse
    (Wide.of_string Samples.version_output)
  = Wide.Version Samples.version_0_9_0
  ∧ ToolCheck.parseToolVersion ToolCheck.plain_semver_parse Samples.version_output
    = Thrown.Returns Samples.version_0_9_0.
Proof. split; vm_compute; reflexivity. Qed.

(** * Further properties of the sources *)

(** ** The wiki page of a rule *)
Section WikiUrl.
Import Props Link.

Lemma all_digits_spec s : Text.all_digits s = true ↔ AllChars IsDigit s.
Proof.
  induction s as [|c s IH]; simpl; [done|].
  rewrite andb_true_iff, is_digit_spec, IH. done.
Qed.

Lemma digit_not_space c : IsDigit c → Js.is_space c = false.
Proof.
  unfold IsDigit, Js.is_space. intros H.
  destruct (nat_of_ascii c =? 32)%nat eqn:E1; [apply Nat.eqb_eq in E1; lia|].
  destruct (9 <=? nat_of_ascii c)%nat eqn:E2; [|done].
  destruct (nat_of_ascii c <=? 13)%nat eqn:E3; [apply Nat.leb_le in E3; lia | done].
Qed.

Lemma digits_not_SC d : AllChars IsDigit d → Js.startsWith d "SC" = false.
Proof.
  destruct d as [|a d]; [done|]. intros [Ha _]. simpl.
  destruct (decide ("S"%char = a)) as [<-|]; [|done].
  unfold IsDigit in Ha. change (nat_of_ascii "S") with 83 in Ha. lia.
Qed.

Lemma normalized_digits d :
  AllChars IsDigit d → d ≠ "" → normalized d = "SC" +:+ d ∧ normalized ("SC" +:+ d) = "SC" +:+ d.
Proof.
  intros Hd Hne. unfold normalized, looks_normalized, strip_SC. split.
  - assert (Js.trimStart d = d) as ->.
    { destruct d as [|a d]; [done|]. simpl. by rewrite (digit_not_space a (proj1 Hd)). }
    by rewrite (digits_not_SC d Hd).
  - change (Js.trimStart ("SC" +:+ d)) with ("SC" +:+ d).
    rewrite (startsWith_app "SC" d).
    change 2 with (String.length "SC"). rewrite slice_from_app.
    rewrite (proj2 (all_digits_spec d) Hd). by destruct (Linter.nonempty d).
Qed.

Lemma FourDigits_digits d : FourDigits d → AllChars IsDigit d ∧ d ≠ "".
Proof. intros (a & b & c & e & -> & Ha & Hb & Hc & He). simpl. split; [tauto | done]. Qed.

Lemma wiki_url_rule_entry p d :
  RuleEntry p d → getWikiUrlForRule p = "https://www.shellcheck.net/wiki/SC" +:+ d.
Proof.
  intros [Hd Hp]. apply FourDigits_digits in Hd as [Hd Hne].
  destruct (normalized_digits d Hd Hne) as [H1 H2].
  unfold getWikiUrlForRule. by destruct Hp as [-> | ->]; rewrite ?H1, ?H2.
Qed.

Lemma normalized_SC id : Js.startsWith id "SC" = true → normalized id = id.
Proof.
  intros H. unfold normalized, strip_SC. rewrite H.
  destruct (looks_normalized id); [done|].
  by rewrite (startsWith_split id "SC" H) at 2.
Qed.

(** X1. A rule given by its digits alone and the same rule written with
    the [SC] prefix have the same wiki page, [.../wiki/SC<digits>]. *)
Theorem wiki_url_same_with_and_without_prefix (d : string) :
  AllChars IsDigit d → d ≠ "" →
  getWikiUrlForRule d = "https://www.shellcheck.net/wiki/SC" +:+ d
  ∧ getWikiUrlForRule ("SC" +:+ d) = getWikiUrlForRule d.
Proof.
  intros Hd Hne. destruct (normalized_digits d Hd Hne) as [H1 H2].
  unfold getWikiUrlForRule. by rewrite H1, H2.
Qed.

(** X2. An id that already starts with [SC] is used verbatim as the
    page name, whatever follows the prefix. *)
Theorem wiki_url_keeps_prefixed_id (id : string) :
  Js.startsWith id "SC" = true →
  getWikiUrlForRule id = "https://www.shellcheck.net/wiki/" +:+ id.
Proof. intros H. unfold getWikiUrlForRule. by rewrite normalized_SC. Qed.

(** X3. The page name is stable: normalising it again changes nothing,
    and after its leading whitespace it always starts with [SC]. *)
Theorem wiki_page_name_is_normal (asString : string) :
  normalized (normalized asString) = normalized asString
  ∧ Js.startsWith (Js.trimStart (normalized asString)) "SC" = true.
Proof.
  destruct (looks_normalized asString) eqn:E.
  - assert (normalized asString = asString) as -> by (unfold normalized; by rewrite E).
    split; [unfold normalized; by rewrite E|].
    unfold looks_normalized in E. by apply andb_true_iff in E as [[E _]%andb_true_iff _].
  - assert (normalized asString = "SC" +:+ strip_SC asString) as ->
      by (unfold normalized; by rewrite E).
    split; [|done]. apply normalized_SC. apply (startsWith_app "SC").
Qed.

End WikiUrl.

Lemma wiki_url_same_with_and_without_prefix_witness :
  Link.getWikiUrlForRule "2086" = "https://www.shellcheck.net/wiki/SC2086"
  ∧ Link.getWikiUrlForRule "SC2086" = Link.getWikiUrlForRule "2086".
Proof.
  apply (wiki_url_same_with_and_without_prefix "2086").
  - vm_compute. repeat split; lia.
  - discriminate.
Defined.

Lemma wiki_url_keeps_prefixed_id_witness :
  Link.getWikiUrlForRule "SC1000a" = "https://www.shellcheck.net/wiki/SC1000a".
Proof. apply (wiki_url_keeps_prefixed_id "SC1000a"). reflexivity. Defined.

(** ** Links in suppression directives *)
Section DirectiveLinks.
Import Editor Props Terms Linkify.

Lemma four_digits_here_spec s :
  four_digits_here s = true →
  ∃ d rest, FourDigits d ∧ s = d +:+ rest ∧ Js.slice_from 4 s = rest ∧ Js.slice_to 4 s = d.
Proof.
  destruct s as [|a [|b [|c [|e rest]]]]; try done. simpl.
  rewrite !andb_true_iff, !is_digit_spec. intros [[[Ha Hb] Hc] He].
  exists (String a (String b (String c (String e "")))), rest.
  split; [by exists a, b, c, e|]. done.
Qed.

Lemma boundary_after_spec post : boundary_after post = true → NotBeforeWord post.
Proof.
  intros H c t ->. simpl in H. by destruct (Text.is_word c).
Qed.

Lemma four_digits_here_not_SC s :
  four_digits_here s = true → Js.startsWith s "SC" = false.
Proof.
  destruct s as [|a s]; [done|]. intros H. simpl.
  destruct (decide ("S"%char = a)) as [<-|]; [|done].
  by destruct s as [|b [|c [|e rest]]].
Qed.

Lemma match_here_spec prev_word s len :
  match_here prev_word s = Some len →
  prev_word = false
  ∧ ∃ p d post, s = p +:+ post ∧ RuleEntry p d ∧ String.length p = len
                ∧ Js.slice_to len s = p ∧ NotBeforeWord post.
Proof.
  unfold match_here. destruct prev_word; [done|].
  destruct (four_digits_here s) eqn:H4'.
  - rewrite (four_digits_here_not_SC s H4'). cbn [andb].
    destruct (four_digits_here_spec _ H4') as (d & rest & Hd & Hs & Hrest & Hto).
    rewrite Hrest. destruct (boundary_after rest) eqn:Hb; [|done].
    intros [= <-]. split; [done|]. exists d, d, rest.
    split; [done|]. split; [split; [done | by left]|].
    split; [by destruct Hd as (a & b & c & e & -> & _)|].
    split; [done | by apply boundary_after_spec].
  - rewrite andb_false_l.
    destruct (Js.startsWith s "SC") eqn:HSC; [|done]. cbn [andb].
    apply startsWith_split in HSC. change (String.length "SC") with 2 in HSC.
    destruct (four_digits_here (Js.slice_from 2 s)) eqn:H4; [|done]. cbn [andb].
    destruct (four_digits_here_spec _ H4) as (d & rest & Hd & Hs & Hrest & Hto).
    assert (s = ("SC" +:+ d) +:+ rest) as Hsplit.
    { rewrite HSC at 1. rewrite Hs. by rewrite app_assoc_string. }
    assert (String.length ("SC" +:+ d) = 6) as Hlen.
    { destruct Hd as (a & b & c & e & -> & _). done. }
    assert (Js.slice_from 6 s = rest) as H6.
    { rewrite Hsplit at 1. rewrite <- Hlen. apply slice_from_app. }
    rewrite H6. destruct (boundary_after rest) eqn:Hb; [|done].
    intros [= <-]. split; [done|]. exists ("SC" +:+ d), d, rest.
    split; [done|]. split; [split; [done | by right]|]. split; [done|].
    split; [|by apply boundary_after_spec].
    rewrite Hsplit at 1. rewrite <- Hlen. apply slice_to_app.
Qed.

Lemma ends_with_word_snoc pre c :
  ends_with_word (pre +:+ String c "") = Text.is_word c.
Proof.
  induction pre as [|x pre IH]; [done|]. rewrite app_cons.
  change (ends_with_word (String x (pre +:+ String c "")))
    with (match pre +:+ String c "" with
          | EmptyString => Text.is_word x
          | String _ _ => ends_with_word (pre +:+ String c "")
          end).
  destruct pre; [done|]. by rewrite app_cons in *.
Qed.

Lemma ends_with_word_false pre : ends_with_word pre = false → NotAfterWord pre.
Proof. intros H pre' c ->. by rewrite ends_with_word_snoc in H. Qed.

Lemma snoc_app (pre : string) c r : (pre +:+ String c "") +:+ r = pre +:+ String c r.
Proof. by rewrite app_assoc_string. Qed.

Lemma matches_sound s : ∀ pre skip idx p,
  (idx, p) ∈ matches (ends_with_word pre) (String.length pre) skip s →
  ∃ d, RuleToken (pre +:+ s) idx p d.
Proof.
  induction s as [|c r IH]; intros pre skip idx p Hin; simpl in Hin.
  - by apply elem_of_nil in Hin.
  - assert (∀ skip', (idx, p) ∈ matches (Text.is_word c) (S (String.length pre)) skip' r →
                     ∃ d, RuleToken (pre +:+ String c r) idx p d) as Hrest.
    { intros skip' H. rewrite <- snoc_app. apply (IH (pre +:+ String c "") skip').
      by rewrite ends_with_word_snoc, length_app_string, Nat.add_1_r. }
    destruct skip as [|k]; [|by apply (Hrest k)].
    destruct (match_here (ends_with_word pre) (String c r)) as [len|] eqn:Hm;
      [|by apply (Hrest 0)].
    apply elem_of_cons in Hin as [[= -> ->]|Hin]; [|by apply (Hrest (len - 1))].
    destruct (match_here_spec _ _ _ Hm) as (Hpw & q & d & post & Hs & Hq & Hlen & Hto & Hpost).
    exists d, pre, post. rewrite Hto, Hs.
    split; [done|]. split; [done|]. split; [done|].
    split; [by apply ends_with_word_false | done].
Qed.


Lemma slice_from_app_len n p r : String.length p = n → Js.slice_from n (p +:+ r) = r.
Proof. intros <-. apply slice_from_app. Qed.

Lemma skip_blanks_split s :
  ∃ b, s = b +:+ Text.skip_blanks s ∧ AllChars IsBlank b
       ∧ ∀ c t, Text.skip_blanks s = String c t → Text.is_blank c = false.
Proof.
  induction s as [|c s (b & Hs & Hb & Hnext)].
  - exists "". by repeat split.
  - simpl. destruct (Text.is_blank c) eqn:Ec.
    + exists (String c b). rewrite app_cons, <- Hs. by repeat split.
    + exists "". rewrite app_nil_l. repeat split. by intros ? ? [= <- _].
Qed.

Lemma skip_blanks_app b s :
  AllChars IsBlank b → (∀ c t, s = String c t → Text.is_blank c = false) →
  Text.skip_blanks (b +:+ s) = s.
Proof.
  intros Hb Hs. induction b as [|x b IH].
  - rewrite app_nil_l. destruct s as [|c t]; [done|]. simpl. by rewrite (Hs c t).
  - destruct Hb as [Hx Hb]. rewrite app_cons. simpl. rewrite Hx. by apply IH.
Qed.

Lemma is_directive_spec text : is_directive text = true ↔ Directive text.
Proof.
  unfold is_directive. split.
  - rewrite !andb_true_iff, negb_true_iff, Nat.eqb_neq.
    intros (H1 & H2 & (H3 & Hlen) & Hrest).
    destruct (skip_blanks_split text) as (b1 & E1 & Hb1 & _).
    apply startsWith_split in H1. change (String.length "#") with 1 in H1.
    destruct (skip_blanks_split (Js.slice_from 1 (Text.skip_blanks text)))
      as (b2 & E2 & Hb2 & _).
    apply startsWith_split in H2. change (String.length "shellcheck") with 10 in H2.
    set (s3 := Js.slice_from 10 _) in *.
    destruct (skip_blanks_split s3) as (b3 & E3 & Hb3 & _).
    apply startsWith_split in H3. change (String.length "disable=") with 8 in H3.
    exists b1, b2, b3, (Js.slice_from 8 (Text.skip_blanks s3)).
    split; [|repeat split; try done].
    + rewrite <- H3, <- E3, <- H2, <- E2, <- H1. done.
    + intros ->. rewrite app_nil_l in E3. by rewrite <- E3 in Hlen.
    + by destruct (Js.slice_from 8 (Text.skip_blanks s3)).
  - intros (b1 & b2 & b3 & rest & -> & Hb1 & Hb2 & Hb3 & Hne3 & Hrest).
    rewrite (skip_blanks_app b1) by (done || by intros ? ? [= <- _]).
    rewrite (startsWith_app "#"), (slice_from_app_len 1 "#") by done.
    rewrite (skip_blanks_app b2) by (done || by intros ? ? [= <- _]).
    rewrite (startsWith_app "shellcheck"), (slice_from_app_len 10 "shellcheck") by done.
    rewrite (skip_blanks_app b3) by (done || by intros ? ? [= <- _]).
    rewrite (startsWith_app "disable="), (slice_from_app_len 8 "disable=") by done.
    assert (Linter.nonempty rest = true) as -> by by destruct rest.
    assert (String.length ("disable=" +:+ rest) ≠ String.length (b3 +:+ "disable=" +:+ rest))
      as Hlen.
    { rewrite (length_app_string b3). destruct b3; [done|]. simpl. lia. }
    apply Nat.eqb_neq in Hlen. by rewrite Hlen.
Qed.

Lemma links_from_sound ls : ∀ k acc link,
  link ∈ links_from k ls acc →
  link ∈ acc
  ∨ ∃ i text idx p d, ls !! i = Some text ∧ Directive text ∧ RuleToken text idx p d
                      ∧ link = link_to_rule (k + i) idx (String.length p) d.
Proof.
  induction ls as [|l ls IH]; intros k acc link Hin; simpl in Hin; [by left|].
  assert (∀ i text idx p d, ls !! i = Some text → Directive text → RuleToken text idx p d →
            link = link_to_rule (S k + i) idx (String.length p) d →
            ∃ i text idx p d, (l :: ls) !! i = Some text ∧ Directive text
              ∧ RuleToken text idx p d ∧ link = link_to_rule (k + i) idx (String.length p) d)
    as Hshift.
  { intros i text idx p d H1 H2 H3 H4. exists (S i), text, idx, p, d.
    repeat split; try done. by rewrite Nat.add_succ_r. }
  destruct (is_directive l) eqn:Hdir.
  - destruct (IH _ _ _ Hin) as [Hacc|(i & text & idx & p & d & H1 & H2 & H3 & H4)];
      [|right; by eapply Hshift].
    unfold collectMatchesOnLine in Hacc. apply elem_of_app in Hacc as [Hacc|Hnew]; [by left|].
    right. apply list_elem_of_In, in_map_iff in Hnew as ([idx p] & <- & Hm).
    apply list_elem_of_In in Hm.
    destruct (matches_sound l "" 0 idx p Hm) as [d Hd]. rewrite app_nil_l in Hd.
    assert (RuleEntry p d) as Hentry by (by destruct Hd as (? & ? & _ & _ & ? & _)).
    exists 0, l, idx, p, d.
    split; [done|]. split; [by apply is_directive_spec|]. split; [done|].
    unfold link_to_rule, translate. simpl. rewrite Nat.add_0_r.
    by rewrite (wiki_url_rule_entry p d Hentry).
  - destruct (IH _ _ _ Hin) as [Hacc|(i & text & idx & p & d & H1 & H2 & H3 & H4)];
      [by left | right; by eapply Hshift].
Qed.

(** X4. Every link the provider returns lies on a line that is a
    suppression directive, covers exactly one rule id of that line (four
    digits, with or without [SC], standing as a word of its own), and
    points to the wiki page of that rule. *)
Theorem document_links_cover_rule_ids (document : Linter.TextDocument)
    (link : DocumentLink) :
  link ∈ provideDocumentLinks document →
  ∃ n text idx p d,
    Linter.lines document !! n = Some text ∧ Directive text ∧ RuleToken text idx p d
    ∧ link = link_to_rule n idx (String.length p) d.
Proof.
  intros Hin. unfold provideDocumentLinks in Hin.
  destruct (links_from_sound _ _ _ _ Hin) as [Hnil|H]; [by apply elem_of_nil in Hnil|].
  exact H.
Qed.

End DirectiveLinks.

(** The first rule of the directive on the second line of the script. *)
Lemma document_links_cover_rule_ids_witness :
  ∃ n text idx p d,
    Linter.lines Cases.script_with_directive !! n = Some text
    ∧ Terms.Directive text ∧ Terms.RuleToken text idx p d
    ∧ Terms.link_to_rule 1 23 6 "2086" = Terms.link_to_rule n idx (String.length p) d.
Proof.
  apply (document_links_cover_rule_ids Cases.script_with_directive
           (Terms.link_to_rule 1 23 6 "2086")).
  vm_compute. apply list_elem_of_here.
Defined.

(** ** The suppression comment is a directive with a linked rule *)
Section SuppressionIsLinked.
Import Thrown Editor Linter Props Terms Linkify.

Lemma blank_facts c :
  IsBlank c →
  Js.is_digit c = false ∧ Text.is_word c = false ∧ Js.is_space c = true ∧ c ≠ "S"%char
  ∧ c ≠ LF.
Proof.
  unfold IsBlank, Text.is_blank, Js.is_digit, Text.is_word, Js.is_space.
  intros [H|H]%orb_true_iff; apply Nat.eqb_eq in H.
  - assert (c = " "%char) as -> by (by rewrite <- (ascii_nat_embedding c), H). done.
  - assert (c = "009"%char) as -> by (by rewrite <- (ascii_nat_embedding c), H). done.
Qed.

Lemma match_here_plain pw c r :
  Js.is_digit c = false → c ≠ "S"%char → match_here pw (String c r) = None.
Proof.
  intros Hd HS. unfold match_here. destruct pw; [done|].
  assert (Js.startsWith (String c r) "SC" = false) as ->.
  { simpl. by rewrite decide_False by done. }
  assert (four_digits_here (String c r) = false) as ->; [|done].
  destruct r as [|? [|? [|? ?]]]; simpl; try done. by rewrite Hd.
Qed.

Lemma ends_with_word_cons c b : b ≠ "" → ends_with_word (String c b) = ends_with_word b.
Proof. by destruct b. Qed.

Lemma ends_with_word_app b x : x ≠ "" → ends_with_word (b +:+ x) = ends_with_word x.
Proof.
  intros Hx. induction b as [|c b IH]; [done|].
  rewrite app_cons, ends_with_word_cons; [done|]. by destruct b, x.
Qed.

Lemma matches_plain_prefix b s : ∀ pw col,
  AllChars Plain b → b ≠ "" →
  matches pw col 0 (b +:+ s) = matches (ends_with_word b) (col + String.length b) 0 s.
Proof.
  induction b as [|c b IH]; intros pw col Hb Hne; [done|].
  destruct Hb as [[Hd HS] Hb]. rewrite app_cons.
  cbn [matches]. rewrite (match_here_plain pw c _ Hd HS).
  destruct b as [|c' b].
  - rewrite app_nil_l. simpl. by rewrite Nat.add_1_r.
  - rewrite (IH (Text.is_word c) (S col)) by done.
    rewrite (ends_with_word_cons c) by done. f_equal. simpl. lia.
Qed.

Lemma matches_skip_all s : ∀ pw col skip,
  String.length s <= skip → matches pw col skip s = [].
Proof.
  induction s as [|c s IH]; intros pw col skip H; [done|].
  simpl in H. destruct skip as [|k]; [lia|]. cbn [matches]. apply IH. lia.
Qed.

Lemma matches_rule_at_end col d :
  FourDigits d → matches false col 0 ("SC" +:+ d) = [(col, "SC" +:+ d)].
Proof.
  intros Hd.
  assert (match_here false ("SC" +:+ d) = Some 6) as Hm.
  { unfold match_here. rewrite (startsWith_app "SC" d), (slice_from_app_len 2 "SC") by done.
    destruct Hd as (a & b & c & e & -> & Ha & Hb & Hc & He).
    apply is_digit_spec in Ha, Hb, Hc, He. simpl. by rewrite Ha, Hb, Hc, He. }
  rewrite (app_cons "S" "C" d) in *. cbn [matches]. rewrite Hm.
  rewrite matches_skip_all.
  - f_equal. f_equal. destruct Hd as (a & b & c & e & -> & _). done.
  - destruct Hd as (a & b & c & e & -> & _). simpl. lia.
Qed.

Lemma comment_prefix_plain indent :
  AllChars IsBlank indent → AllChars Plain (indent +:+ "# shellcheck disable=").
Proof.
  intros H. apply AllChars_app. split.
  - induction indent as [|c indent IH]; [done|]. destruct H as [Hc H].
    split; [|by apply IH]. destruct (blank_facts c Hc) as (? & _ & _ & ? & _). by split.
  - vm_compute. intuition discriminate.
Qed.

Lemma matches_suppression_comment indent d :
  AllChars IsBlank indent → FourDigits d →
  matches false 0 0 (indent +:+ "# shellcheck disable=" +:+ "SC" +:+ d)
  = [(String.length indent + 21, "SC" +:+ d)].
Proof.
  intros Hi Hd.
  rewrite <- (app_assoc_string indent "# shellcheck disable=" ("SC" +:+ d)).
  rewrite matches_plain_prefix;
    [|by apply comment_prefix_plain | by destruct indent].
  rewrite ends_with_word_app by done.
  change (ends_with_word "# shellcheck disable=") with false.
  rewrite (matches_rule_at_end _ d Hd), length_app_string. done.
Qed.

Lemma AllChars_impl (P Q : ascii → Prop) s :
  (∀ c, P c → Q c) → AllChars P s → AllChars Q s.
Proof. intros HPQ. induction s as [|c s IH]; [done|]. intros [Hc Hs]. split; auto. Qed.

Lemma lines_after_suppression textDocument ruleId range indent rest :
  lines textDocument !! line (start range) = Some (indent +:+ rest) →
  AllChars IsSpace indent →
  (rest = "" ∨ ∃ c t, rest = String c t ∧ ¬ IsSpace c) →
  AllChars NotLF (indent +:+ rest) →
  AllChars NotLF ruleId →
  lines_after textDocument (disableCheckForLine true textDocument ruleId range)
  = take (line (start range)) (lines textDocument)
    ++ [indent +:+ "# shellcheck disable=" +:+ ruleId; indent +:+ rest]
    ++ drop (S (line (start range))) (lines textDocument).
Proof.
  intros Hline Hind Hrest Htext Hrule.
  rewrite (disableCheckForLine_edit _ _ _ _ _ Hline Hind Hrest).
  unfold lines_after. simpl. unfold apply_insert. simpl. rewrite Hline.
  rewrite slice_to_app, slice_from_app.
  do 2 f_equal.
  apply AllChars_app in Htext as [Hi Hr].
  rewrite !app_assoc_string.
  rewrite <- (app_assoc_string indent "# shellcheck disable=" (ruleId +:+ _)).
  rewrite <- (app_assoc_string (indent +:+ "# shellcheck disable=") ruleId).
  rewrite (app_cons LF indent rest), split_lines_break.
  - rewrite split_lines_one; [by rewrite !app_assoc_string|].
    apply AllChars_app. done.
  - apply AllChars_app. split; [|done]. apply AllChars_app. split; [done|].
    vm_compute. intuition discriminate.
Qed.

Lemma digit_not_LF c : IsDigit c → NotLF c.
Proof. intros H ->. unfold IsDigit in H. change (nat_of_ascii LF) with 10 in H. lia. Qed.

(** X5. The comment the suppression command writes for a rule [SC<d>]
    above a line indented with blanks is itself recognised as a
    suppression directive, and it carries exactly one link: on the rule
    id, to the wiki page of that rule. *)
Theorem suppression_comment_is_linked (textDocument : TextDocument) (range : Range)
    (indent rest d : string) :
  lines textDocument !! line (start range) = Some (indent +:+ rest) →
  AllChars IsBlank indent →
  (rest = "" ∨ ∃ c t, rest = String c t ∧ ¬ IsSpace c) →
  AllChars NotLF (indent +:+ rest) →
  FourDigits d →
  ∃ inserted,
    lines_after textDocument (disableCheckForLine true textDocument ("SC" +:+ d) range)
      !! line (start range) = Some inserted
    ∧ Directive inserted
    ∧ collectMatchesOnLine {| line := line (start range); character := 0 |} inserted []
      = [link_to_rule (line (start range)) (String.length indent + 21) 6 d].
Proof.
  intros Hline Hblank Hrest Htext Hd.
  exists (indent +:+ "# shellcheck disable=" +:+ "SC" +:+ d). split; [|split].
  - rewrite (lines_after_suppression _ _ _ indent rest); try done.
    + apply list_lookup_middle. rewrite length_take.
      apply lookup_lt_Some in Hline. lia.
    + eapply AllChars_impl; [|exact Hblank]. intros c Hc. by apply blank_facts in Hc as (_ & _ & ? & _).
    + apply (AllChars_app NotLF "SC" d). split; [vm_compute; intuition discriminate|].
      eapply AllChars_impl; [apply digit_not_LF|]. by apply FourDigits_digits.
  - exists indent, " ", " ", ("SC" +:+ d).
    split; [done|]. split; [done|]. split; [by vm_compute|]. split; [by vm_compute|].
    split; [done|]. by rewrite (app_cons "S" "C" d).
  - unfold collectMatchesOnLine. rewrite (matches_suppression_comment indent d Hblank Hd).
    simpl. unfold link_to_rule, translate. simpl.
    rewrite (wiki_url_rule_entry ("SC" +:+ d) d) by (split; [done | by right]).
    by destruct Hd as (a & b & c & e & -> & _).
Qed.

End SuppressionIsLinked.

(** The command for [SC2086] on the line [    echo $x] of the sample
    document. *)
Lemma suppression_comment_is_linked_witness :
  ∃ inserted,
    Linter.lines_after Samples.document
      (Linter.disableCheckForLine true Samples.document ("SC" +:+ "2086")
         {| Editor.start := {| Editor.line := 1; Editor.character := 9 |};
            Editor.end_ := {| Editor.line := 1; Editor.character := 11 |} |})
      !! 1 = Some inserted
    ∧ Terms.Directive inserted
    ∧ Linkify.collectMatchesOnLine {| Editor.line := 1; Editor.character := 0 |} inserted []
      = [Terms.link_to_rule 1 (String.length "    " + 21) 6 "2086"].
Proof.
  apply (suppression_comment_is_linked Samples.document
           {| Editor.start := {| Editor.line := 1; Editor.character := 9 |};
              Editor.end_ := {| Editor.line := 1; Editor.character := 11 |} |}
           "    " "echo $x" "2086").
  - reflexivity.
  - vm_compute. tauto.
  - right. exists "e"%char, "cho $x". split; [reflexivity|]. vm_compute. discriminate.
  - vm_compute. intuition discriminate.
  - apply FourDigits_2086.
Defined.

(** ** Splitting and replacing *)
Section SplitFacts.
Import Props.

Lemma split_go_nonempty sep s : ∀ skip, Text.split_go sep skip s ≠ [].
Proof.
  induction s as [|c s IH]; intros skip; [done|]. simpl.
  destruct skip as [|k]; [|apply IH].
  destruct (Js.startsWith (String c s) sep); [done|].
  specialize (IH 0). by destruct (Text.split_go sep 0 s).
Qed.

Lemma not_Contains_cons c r sep :
  ¬ Contains (String c r) sep → Js.startsWith (String c r) sep = false ∧ ¬ Contains r sep.
Proof.
  intros H. split.
  - destruct (Js.startsWith (String c r) sep) eqn:E; [|done].
    destruct H. apply startsWith_split in E. by exists "", (Js.slice_from (String.length sep) (String c r)).
  - intros (pre & post & ->). destruct H. by exists (String c pre), post.
Qed.

Lemma split_without_separator sep s : ¬ Contains s sep → Text.split sep s = [s].
Proof.
  unfold Text.split. induction s as [|c s IH]; intros H; [done|].
  apply not_Contains_cons in H as [H1 H2]. simpl. rewrite H1. by rewrite (IH H2).
Qed.

Lemma replaceAll_without_pattern pattern replacement s :
  ¬ Contains s pattern → Text.replaceAll pattern replacement s = s.
Proof. intros H. unfold Text.replaceAll. by rewrite split_without_separator. Qed.

Lemma split_go_skip sep x : ∀ b, Text.split_go sep (String.length x) (x +:+ b) = Text.split_go sep 0 b.
Proof.
  induction x as [|c x IH]; intros b; [done|]. rewrite app_cons. simpl. apply IH.
Qed.

Lemma split_at_separator sep b :
  sep ≠ "" → Text.split sep (sep +:+ b) = "" :: Text.split sep b.
Proof.
  intros Hne. unfold Text.split. destruct sep as [|c sep]; [done|].
  rewrite app_cons. cbn [Text.split_go]. rewrite <- app_cons, (startsWith_app (String c sep) b).
  f_equal. simpl. rewrite Nat.sub_0_r. apply split_go_skip.
Qed.

Lemma join_cons_nonempty sep x fs :
  fs ≠ [] → Js.join sep (x :: fs) = x +:+ sep +:+ Js.join sep fs.
Proof. by destruct fs. Qed.

Lemma replaceAll_at_pattern pattern replacement b :
  pattern ≠ "" →
  Text.replaceAll pattern replacement (pattern +:+ b)
  = replacement +:+ Text.replaceAll pattern replacement b.
Proof.
  intros Hne. unfold Text.replaceAll. rewrite split_at_separator by done.
  rewrite join_cons_nonempty by apply split_go_nonempty. done.
Qed.

End SplitFacts.

(** ** utils/path.ts *)
Section PathFacts.
Import Props Linter PathUtil Notions.
Variable platform : string.

Lemma upper_char_idempotent c : Text.upper_char (Text.upper_char c) = Text.upper_char c.
Proof.
  unfold Text.upper_char. destruct (Text.is_lower c) eqn:E; [|by rewrite E].
  unfold Text.is_lower in *. apply andb_true_iff in E as [E1%Nat.leb_le E2%Nat.leb_le].
  rewrite nat_ascii_embedding by lia.
  destruct (97 <=? nat_of_ascii c - 32)%nat eqn:E3; [apply Nat.leb_le in E3; lia | done].
Qed.

(** X6. Off Windows the path is returned as it is.  On a path that
    starts with an ASCII character, as a drive letter is, fixing the
    drive letter is idempotent and touches the first character only: on
    Windows that character is put in upper case, and the rest and the
    length of the path are kept. *)
Theorem fixDriveCasing_first_character_only (pathToFix : string) :
  (platform ≠ "win32" → fixDriveCasingInWindows platform pathToFix = pathToFix)
  ∧ fixDriveCasingInWindows platform "" = ""
  ∧ ∀ c r, pathToFix = String c r → IsAscii c →
      fixDriveCasingInWindows platform (fixDriveCasingInWindows platform pathToFix)
      = fixDriveCasingInWindows platform pathToFix
      ∧ Js.slice_from 1 (fixDriveCasingInWindows platform pathToFix) = r
      ∧ String.length (fixDriveCasingInWindows platform pathToFix)
        = String.length pathToFix
      ∧ (platform = "win32" →
         fixDriveCasingInWindows platform pathToFix = String (Text.upper_char c) r).
Proof.
  unfold fixDriveCasingInWindows.
  destruct (bool_decide (platform = "win32")) eqn:Ep; simpl.
  - apply bool_decide_eq_true in Ep. split; [done|]. split; [done|].
    intros c r -> _. simpl. by rewrite upper_char_idempotent.
  - apply bool_decide_eq_false in Ep. split; [done|]. split; [done|].
    by intros c r -> _.
Qed.

Lemma isSafe_spec (requireFileUri : bool) (f : WorkspaceFolder) :
  (if requireFileUri then isFileUriScheme else fun _ : string => true) (folder_scheme f) = true
  ↔ SafeFolder requireFileUri f.
Proof.
  unfold SafeFolder, isFileUriScheme. destruct requireFileUri; [|done].
  rewrite bool_decide_eq_true. naive_solver.
Qed.

Lemma find_safe_spec (requireFileUri : bool) (folders : list WorkspaceFolder) :
  match List.find (fun folder =>
                     (if requireFileUri then isFileUriScheme else fun _ : string => true)
                       (folder_scheme folder)) folders with
  | Some f => f ∈ folders ∧ SafeFolder requireFileUri f
  | None => ∀ f, f ∈ folders → ¬ SafeFolder requireFileUri f
  end.
Proof.
  destruct (List.find _ folders) as [f|] eqn:Hfind.
  - apply find_some in Hfind as [Hin Hs]. split; [by apply list_elem_of_In|].
    by apply isSafe_spec.
  - intros f Hin%list_elem_of_In Hs. apply isSafe_spec in Hs.
    pose proof (find_none _ _ Hfind f Hin) as Hn. simpl in Hn. congruence.
Qed.

Lemma fallback_folder_spec (requireFileUri : bool) (ws : Workspace) :
  match
    match workspaceFolders ws with
    | Some folders =>
        if (0 <? length folders)%nat
        then match List.find (fun folder =>
                     (if requireFileUri then isFileUriScheme else fun _ : string => true)
                       (folder_scheme folder)) folders with
             | Some folder => Some (fixDriveCasingInWindows platform (fsPath folder))
             | None => None
             end
        else None
    | None => None
    end
  with
  | Some p => ∃ f folders, workspaceFolders ws = Some folders ∧ f ∈ folders
                           ∧ SafeFolder requireFileUri f
                           ∧ p = fixDriveCasingInWindows platform (fsPath f)
  | None => ∀ f folders, workspaceFolders ws = Some folders → f ∈ folders →
                         ¬ SafeFolder requireFileUri f
  end.
Proof.
  destruct (workspaceFolders ws) as [folders|]; [|by intros ? ? [=]].
  destruct folders as [|f0 fs]; simpl (0 <? _)%nat; cbv iota.
  - intros f ? [= <-] Hin. by apply elem_of_nil in Hin.
  - pose proof (find_safe_spec requireFileUri (f0 :: fs)) as H.
    destruct (List.find _ (f0 :: fs)) as [f|].
    + destruct H as [Hin Hs]. by exists f, (f0 :: fs).
    + intros f ? [= <-]. apply H.
Qed.

Lemma getWorkspaceFolderPath_spec (ws : Workspace) (uri : option string)
    (requireFileUri : bool) :
  (∀ p, getWorkspaceFolderPath platform ws uri requireFileUri = Some p →
        ∃ f, Candidate ws uri f ∧ SafeFolder requireFileUri f
             ∧ p = fixDriveCasingInWindows platform (fsPath f))
  ∧ (getWorkspaceFolderPath platform ws uri requireFileUri = None
     ↔ ∀ f, Candidate ws uri f → ¬ SafeFolder requireFileUri f).
Proof.
  unfold getWorkspaceFolderPath.
  pose proof (fallback_folder_spec requireFileUri ws) as Hfb.
  assert (∀ w : WorkspaceFolder,
            (if requireFileUri then isFileUriScheme else fun _ : string => true)
              (folder_scheme w) = true ↔ SafeFolder requireFileUri w) as Hsafe
    by (intros w; apply isSafe_spec).
  destruct uri as [u|]; [destruct (getWorkspaceFolder ws u) as [w|] eqn:Hw|].
  - specialize (Hsafe w).
    destruct ((if requireFileUri then isFileUriScheme else fun _ : string => true)
                (folder_scheme w)) eqn:Ew.
    + split.
      * intros p [= <-]. exists w. split; [left; by exists u|]. split; [by apply Hsafe | done].
      * split; [done|]. intros H. destruct (H w); [left; by exists u | by apply Hsafe].
    + assert (¬ SafeFolder requireFileUri w) as Hw' by (rewrite <- Hsafe; congruence).
      destruct (match workspaceFolders ws with Some _ => _ | None => _ end) as [q|].
      * destruct Hfb as (f & folders & H1 & H2 & H3 & H4). split.
        -- intros p [= <-]. exists f. split; [right; by exists folders | done].
        -- split; [done|]. intros H. destruct (H f); [right; by exists folders | done].
      * split; [done|]. split; [|done].
        intros _ f [(? & [= <-] & Hu)|(folders & H1 & H2)]; [congruence | by eapply Hfb].
  - destruct (match workspaceFolders ws with Some _ => _ | None => _ end) as [q|].
    + destruct Hfb as (f & folders & H1 & H2 & H3 & H4). split.
      * intros p [= <-]. exists f. split; [right; by exists folders | done].
      * split; [done|]. intros H. destruct (H f); [right; by exists folders | done].
    + split; [done|]. split; [|done].
      intros _ f [(? & [= <-] & Hu)|(folders & H1 & H2)]; [congruence | by eapply Hfb].
  - destruct (match workspaceFolders ws with Some _ => _ | None => _ end) as [q|].
    + destruct Hfb as (f & folders & H1 & H2 & H3 & H4). split.
      * intros p [= <-]. exists f. split; [right; by exists folders | done].
      * split; [done|]. intros H. destruct (H f); [right; by exists folders | done].
    + split; [done|]. split; [|done].
      intros _ f [(? & [=] & _)|(folders & H1 & H2)]. by eapply Hfb.
Qed.

(** X7. A workspace folder path, when there is one, is the (drive-fixed)
    path of the folder containing the URI or of a folder of the
    workspace, and with [requireFileUri] that folder has the [file]
    scheme.  There is none exactly when no such folder may be used. *)
Theorem getWorkspaceFolderPath_from_safe_folder (ws : Workspace) (uri : option string)
    (requireFileUri : bool) :
  (∀ p, getWorkspaceFolderPath platform ws uri requireFileUri = Some p →
        ∃ f, Candidate ws uri f ∧ SafeFolder requireFileUri f
             ∧ p = fixDriveCasingInWindows platform (fsPath f))
  ∧ (getWorkspaceFolderPath platform ws uri requireFileUri = None
     ↔ ∀ f, Candidate ws uri f → ¬ SafeFolder requireFileUri f).
Proof. apply getWorkspaceFolderPath_spec. Qed.

(** X8. The working directory [runLint] hands to the tool, when there is
    one, is a directory that exists: the resolved path of a [file]
    workspace folder, or of the directory of a [file] document. *)
Theorem runLint_cwd_is_a_directory (path_dirname path_resolve : string → string)
    (stat : string → option bool) (ws : Workspace) (isUntitled : bool)
    (textDocument : TextDocument) (settings : ShellCheckSettings) (d : string) :
  runLint_cwd platform path_dirname path_resolve stat ws isUntitled textDocument settings
    = Some d →
  stat d = Some true
  ∧ ∃ c, c ≠ "" ∧ d = path_resolve c
      ∧ ((∃ f, Candidate ws (Some (uri textDocument)) f ∧ folder_scheme f = "file"
               ∧ c = fixDriveCasingInWindows platform (fsPath f))
         ∨ (useWorkspaceRootAsCwd settings = false ∧ isUntitled = false
            ∧ scheme textDocument = "file" ∧ c = path_dirname (fileName textDocument))).
Proof.
  unfold runLint_cwd, ensureCurrentWorkingDirectory. intros H.
  destruct (if useWorkspaceRootAsCwd settings then _ else _) as [c|] eqn:Hc; [|done].
  destruct c as [|x c]; [done|]. simpl in H.
  destruct (stat (path_resolve (String x c))) as [[|]|] eqn:Hs; simplify_eq/=.
  split; [done|]. exists (String x c). split; [done|]. split; [done|].
  assert (∀ p, getWorkspaceFolderPath platform ws (Some (uri textDocument)) true = Some p →
               ∃ f, Candidate ws (Some (uri textDocument)) f ∧ folder_scheme f = "file"
                    ∧ p = fixDriveCasingInWindows platform (fsPath f)) as Hws.
  { intros p Hp.
    destruct (proj1 (getWorkspaceFolderPath_spec ws _ true) p Hp) as (f & H1 & H2 & H3).
    exists f. split; [done|]. split; [by apply H2 | done]. }
  destruct (useWorkspaceRootAsCwd settings) eqn:Hu; [left; by apply Hws|].
  unfold guessDocumentDirname in Hc.
  destruct isUntitled; [left; by apply Hws|].
  unfold isFileUriScheme in Hc. case_bool_decide; [|done].
  right. by simplify_eq.
Qed.

Lemma not_Contains_cons_intro c r sep :
  Js.startsWith (String c r) sep = false → ¬ Contains r sep → ¬ Contains (String c r) sep.
Proof.
  intros Hs Hr (pre & post & H). destruct pre as [|x pre].
  - rewrite app_nil_l in H. rewrite H, startsWith_app in Hs. done.
  - rewrite app_cons in H. injection H as _ H. destruct Hr. by exists pre, post.
Qed.

Lemma not_includes text phrase : Js.includes text phrase = false → ¬ Contains text phrase.
Proof. intros H Hc%includes_spec. congruence. Qed.

(** X9. Substituting the workspace placeholders leaves a path without
    placeholders as it is, and replaces a leading [${workspaceFolder}] or
    [${workspaceRoot}] by the folder: the explicit one, else the folder
    of the active editor, else the empty string. *)
Theorem substitutePath_placeholders (ws : Workspace) (activeUri : option string)
    (workspaceFolder : option string) (rest : string) :
  let folder :=
    default (default "" (getWorkspaceFolderPath platform ws activeUri true)) workspaceFolder in
  Js.includes rest "${workspaceRoot}" = false →
  Js.includes rest "${workspaceFolder}" = false →
  substitutePath platform ws activeUri rest workspaceFolder = rest
  ∧ substitutePath platform ws activeUri ("${workspaceFolder}" +:+ rest) workspaceFolder
    = folder +:+ rest
  ∧ (Js.includes (folder +:+ rest) "${workspaceFolder}" = false →
     substitutePath platform ws activeUri ("${workspaceRoot}" +:+ rest) workspaceFolder
     = folder +:+ rest).
Proof.
  intros folder HR%not_includes HF%not_includes.
  assert (∀ input, substitutePath platform ws activeUri input workspaceFolder
                   = Text.replaceAll "${workspaceFolder}" folder
                       (Text.replaceAll "${workspaceRoot}" folder input)) as Hdef.
  { intros input. unfold substitutePath, folder. by destruct workspaceFolder. }
  rewrite !Hdef. split; [|split].
  - rewrite (replaceAll_without_pattern "${workspaceRoot}") by done.
    by rewrite replaceAll_without_pattern.
  - rewrite (replaceAll_without_pattern "${workspaceRoot}").
    + rewrite replaceAll_at_pattern by done. by rewrite replaceAll_without_pattern.
    + rewrite !app_cons, app_nil_l.
      repeat (apply not_Contains_cons_intro; [reflexivity|]). done.
  - intros HF'%not_includes.
    rewrite replaceAll_at_pattern by done.
    rewrite (replaceAll_without_pattern "${workspaceRoot}") by done.
    by rewrite replaceAll_without_pattern.
Qed.

End PathFacts.

(** A Windows path with a lower-case drive letter. *)
Lemma fixDriveCasing_first_character_only_witness :
  PathUtil.fixDriveCasingInWindows "win32" "c:\work\a.sh" = "C:\work\a.sh"
  ∧ PathUtil.fixDriveCasingInWindows "linux" "c:\work\a.sh" = "c:\work\a.sh".
Proof.
  destruct (fixDriveCasing_first_character_only "win32" "c:\work\a.sh") as (_ & _ & H1).
  destruct (fixDriveCasing_first_character_only "linux" "c:\work\a.sh") as (H2 & _).
  destruct (H1 "c"%char ":\work\a.sh" eq_refl) as (_ & _ & _ & H3).
  - vm_compute. lia.
  - split; [by apply H3 | by apply H2].
Defined.

Lemma runLint_cwd_is_a_directory_witness :
  Fixtures.stat "/work" = Some true
  ∧ ∃ c, c ≠ "" ∧ "/work" = id c
      ∧ ((∃ f, Notions.Candidate Fixtures.workspace
                 (Some (Linter.uri Samples.document)) f
               ∧ PathUtil.folder_scheme f = "file"
               ∧ c = PathUtil.fixDriveCasingInWindows "linux" (PathUtil.fsPath f))
         ∨ (Linter.useWorkspaceRootAsCwd Samples.settings = false ∧ false = false
            ∧ Linter.scheme Samples.document = "file"
            ∧ c = Fixtures.dirname (Linter.fileName Samples.document))).
Proof.
  apply (runLint_cwd_is_a_directory "linux" Fixtures.dirname id Fixtures.stat
           Fixtures.workspace false Samples.document Samples.settings "/work").
  reflexivity.
Defined.

Lemma substitutePath_placeholders_witness :
  PathUtil.substitutePath "linux" Fixtures.workspace None "bin/shellcheck" None
  = "bin/shellcheck"
  ∧ PathUtil.substitutePath "linux" Fixtures.workspace None
      ("${workspaceFolder}" +:+ "/bin/shellcheck") None
    = "/work" +:+ "/bin/shellcheck".
Proof.
  destruct (substitutePath_placeholders "linux" Fixtures.workspace None None "bin/shellcheck"
              eq_refl eq_refl) as (H1 & _ & _).
  destruct (substitutePath_placeholders "linux" Fixtures.workspace None None "/bin/shellcheck"
              eq_refl eq_refl) as (_ & H2 & _).
  split; [exact H1 | exact H2].
Defined.

(** ** utils/filematcher.ts *)
Section MatcherFacts.
Import Props Linter FileMatcher.
Variable minimatch : string → string → bool.

Lemma charAt_is_app p c r x :
  charAt_is (String.length p) (p +:+ String c r) x = bool_decide (c = x).
Proof. induction p as [|a p IH]; [done|]. by rewrite app_cons. Qed.

Lemma charAt_is_end p x : charAt_is (String.length p) p x = false.
Proof. by induction p as [|a p IH]. Qed.

Lemma slice_from_succ p c r :
  Js.slice_from (String.length p + 1) (p +:+ String c r) = r.
Proof. induction p as [|a p IH]; [done|]. by rewrite app_cons. Qed.

Lemma slice_from_suffix n s : ∃ pre, s = pre +:+ Js.slice_from n s.
Proof. exists (Js.slice_to n s). by rewrite slice_to_from. Qed.

Lemma startsWith_refl s : Js.startsWith s s = true.
Proof. induction s as [|a s IH]; [done|]. simpl. by rewrite decide_True. Qed.

Lemma slice_from_length s : Js.slice_from (String.length s) s = "".
Proof. by induction s as [|a s IH]. Qed.

Lemma nonempty_true s : s ≠ "" → nonempty s = true.
Proof. by destruct s. Qed.

(** X10. The path relative to a folder is always a suffix of the path.
    Below a non-empty folder it is what follows the folder and one [/];
    a path that merely starts with the folder's text loses that text
    all the same. *)
Theorem relativeTo_strips_folder (folder : string) :
  (∀ fsPath root, ∃ pre, fsPath = pre +:+ relativeTo fsPath root)
  ∧ (folder ≠ "" →
     (∀ rest, relativeTo (folder +:+ "/" +:+ rest) (Some folder) = rest)
     ∧ relativeTo folder (Some folder) = ""
     ∧ (∀ c r, c ≠ "/"%char → relativeTo (folder +:+ String c r) (Some folder) = String c r)
     ∧ (∀ fsPath, Js.startsWith fsPath folder = false →
                  relativeTo fsPath (Some folder) = fsPath)).
Proof.
  split.
  - intros fsPath [root|]; unfold relativeTo; [|by exists ""].
    destruct (nonempty root && Js.startsWith fsPath root); [|by exists ""].
    apply slice_from_suffix.
  - intros Hne. unfold relativeTo. rewrite (nonempty_true _ Hne). simpl.
    split; [|split; [|split]].
    + intros rest. change ("/" +:+ rest) with (String "/" rest).
      rewrite startsWith_app, length_app_string. simpl.
      rewrite (charAt_is_app folder "/" rest "/"), bool_decide_eq_true_2 by done.
      destruct (String.length folder <? _)%nat eqn:E.
      * apply slice_from_succ.
      * apply Nat.ltb_ge in E. lia.
    + rewrite startsWith_refl, Nat.ltb_irrefl. simpl. apply slice_from_length.
    + intros c r Hc. rewrite startsWith_app, charAt_is_app.
      rewrite bool_decide_eq_false_2 by done. rewrite andb_false_r.
      apply slice_from_app.
    + by intros fsPath ->.
Qed.

Lemma relativeTo_strips_folder_witness :
  relativeTo ("/work" +:+ "/" +:+ "bin/run.sh") (Some "/work") = "bin/run.sh"
  ∧ relativeTo ("/work" +:+ "space/run.sh") (Some "/work") = "space/run.sh".
Proof.
  destruct (relativeTo_strips_folder "/work") as [_ H].
  destruct H as (H1 & _ & H2 & _); [done|].
  split; [apply H1 | by apply H2].
Defined.

(** X11. The answer of [excludes] for a path is remembered: asking again,
    for whatever root, gives the first answer and changes nothing.  The
    first call leaves the patterns and the answers for other paths
    alone. *)
Theorem excludes_remembers_answer (fsPath : string) (root root' : option string) (m : t) :
  let asked := excludes minimatch fsPath root m in
  excludes minimatch fsPath root' (snd asked) = asked
  ∧ excludePatterns (snd asked) = excludePatterns m
  ∧ ∀ other, other ≠ fsPath → excludeCache (snd asked) !! other = excludeCache m !! other.
Proof.
  unfold excludes. destruct fsPath as [|c p]; [done|]. simpl.
  destruct (excludeCache m !! String c p) as [cached|] eqn:E; simpl.
  - by rewrite E.
  - rewrite lookup_insert_eq. split; [done|]. split; [done|].
    intros other Ho. by rewrite lookup_insert_ne.
Qed.

(** X12. Once configured, and asked for the first time, the matcher
    excludes the empty path and the paths that, relative to the root,
    match a pattern the setting maps to [true]; nothing else. *)
Theorem excludes_after_configure (exclude : option (list (string * bool)))
    (fsPath : string) (root : option string) (m : t) :
  fst (excludes minimatch fsPath root (configure exclude m)) = true
  ↔ fsPath = ""
    ∨ ∃ entries pattern, exclude = Some entries ∧ (pattern, true) ∈ entries
                         ∧ minimatch (relativeTo fsPath root) pattern = true.
Proof.
  unfold excludes, configure. destruct fsPath as [|c p]; simpl; [naive_solver|].
  rewrite lookup_empty. simpl. unfold matches. rewrite existsb_exists. split.
  - intros (pattern & Hin & Hm). right. unfold pickTrueKeys in Hin.
    destruct exclude as [entries|]; [|done].
    apply in_map_iff in Hin as ([k v] & <- & Hf). apply filter_In in Hf as [Hf Hv].
    simpl in *. subst v. exists entries, k. split; [done|]. split; [|done].
    by apply list_elem_of_In.
  - intros [|(entries & pattern & -> & Hin & Hm)]; [done|].
    exists pattern. split; [|done]. unfold pickTrueKeys.
    apply in_map_iff. exists (pattern, true). split; [done|].
    apply filter_In. split; [|done]. by apply list_elem_of_In.
Qed.

End MatcherFacts.

(** ** linter.ts: the script handed to the tool *)
Section ScriptText.
Import Props Editor Runs Conditions.

Lemma join_cons_head sep c f fs :
  Js.join sep (String c f :: fs) = String c (Js.join sep (f :: fs)).
Proof. by destruct fs. Qed.

Lemma replaceAll_char_free (c d : ascii) (s : string) :
  d ≠ c → AllChars (λ x, x ≠ c) (Text.replaceAll (String c "") (String d "") s).
Proof.
  intros Hd. unfold Text.replaceAll, Text.split.
  induction s as [|x s IH]; [done|].
  cbn [Text.split_go Js.startsWith]. destruct (decide (c = x)) as [<-|Hx].
  - simpl (String.length _ - 1). rewrite join_cons_nonempty by apply split_go_nonempty.
    rewrite app_nil_l, app_cons, app_nil_l. by split.
  - pose proof (split_go_nonempty (String c "") s 0) as Hne.
    destruct (Text.split_go (String c "") 0 s) as [|f fs]; [done|].
    rewrite join_cons_head. split; [congruence | done].
Qed.

Lemma char_free_not_Contains (c : ascii) (s phrase : string) :
  AllChars (λ x, x ≠ c) s → ¬ Contains s (String c phrase).
Proof.
  intros H (pre & post & ->). apply AllChars_app in H as [_ H].
  rewrite app_cons in H. by destruct H.
Qed.

Lemma replaceAll_skip_char pattern replacement c r :
  Js.startsWith (String c r) pattern = false →
  Text.replaceAll pattern replacement (String c r)
  = String c (Text.replaceAll pattern replacement r).
Proof.
  intros H. unfold Text.replaceAll, Text.split. cbn [Text.split_go]. rewrite H.
  pose proof (split_go_nonempty pattern r 0) as Hne.
  destruct (Text.split_go pattern 0 r) as [|f fs]; [done|]. apply join_cons_head.
Qed.

Lemma startsWith_other_char c x r p :
  c ≠ x → Js.startsWith (String x r) (String c p) = false.
Proof. intros H. simpl. by rewrite decide_False. Qed.

(** X13. The script handed to the tool is the text with every CR LF
    pair and every other carriage return turned into one line feed, and
    all else kept.  So it has no carriage return, and a text without
    carriage returns is handed over as it is. *)
Theorem script_has_no_carriage_return (text : string) :
  AllChars NoCR (script text)
  ∧ (AllChars NoCR text → script text = text)
  ∧ script (script text) = script text
  ∧ (∀ c r, c ≠ CR → script (String c r) = String c (script r))
  ∧ (∀ r, script (String CR (String LF r)) = String LF (script r))
  ∧ (∀ c r, c ≠ LF → script (String CR (String c r)) = String LF (script (String c r)))
  ∧ script (String CR "") = String LF "".
Proof.
  assert (AllChars NoCR (script text)) as H1 by (by apply replaceAll_char_free).
  assert (∀ t, AllChars NoCR t → script t = t) as H2.
  { intros t Ht. unfold script.
    rewrite (replaceAll_without_pattern (String CR (String LF ""))).
    - apply replaceAll_without_pattern. by apply char_free_not_Contains.
    - by apply char_free_not_Contains. }
  split; [done|]. split; [apply H2|]. split; [by apply H2|].
  split; [|split; [|split]].
  - intros c r Hc. unfold script.
    rewrite (replaceAll_skip_char (String CR (String LF ""))) by (by apply startsWith_other_char).
    by rewrite replaceAll_skip_char by (by apply startsWith_other_char).
  - intros r. unfold script.
    change (String CR (String LF r)) with (String CR (String LF "") +:+ r).
    rewrite replaceAll_at_pattern by done. rewrite app_cons, app_nil_l.
    by rewrite replaceAll_skip_char by done.
  - intros c r Hc. unfold script.
    rewrite (replaceAll_skip_char (String CR (String LF "")) _ CR).
    + change (String CR ?x) with (String CR "" +:+ x).
      by rewrite replaceAll_at_pattern by done.
    + cbn [Js.startsWith]. rewrite decide_True by reflexivity.
      rewrite decide_False; [done | congruence].
  - done.
Qed.

End ScriptText.

(** ** linter.ts: what a run leaves behind *)
Section LintRuns.
Import Thrown Editor Linter Runs Conditions.
Variable parse : string → outcome (list ParseResult).

Lemma showShellCheckError_frame err p selected st :
  let after := fst (showShellCheckError err p selected st) in
  settingsByUri after = settingsByUri st
  ∧ toolStatusByPath after = toolStatusByPath st
  ∧ diagnosticCollection after = diagnosticCollection st
  ∧ codeActionCollection after = codeActionCollection st.
Proof.
  unfold showShellCheckError, showShellCheckError_answered.
  destruct (showShellCheckError_shown err p st) as [[message items]|]; [|done].
  destruct (errorLooksLikeMissingExecutable err && nonempty p);
    repeat case_bool_decide; done.
Qed.

Lemma handleShellCheckExecutionError_frame error p selected st :
  let after := fst (handleShellCheckExecutionError error p selected st) in
  settingsByUri after = settingsByUri st
  ∧ toolStatusByPath after = <[p := toolStatusByError error]> (toolStatusByPath st)
  ∧ diagnosticCollection after = diagnosticCollection st
  ∧ codeActionCollection after = codeActionCollection st.
Proof.
  unfold handleShellCheckExecutionError.
  pose proof (showShellCheckError_frame error p selected st) as H.
  destruct (showShellCheckError error p selected st) as [st' fx]. simpl in *.
  destruct H as (H1 & H2 & H3 & H4). by rewrite H2.
Qed.

Lemma setResultCollections_other uri results st :
  settingsByUri (setResultCollections uri results st) = settingsByUri st
  ∧ toolStatusByPath (setResultCollections uri results st) = toolStatusByPath st
  ∧ notifiedMissingExecutable (setResultCollections uri results st)
    = notifiedMissingExecutable st
  ∧ ∀ other, other ≠ uri →
      diagnosticCollection (setResultCollections uri results st) !! other
      = diagnosticCollection st !! other
      ∧ codeActionCollection (setResultCollections uri results st) !! other
        = codeActionCollection st !! other.
Proof.
  unfold setResultCollections.
  destruct results as [[|r rs]|]; simpl; repeat split; try done;
    by (rewrite lookup_delete_ne || rewrite lookup_insert_ne).
Qed.

Lemma runLint_not_ready textDocument settings spawned selected st :
  (∀ v, toolStatusByPath st !! path (executable settings) ≠ Some (Ready v)) →
  runLint parse textDocument settings spawned selected st = (st, []).
Proof.
  intros H. unfold runLint.
  destruct (toolStatusByPath st !! path (executable settings)) as [[v|r]|] eqn:E; try done.
  by destruct (H v).
Qed.

Lemma runLint_failed textDocument settings spawned error selected st version :
  toolStatusByPath st !! path (executable settings) = Some (Ready version) →
  RunFails parse spawned error →
  runLint parse textDocument settings spawned selected st
  = handleShellCheckExecutionError error (path (executable settings)) selected st.
Proof.
  intros Hr Hf. unfold runLint. rewrite Hr.
  destruct Hf as (output & -> & Hne & Hp).
  simpl. destruct output as [|c output]; [done|]. simpl. by rewrite Hp.
Qed.

(** X14. A run whose output the parser throws on leaves the diagnostics
    and the cached actions as they were and records the executable as
    unavailable; from then on no run for that executable does anything,
    and no lint is requested for a document whose settings name it. *)
Theorem failed_run_stops_further_runs (textDocument : TextDocument)
    (settings : ShellCheckSettings) (spawned : outcome (option string)) (error : value)
    (selected : option string) (st : Provider) (version : ToolCheck.SemVer) :
  toolStatusByPath st !! path (executable settings) = Some (Ready version) →
  RunFails parse spawned error →
  let after := fst (runLint parse textDocument settings spawned selected st) in
  toolStatusByPath after !! path (executable settings) = Some (toolStatusByError error)
  ∧ diagnosticCollection after = diagnosticCollection st
  ∧ codeActionCollection after = codeActionCollection st
  ∧ (∀ textDocument' settings' spawned' selected',
       path (executable settings') = path (executable settings) →
       runLint parse textDocument' settings' spawned' selected' after = (after, []))
  ∧ (∀ allowed textDocument' extraCondition fresh probe selected' excluded ss settings',
       provider ss = after →
       settingsByUri after !! uri textDocument' = Some settings' →
       path (executable settings') = path (executable settings) →
       triggerLint allowed textDocument' extraCondition fresh probe selected' excluded ss
       = (ss, [], NoRequest)).
Proof.
  intros Hr Hf after. unfold after. rewrite (runLint_failed _ _ _ error _ _ version) by done.
  destruct (handleShellCheckExecutionError_frame error (path (executable settings))
              selected st) as (H1 & H2 & H3 & H4).
  set (st' := fst (handleShellCheckExecutionError error (path (executable settings))
                     selected st)) in *.
  assert (toolStatusByPath st' !! path (executable settings) = Some (toolStatusByError error))
    as Hs by (by rewrite H2, lookup_insert_eq).
  split; [done|]. split; [done|]. split; [done|]. split.
  - intros textDocument' settings' spawned' selected' Hp.
    apply runLint_not_ready. intros v. rewrite Hp, Hs.
    destruct (toolStatusByError_unavailable error) as [r ->]. done.
  - intros allowed textDocument' extraCondition fresh probe selected' excluded ss settings'
      Hss Hset Hp.
    unfold triggerLint. destruct allowed; [|done]. simpl.
    unfold getSettings. rewrite Hss, Hset.
    rewrite bool_decide_eq_true_2 by (by eexists).
    assert (with_provider st' ss = ss) as -> by (destruct ss; simpl in *; by subst).
    destruct (extraCondition settings'); [|done]. simpl.
    rewrite Hp, Hs. destruct (toolStatusByError_unavailable error) as [r ->]. done.
Qed.

(** X15. A run changes nothing but the results of its own document or
    the status of its own executable; when the executable is not known
    to be ready it changes nothing at all. *)
Theorem runLint_touches_only_its_document (textDocument : TextDocument)
    (settings : ShellCheckSettings) (spawned : outcome (option string))
    (selected : option string) (st : Provider) :
  let after := fst (runLint parse textDocument settings spawned selected st) in
  settingsByUri after = settingsByUri st
  ∧ (∀ other, other ≠ uri textDocument →
       diagnosticCollection after !! other = diagnosticCollection st !! other
       ∧ codeActionCollection after !! other = codeActionCollection st !! other)
  ∧ (∀ p, p ≠ path (executable settings) →
       toolStatusByPath after !! p = toolStatusByPath st !! p)
  ∧ ((∀ v, toolStatusByPath st !! path (executable settings) ≠ Some (Ready v)) →
     runLint parse textDocument settings spawned selected st = (st, [])).
Proof.
  intros after. split; [|split; [|split]]; [| | |apply runLint_not_ready].
  all: unfold after, runLint.
  all: destruct (toolStatusByPath st !! path (executable settings)) as [[v|r]|]; try done.
  all: destruct (match spawned with Returns _ => _ | Throws _ => _ end) as [result|error].
  all: try (destruct (setResultCollections_other (uri textDocument) result st)
              as (S1 & S2 & S3 & S4)).
  all: try (destruct (handleShellCheckExecutionError_frame error
                        (path (executable settings)) selected st) as (E1 & E2 & E3 & E4)).
  all: simpl in *; try done.
  - intros other Ho. by rewrite E3, E4.
  - intros p Hp. by rewrite S2.
  - intros p Hp. by rewrite E2, lookup_insert_ne.
Qed.

End LintRuns.

(** The tool prints something that is no JSON. *)
Lemma failed_run_stops_further_runs_witness :
  Linter.toolStatusByPath
    (fst (Runs.runLint Conditions.parse_rejects Samples.document Samples.settings
            (Thrown.Returns (Some "shellcheck: unrecognized option")) None
            Conditions.ready_provider))
    !! "shellcheck"
  = Some (Linter.Unavailable Linter.executionFailed)
  ∧ Linter.diagnosticCollection
      (fst (Runs.runLint Conditions.parse_rejects Samples.document Samples.settings
              (Thrown.Returns (Some "shellcheck: unrecognized option")) None
              Conditions.ready_provider))
    = Linter.diagnosticCollection Conditions.ready_provider.
Proof.
  destruct (failed_run_stops_further_runs Conditions.parse_rejects Samples.document
              Samples.settings (Thrown.Returns (Some "shellcheck: unrecognized option"))
              (Thrown.new_Error "Unexpected token in JSON at position 0") None
              Conditions.ready_provider Samples.version_0_9_0) as (H1 & H2 & _).
  - reflexivity.
  - exists "shellcheck: unrecognized option". split; [reflexivity|].
    split; [discriminate | reflexivity].
  - split; [exact H1 | exact H2].
Defined.

(** ** linter.ts: when a lint is requested *)
Section LintRequests.
Import Thrown Editor Linter SettingsKeys Runs Conditions.

Lemma updateConfiguration_frame uri settings probe selected st :
  let after := fst (updateConfiguration uri settings probe selected st) in
  settingsByUri after = <[uri := settings]> (settingsByUri st)
  ∧ diagnosticCollection after = delete uri (diagnosticCollection st)
  ∧ codeActionCollection after = delete uri (codeActionCollection st)
  ∧ (enabled settings = true →
     ∃ status, toolStatusByPath after !! path (executable settings) = Some status
               ∧ (toolStatusByPath st !! path (executable settings) = None →
                  status = match probe with
                           | Returns version => Ready version
                           | Throws error => toolStatusByError error
                           end))
  ∧ (enabled settings = false
     ∨ is_Some (toolStatusByPath st !! path (executable settings)) →
     toolStatusByPath after = toolStatusByPath st
     ∧ snd (updateConfiguration uri settings probe selected st) = []
     ∧ notifiedMissingExecutable after = notifiedMissingExecutable st).
Proof.
  unfold updateConfiguration. simpl.
  destruct (enabled settings) eqn:Hen; simpl.
  - destruct (toolStatusByPath st !! path (executable settings)) as [status|] eqn:Hs.
    + rewrite bool_decide_eq_true_2 by (by eexists). simpl.
      split_and!; try done. intros _. by exists status.
    + rewrite bool_decide_eq_false_2 by (by intros [? ?]). simpl.
      destruct probe as [version|error].
      * simpl. split_and!; try done.
        -- intros _. eexists. by rewrite lookup_insert_eq.
        -- intros [|[? ?]]; done.
      * pose proof (showShellCheckError_frame error (path (executable settings)) selected
                      (setResultCollections uri None
                         (with_settingsByUri (insert uri settings) st))) as Hf.
        destruct (showShellCheckError _ _ _ _) as [st' fx]. simpl in *.
        destruct Hf as (H1 & H2 & H3 & H4). split_and!; try done.
        -- intros _. eexists. by rewrite H2, lookup_insert_eq.
        -- intros [|[? ?]]; done.
  - split_and!; try done.
Qed.

(** X16. Reading the settings of a document stores them and drops the
    document's results.  The executable is probed only when the linter is
    enabled and the path has no status yet; otherwise the statuses stay,
    nothing is shown, and the outcome of a probe does not matter. *)
Theorem updateConfiguration_probes_once (uri : string) (settings : ShellCheckSettings)
    (probe : outcome ToolCheck.SemVer) (selected : option string) (st : Provider) :
  let after := fst (updateConfiguration uri settings probe selected st) in
  settingsByUri after !! uri = Some settings
  ∧ diagnosticCollection after !! uri = None
  ∧ codeActionCollection after !! uri = None
  ∧ (enabled settings = true →
     is_Some (toolStatusByPath after !! path (executable settings)))
  ∧ (enabled settings = false
     ∨ is_Some (toolStatusByPath st !! path (executable settings)) →
     toolStatusByPath after = toolStatusByPath st
     ∧ snd (updateConfiguration uri settings probe selected st) = []
     ∧ ∀ probe', updateConfiguration uri settings probe' selected st
                 = updateConfiguration uri settings probe selected st).
Proof.
  intros after.
  destruct (updateConfiguration_frame uri settings probe selected st)
    as (H1 & H2 & H3 & H4 & H5).
  fold after in H1, H2, H3, H4, H5.
  rewrite H1, H2, H3, lookup_insert_eq, !lookup_delete_eq.
  split_and!; try done.
  - intros Hen. destruct (H4 Hen) as (status & -> & _). by eexists.
  - intros H. split_and!; [by apply H5 | by apply H5 |].
    intros probe'. unfold updateConfiguration. simpl.
    destruct H as [-> | Hs]; [done|].
    rewrite bool_decide_eq_true_2 by done. by rewrite andb_false_r.
Qed.

Lemma checkIfConfigurationChanged_loop_spec affectsConfiguration keys :
  checkIfConfigurationChanged_loop affectsConfiguration keys = true
  ↔ ∃ key, key ∈ keys ∧ affectsConfiguration ("vscode-shell.shellcheck." +:+ key) = true.
Proof.
  induction keys as [|k keys IH]; simpl.
  - split; [done|]. intros (key & Hin & _). by apply elem_of_nil in Hin.
  - change (SHELLCHECK_SECTION +:+ "." +:+ k) with ("vscode-shell.shellcheck." +:+ k).
    destruct (affectsConfiguration ("vscode-shell.shellcheck." +:+ k)) eqn:E.
    + split; [|done]. intros _. exists k. split; [left | done].
    + rewrite IH. split.
      * intros (key & Hin & Hk). exists key. split; [by right | done].
      * intros (key & Hin & Hk). apply elem_of_cons in Hin as [-> | Hin]; [congruence|].
        by exists key.
Qed.

Lemma checkIfConfigurationChanged_spec affectsConfiguration :
  checkIfConfigurationChanged affectsConfiguration = true ↔ AffectsLinter affectsConfiguration.
Proof. apply checkIfConfigurationChanged_loop_spec. Qed.

(** X17. A configuration change that affects none of the nine settings
    of the linter changes nothing.  One that does empties the settings
    and the tool statuses, and keeps the diagnostics, the cached actions,
    the set of notified paths and the delayers. *)
Theorem configuration_change_resets_caches (affectsConfiguration : string → bool)
    (ss : Session) :
  (¬ AffectsLinter affectsConfiguration →
   didChangeConfiguration affectsConfiguration ss = ss)
  ∧ (AffectsLinter affectsConfiguration →
     let after := didChangeConfiguration affectsConfiguration ss in
     settingsByUri (provider after) = ∅
     ∧ toolStatusByPath (provider after) = ∅
     ∧ diagnosticCollection (provider after) = diagnosticCollection (provider ss)
     ∧ codeActionCollection (provider after) = codeActionCollection (provider ss)
     ∧ notifiedMissingExecutable (provider after) = notifiedMissingExecutable (provider ss)
     ∧ delayers after = delayers ss).
Proof.
  unfold didChangeConfiguration, onDidChangeConfiguration, handleDidChangeConfiguration.
  split.
  - intros H. destruct (checkIfConfigurationChanged affectsConfiguration) eqn:E.
    + by apply checkIfConfigurationChanged_spec in E.
    + by destruct ss.
  - intros H%checkIfConfigurationChanged_spec. by rewrite H.
Qed.

Lemma getSettings_returns uri fresh probe selected st got st' fx :
  getSettings uri fresh probe selected st = (Returns got, st', fx) →
  got = settingsByUri st' !! uri
  ∧ ((∃ s, settingsByUri st !! uri = Some s ∧ got = Some s ∧ st' = st ∧ fx = [])
     ∨ (∃ s, settingsByUri st !! uri = None ∧ fresh = Returns s ∧ got = Some s
             ∧ (st', fx) = updateConfiguration uri s probe selected st)).
Proof.
  unfold getSettings. case_bool_decide as Hhas.
  - intros [= <- <- <-]. split; [done|]. left. destruct Hhas as [s Hs]. by exists s.
  - destruct fresh as [s|e]; [|done].
    pose proof (updateConfiguration_frame uri s probe selected st) as (H1 & _).
    destruct (updateConfiguration uri s probe selected st) as [st1 fx1] eqn:Hu.
    simpl in H1.
    intros [= <- <- <-]. split; [done|]. right. exists s.
    rewrite H1, lookup_insert_eq. split_and!; try done.
    destruct (settingsByUri st !! uri) eqn:E; [|done]. destruct Hhas. by eexists.
Qed.

Lemma triggerLint_request allowed textDocument extraCondition fresh probe selected
    excluded ss ss' fx d s :
  triggerLint allowed textDocument extraCondition fresh probe selected excluded ss
  = (ss', fx, Trigger d s) →
  allowed = true ∧ extraCondition s = true ∧ enabled s = true ∧ excluded = false
  ∧ (scheme textDocument ∉ ignoreFileSchemes s)
  ∧ settingsByUri (provider ss') !! uri textDocument = Some s
  ∧ (∃ version,
       toolStatusByPath (provider ss') !! path (executable s) = Some (Ready version))
  ∧ d = default (delay_for s) (delayers ss !! uri textDocument)
  ∧ delayers ss' = <[uri textDocument := d]> (delayers ss)
  ∧ (settingsByUri (provider ss) !! uri textDocument = None → fresh = Returns s).
Proof.
  unfold triggerLint. destruct allowed; [|done]. simpl.
  destruct (getSettings (uri textDocument) fresh probe selected (provider ss))
    as [[got st] fx0] eqn:Hg.
  destruct got as [[s0|]|e]; try done.
  apply getSettings_returns in Hg as [Hgot Hg].
  destruct (extraCondition s0) eqn:Hx; simpl; [|done].
  destruct (toolStatusByPath st !! path (executable s0)) as [[v|r]|] eqn:Hst; try done.
  simpl. case_bool_decide as Hsch; [done|]. simpl.
  destruct (enabled s0) eqn:Hen; [|done]. simpl.
  destruct excluded; [done|].
  assert (settingsByUri (provider ss) !! uri textDocument = None → fresh = Returns s0)
    as Hfresh.
  { intros Hn. destruct Hg as [(s1 & H1 & _)|(s1 & _ & H2 & H3 & _)]; congruence. }
  unfold delay_for.
  destruct (delayers ss !! uri textDocument) as [d0|] eqn:Hd; intros [= <- <- <- <-]; simpl.
  - split_and!; try done; [by eexists|]. by rewrite insert_id.
  - split_and!; try done. by eexists.
Qed.

(** X18. A lint is requested only for an allowed document whose
    settings, as stored, enable the linter and meet the extra condition,
    whose scheme is not ignored, whose file is not excluded and whose
    executable is known to be ready.  The request goes to the delayer of
    the document: the one it has, or a new one with the delay its run
    trigger calls for. *)
Theorem triggerLint_requests_only_when_ready (allowed : bool) (textDocument : TextDocument)
    (extraCondition : ShellCheckSettings → bool) (fresh : outcome ShellCheckSettings)
    (probe : outcome ToolCheck.SemVer) (selected : option string) (excluded : bool)
    (ss ss' : Session) (fx : list effect) (d : nat) (s : ShellCheckSettings) :
  triggerLint allowed textDocument extraCondition fresh probe selected excluded ss
  = (ss', fx, Trigger d s) →
  allowed = true ∧ extraCondition s = true ∧ enabled s = true ∧ excluded = false
  ∧ (scheme textDocument ∉ ignoreFileSchemes s)
  ∧ settingsByUri (provider ss') !! uri textDocument = Some s
  ∧ (∃ version,
       toolStatusByPath (provider ss') !! path (executable s) = Some (Ready version))
  ∧ d = default (delay_for s) (delayers ss !! uri textDocument)
  ∧ delayers ss' = <[uri textDocument := d]> (delayers ss)
  ∧ (settingsByUri (provider ss) !! uri textDocument = None → fresh = Returns s).
Proof. apply triggerLint_request. Qed.

Lemma with_provider_id ss : with_provider (provider ss) ss = ss.
Proof. by destruct ss. Qed.

(** X19. After a configuration change that affects the linter, the next
    request for an allowed document reads the settings anew and probes
    the executable again; when the probe succeeds the lint is requested.
    The request still goes to the delayer the document already has, with
    the delay it was created with. *)
Theorem configuration_change_probes_again (affectsConfiguration : string → bool)
    (ss : Session) (textDocument : TextDocument) (s : ShellCheckSettings)
    (version : ToolCheck.SemVer) (selected : option string) :
  AffectsLinter affectsConfiguration →
  enabled s = true →
  scheme textDocument ∉ ignoreFileSchemes s →
  ∃ ss',
    triggerLint true textDocument (fun _ => true) (Returns s) (Returns version) selected
      false (didChangeConfiguration affectsConfiguration ss)
    = (ss', if bundled (executable s) then [] else [TryPromptForUpdatingTool version],
       Trigger (default (delay_for s) (delayers ss !! uri textDocument)) s)
    ∧ toolStatusByPath (provider ss') !! path (executable s) = Some (Ready version)
    ∧ settingsByUri (provider ss') !! uri textDocument = Some s.
Proof.
  intros Ha%checkIfConfigurationChanged_spec Hen Hsch.
  unfold didChangeConfiguration, onDidChangeConfiguration, handleDidChangeConfiguration.
  rewrite Ha. simpl.
  unfold triggerLint, getSettings. simpl. rewrite lookup_empty.
  rewrite bool_decide_eq_false_2 by (by intros [? ?]).
  unfold updateConfiguration. simpl. rewrite Hen, lookup_empty.
  rewrite bool_decide_eq_false_2 by (by intros [? ?]). simpl.
  rewrite !lookup_insert_eq. simpl.
  rewrite bool_decide_eq_false_2 by done. rewrite Hen. simpl. unfold delay_for.
  destruct (delayers ss !! uri textDocument) as [d0|]; simpl; eexists; split_and!;
    try done; simpl; by rewrite lookup_insert_eq.
Qed.

(** X20. For a document whose settings switch the linter off and whose
    executable has no status yet, a request that gets past the extra
    condition is rejected with a [TypeError], since the status looked up
    is missing: no probe is made for disabled settings.  When the
    executable is known to be ready, the request drops the results of
    the document and asks for no lint. *)
Theorem disabled_document_is_rejected_or_cleared (textDocument : TextDocument)
    (extraCondition : ShellCheckSettings → bool) (s : ShellCheckSettings)
    (probe : outcome ToolCheck.SemVer) (selected : option string) (excluded : bool)
    (ss : Session) :
  settingsByUri (provider ss) !! uri textDocument = None →
  enabled s = false →
  extraCondition s = true →
  (toolStatusByPath (provider ss) !! path (executable s) = None →
   ∃ ss', triggerLint true textDocument extraCondition (Returns s) probe selected excluded ss
          = (ss', [], Rejected (TypeError "ok"))
          ∧ toolStatusByPath (provider ss') = toolStatusByPath (provider ss))
  ∧ (∀ version,
       toolStatusByPath (provider ss) !! path (executable s) = Some (Ready version) →
       scheme textDocument ∉ ignoreFileSchemes s →
       ∃ ss', triggerLint true textDocument extraCondition (Returns s) probe selected
                excluded ss
              = (ss', [], NoRequest)
              ∧ diagnosticCollection (provider ss') !! uri textDocument = None
              ∧ codeActionCollection (provider ss') !! uri textDocument = None).
Proof.
  intros Hset Hen Hx.
  assert (∀ st, updateConfiguration (uri textDocument) s probe selected st
                = (setResultCollections (uri textDocument) None
                     (with_settingsByUri (insert (uri textDocument) s) st), [])) as Hu.
  { intros st. unfold updateConfiguration. by rewrite Hen. }
  split.
  - intros Hst. unfold triggerLint, getSettings. simpl. rewrite Hset.
    rewrite bool_decide_eq_false_2 by (by intros [? ?]). rewrite Hu. simpl.
    rewrite lookup_insert_eq, Hx. simpl. rewrite Hst. by eexists.
  - intros version Hst Hsch. unfold triggerLint, getSettings. simpl. rewrite Hset.
    rewrite bool_decide_eq_false_2 by (by intros [? ?]). rewrite Hu. simpl.
    rewrite lookup_insert_eq, Hx. simpl. rewrite Hst. simpl.
    rewrite bool_decide_eq_false_2 by done. rewrite Hen. simpl.
    eexists. split; [done|]. simpl. by rewrite !lookup_delete_eq.
Qed.

(** X21. A change of the text requests a lint only under the run trigger
    [onType], and never for a document of the [output] scheme; a save
    requests one only under [onSave].  Under [manual] neither does. *)
Theorem edits_and_saves_follow_the_run_trigger (allowed : bool) (textDocument : TextDocument)
    (fresh : outcome ShellCheckSettings) (probe : outcome ToolCheck.SemVer)
    (selected : option string) (excluded : bool) (ss ss' : Session) (fx : list effect)
    (d : nat) (s : ShellCheckSettings) :
  (handleDidChangeTextDocument allowed textDocument fresh probe selected excluded ss
   = (ss', fx, Trigger d s) →
   trigger s = onType ∧ scheme textDocument ≠ "output")
  ∧ (handleDidSaveTextDocument allowed textDocument fresh probe selected excluded ss
     = (ss', fx, Trigger d s) →
     trigger s = onSave).
Proof.
  split.
  - unfold handleDidChangeTextDocument. case_bool_decide as Hs; [done|].
    intros (_ & Hx & _)%triggerLint_request. split; [|done]. by destruct (trigger s).
  - unfold handleDidSaveTextDocument.
    intros (_ & Hx & _)%triggerLint_request. by destruct (trigger s).
Qed.

(** X22. Closing a document removes its settings, its diagnostics, its
    cached actions and its delayer, and leaves those of every other
    document, the tool statuses and the notified paths as they were.
    The next request for the document reads the settings anew and uses a
    new delayer with the delay they call for. *)
Theorem closing_forgets_the_document (uri' : string) (ss : Session) :
  let after := didCloseTextDocument uri' ss in
  settingsByUri (provider after) !! uri' = None
  ∧ diagnosticCollection (provider after) !! uri' = None
  ∧ codeActionCollection (provider after) !! uri' = None
  ∧ delayers after !! uri' = None
  ∧ toolStatusByPath (provider after) = toolStatusByPath (provider ss)
  ∧ notifiedMissingExecutable (provider after) = notifiedMissingExecutable (provider ss)
  ∧ (∀ other, other ≠ uri' →
       settingsByUri (provider after) !! other = settingsByUri (provider ss) !! other
       ∧ diagnosticCollection (provider after) !! other
         = diagnosticCollection (provider ss) !! other
       ∧ codeActionCollection (provider after) !! other
         = codeActionCollection (provider ss) !! other
       ∧ delayers after !! other = delayers ss !! other)
  ∧ (∀ allowed textDocument extraCondition fresh probe selected excluded ss' fx d s,
       uri textDocument = uri' →
       triggerLint allowed textDocument extraCondition fresh probe selected excluded after
       = (ss', fx, Trigger d s) →
       fresh = Returns s ∧ d = delay_for s).
Proof.
  intros after. unfold after, didCloseTextDocument, handleDidCloseTextDocument. simpl.
  rewrite !lookup_delete_eq. split_and!; try done.
  - intros other Ho. by rewrite !lookup_delete_ne.
  - intros allowed textDocument extraCondition fresh probe selected excluded ss' fx d s
      Hu Ht.
    apply triggerLint_request in Ht as (_ & _ & _ & _ & _ & _ & _ & Hd & _ & Hf).
    simpl in *. rewrite Hu in Hd, Hf. rewrite lookup_delete_eq in Hd.
    rewrite lookup_delete_eq in Hf. split; [by apply Hf | done].
Qed.

End LintRequests.

Lemma triggerLint_requests_only_when_ready_witness :
  true = true ∧ Linter.enabled Samples.settings = true
  ∧ 250 = Conditions.delay_for Samples.settings.
Proof.
  destruct (triggerLint_requests_only_when_ready true Samples.document (fun _ => true)
              (Thrown.Returns Samples.settings) (Thrown.Returns Samples.version_0_9_0)
              None false Conditions.new_Session
              (fst (fst Conditions.first_request)) (snd (fst Conditions.first_request))
              250 Samples.settings) as (H1 & _ & H3 & _ & _ & _ & _ & H8 & _).
  - reflexivity.
  - split; [exact H1 | split; [exact H3 | exact H8]].
Defined.

Lemma configuration_change_probes_again_witness :
  ∃ ss',
    Runs.triggerLint true Samples.document (fun _ => true)
      (Thrown.Returns Conditions.on_save_settings)
      (Thrown.Returns Samples.version_0_9_0) None false
      (Runs.didChangeConfiguration Conditions.run_changed
         (fst (fst Conditions.first_request)))
    = (ss', [Linter.TryPromptForUpdatingTool Samples.version_0_9_0],
       Runs.Trigger 250 Conditions.on_save_settings)
    ∧ Linter.toolStatusByPath (Runs.provider ss') !! "shellcheck"
      = Some (Linter.Ready Samples.version_0_9_0)
    ∧ Linter.settingsByUri (Runs.provider ss') !! "file:///work/deploy.bash"
      = Some Conditions.on_save_settings.
Proof.
  apply (configuration_change_probes_again Conditions.run_changed
           (fst (fst Conditions.first_request)) Samples.document
           Conditions.on_save_settings Samples.version_0_9_0 None).
  - exists "run". split; [|reflexivity]. apply (bool_decide_unpack _). vm_compute. exact I.
  - reflexivity.
  - apply (bool_decide_unpack _). vm_compute. exact I.
Defined.

Lemma disabled_document_is_rejected_or_cleared_witness :
  ∃ ss',
    Runs.triggerLint true Samples.document (fun _ => true)
      (Thrown.Returns Conditions.disabled_settings)
      (Thrown.Returns Samples.version_0_9_0) None false Conditions.new_Session
    = (ss', [], Runs.Rejected (Runs.TypeError "ok"))
    ∧ Linter.toolStatusByPath (Runs.provider ss')
      = Linter.toolStatusByPath (Runs.provider Conditions.new_Session).
Proof.
  destruct (disabled_document_is_rejected_or_cleared Samples.document (fun _ => true)
              Conditions.disabled_settings (Thrown.Returns Samples.version_0_9_0) None
              false Conditions.new_Session) as [H _].
  - reflexivity.
  - reflexivity.
  - reflexivity.
  - apply H. reflexivity.
Defined.

(** ** linter.ts: the code actions offered *)
Section CodeActions.
Import Editor Linter Actions.

Lemma startsWith_SC_nonempty ruleId : Js.startsWith ruleId "SC" = true → nonempty ruleId = true.
Proof. by destruct ruleId. Qed.

Lemma command_actions_spec (document : TextDocument) (context_diagnostics : list Diagnostic)
    (a : provided) :
  a ∈ flat_map
        (fun diagnostic =>
           match extractRuleId diagnostic with
           | None => []
           | Some ruleId =>
               if negb (nonempty ruleId) then []
               else
                 [ OpenRuleDoc ("ShellCheck: Show wiki for " +:+ ruleId)
                     (Link.getWikiUrlForRule ruleId);
                   DisableCheckForLine
                     ("ShellCheck: Disable " +:+ ruleId +:+ " for this line")
                     document ruleId (diag_range diagnostic) ]
           end)
        (List.filter (fun diagnostic => bool_decide (diag_source diagnostic = "shellcheck"))
           context_diagnostics)
  ↔ ∃ diagnostic ruleId,
      diagnostic ∈ context_diagnostics ∧ diag_source diagnostic = "shellcheck"
      ∧ diag_code diagnostic = Some ruleId ∧ Js.startsWith ruleId "SC" = true
      ∧ (a = OpenRuleDoc ("ShellCheck: Show wiki for " +:+ ruleId)
               ("https://www.shellcheck.net/wiki/" +:+ ruleId)
         ∨ a = DisableCheckForLine ("ShellCheck: Disable " +:+ ruleId +:+ " for this line")
                 document ruleId (diag_range diagnostic)).
Proof.
  rewrite list_elem_of_In, in_flat_map. split.
  - intros (diagnostic & [Hin Hs]%filter_In & Ha).
    apply bool_decide_eq_true in Hs. unfold extractRuleId in Ha.
    destruct (diag_code diagnostic) as [value|] eqn:Hc; [|done].
    destruct (Js.startsWith value "SC") eqn:Hsc; [|done].
    rewrite (startsWith_SC_nonempty _ Hsc) in Ha. simpl in Ha.
    exists diagnostic, value. split; [by apply list_elem_of_In|].
    split_and!; try done.
    unfold Link.getWikiUrlForRule in Ha. rewrite (normalized_SC _ Hsc) in Ha.
    destruct Ha as [<- | [<- | []]]; [by left | by right].
  - intros (diagnostic & ruleId & Hin & Hs & Hc & Hsc & Ha).
    exists diagnostic. split.
    + apply filter_In. split; [by apply list_elem_of_In | by apply bool_decide_eq_true].
    + unfold extractRuleId. rewrite Hc, Hsc, (startsWith_SC_nonempty _ Hsc). simpl.
      unfold Link.getWikiUrlForRule. rewrite (normalized_SC _ Hsc).
      destruct Ha as [-> | ->]; [by left | right; by left].
Qed.

(** X23. The provider offers a wiki action and a disable action exactly
    for the ShellCheck diagnostics of the request whose code is an object
    with a string value that starts with [SC].  The wiki action opens the
    page named by that code as it is, and the disable action carries the
    document, the code and the range of the diagnostic. *)
Theorem command_actions_follow_the_diagnostics (st : Provider) (document : TextDocument)
    (range : Range) (context_diagnostics : list Diagnostic) :
  (∀ title url,
     OpenRuleDoc title url ∈ provideCodeActions st document range context_diagnostics
     ↔ ∃ diagnostic ruleId,
         diagnostic ∈ context_diagnostics ∧ diag_source diagnostic = "shellcheck"
         ∧ diag_code diagnostic = Some ruleId ∧ Js.startsWith ruleId "SC" = true
         ∧ title = "ShellCheck: Show wiki for " +:+ ruleId
         ∧ url = "https://www.shellcheck.net/wiki/" +:+ ruleId)
  ∧ (∀ title document' ruleId range',
       DisableCheckForLine title document' ruleId range'
         ∈ provideCodeActions st document range context_diagnostics
       ↔ ∃ diagnostic,
           diagnostic ∈ context_diagnostics ∧ diag_source diagnostic = "shellcheck"
           ∧ diag_code diagnostic = Some ruleId ∧ Js.startsWith ruleId "SC" = true
           ∧ title = "ShellCheck: Disable " +:+ ruleId +:+ " for this line"
           ∧ document' = document ∧ range' = diag_range diagnostic).
Proof.
  unfold provideCodeActions. split.
  - intros title url. rewrite elem_of_app, command_actions_spec. split.
    + intros [(diagnostic & ruleId & H1 & H2 & H3 & H4 & [H5 | H5]) | H]; simplify_eq.
      * by exists diagnostic, ruleId.
      * apply list_elem_of_fmap in H as (? & ? & ?). done.
    + intros (diagnostic & ruleId & H1 & H2 & H3 & H4 & -> & ->).
      left. exists diagnostic, ruleId. split_and!; try done. by left.
  - intros title document' ruleId range'. rewrite elem_of_app, command_actions_spec. split.
    + intros [(diagnostic & ruleId' & H1 & H2 & H3 & H4 & [H5 | H5]) | H]; simplify_eq.
      * by exists diagnostic.
      * apply list_elem_of_fmap in H as (? & ? & ?). done.
    + intros (diagnostic & H1 & H2 & H3 & H4 & -> & -> & ->).
      left. exists diagnostic, ruleId. split_and!; try done. by right.
Qed.

(** X24. The cached actions the provider offers for a range are the
    actions of the results last stored for the document whose diagnostic
    range contains the range; once the results are cleared it offers
    none. *)
Theorem cached_actions_follow_the_results (st : Provider) (document : TextDocument)
    (range : Range) (context_diagnostics : list Diagnostic)
    (results : option (list ParseResult)) (action : CodeAction) :
  Cached action
    ∈ provideCodeActions (setResultCollections (uri document) results st) document range
        context_diagnostics
  ↔ ∃ rs result,
      results = Some rs ∧ result ∈ rs ∧ codeAction result = Some action
      ∧ contains (diag_range (diagnostic result)) range = true.
Proof.
  unfold provideCodeActions. rewrite elem_of_app, command_actions_spec.
  rewrite list_elem_of_fmap.
  assert (default [] (codeActionCollection (setResultCollections (uri document) results st)
                        !! uri document)
          = default [] results) as ->.
  { unfold setResultCollections. destruct results as [[|r rs]|]; simpl.
    - by rewrite lookup_delete_eq.
    - by rewrite lookup_insert_eq.
    - by rewrite lookup_delete_eq. }
  split.
  - intros [(? & ? & _ & _ & _ & _ & [? | ?]) | (a & [= <-] & Ha)]; try done.
    apply list_elem_of_omap in Ha as (result & Hin & Hc).
    apply list_elem_of_In, filter_In in Hin as [Hin [_ Hr]%andb_true_iff].
    destruct results as [rs|]; [|done].
    exists rs, result. split_and!; try done. by apply list_elem_of_In.
  - intros (rs & result & -> & Hin & Hc & Hr). right. exists action. split; [done|].
    apply list_elem_of_omap. exists result. split; [|done].
    apply list_elem_of_In, filter_In. split; [by apply list_elem_of_In|].
    apply andb_true_iff. split; [|done]. apply bool_decide_eq_true. by rewrite Hc.
Qed.

End CodeActions.

(** ** fix-all.ts: what the aggregated edit is made of *)
Section FixAllEdits.
Import Editor FixAll.

Lemma get_set_eq uri edits w :
  get uri (set uri edits w) = Some (default [] (get uri w) ++ edits).
Proof.
  induction w as [|[u es] w IH]; simpl.
  - by rewrite decide_True.
  - destruct (decide (u = uri)) as [->|Hne]; simpl.
    + by rewrite decide_True.
    + by rewrite decide_False.
Qed.

Lemma get_set_ne u uri edits w : u ≠ uri → get u (set uri edits w) = get u w.
Proof.
  intros Hne. induction w as [|[u' es] w IH]; simpl.
  - by rewrite decide_False.
  - destruct (decide (u' = uri)) as [->|Hne']; simpl.
    + by rewrite !decide_False.
    + destruct (decide (u' = u)); [done | apply IH].
Qed.

Lemma get_elem_of u es w : get u w = Some es → (u, es) ∈ w.
Proof.
  induction w as [|[u' es'] w IH]; simpl; [done|].
  destruct (decide (u' = u)) as [->|Hne].
  - intros [= ->]. left.
  - intros H. right. by apply IH.
Qed.

Lemma mergeEdits_grows source : ∀ target u es,
  get u target = Some es → ∃ more, get u (mergeEdits target source) = Some (es ++ more).
Proof.
  induction source as [|[uri edits] source IH]; intros target u es Hg; simpl.
  - exists []. by rewrite app_nil_r.
  - destruct (decide (u = uri)) as [->|Hne].
    + rewrite Hg. simpl. rewrite mergeEdits_inner_filter.
      set (kept := List.filter _ edits).
      destruct (IH (set uri (es ++ kept) target) uri (es ++ es ++ kept)) as [more Hm];
        [by rewrite get_set_eq, Hg|].
      rewrite Hm. exists ((es ++ kept) ++ more). by rewrite <- !app_assoc.
    + apply IH. by rewrite get_set_ne.
Qed.

Lemma mergeEdits_inner_nil edits : mergeEdits_inner [] [] edits = edits.
Proof.
  rewrite mergeEdits_inner_filter. simpl.
  induction edits as [|e edits IH]; [done|]. simpl. by rewrite IH.
Qed.

Lemma mergeEdits_takes_first source : ∀ target u es,
  get u target = None → get u source = Some es →
  ∃ more, get u (mergeEdits target source) = Some (es ++ more).
Proof.
  induction source as [|[uri edits] source IH]; intros target u es Hn Hg; simpl in *;
    [done|].
  destruct (decide (uri = u)) as [->|Hne].
  - injection Hg as ->. rewrite Hn. simpl. rewrite mergeEdits_inner_nil.
    apply mergeEdits_grows. by rewrite get_set_eq, Hn.
  - apply IH; [|done]. by rewrite get_set_ne.
Qed.

Lemma mergeEdits_origin source : ∀ target u es e,
  get u (mergeEdits target source) = Some es → e ∈ es →
  (∃ es0, get u target = Some es0 ∧ e ∈ es0)
  ∨ (∃ edits, (u, edits) ∈ source ∧ e ∈ edits).
Proof.
  induction source as [|[uri edits] source IH]; intros target u es e Hg He; simpl in *.
  - left. by exists es.
  - destruct (IH _ _ _ _ Hg He) as [(es0 & Hg0 & He0) | (edits' & Hin & He')].
    + destruct (decide (u = uri)) as [->|Hne].
      * rewrite get_set_eq in Hg0. injection Hg0 as <-.
        rewrite mergeEdits_inner_filter in He0.
        rewrite !elem_of_app in He0. destruct He0 as [He0 | [He0 | He0]].
        -- left. destruct (get uri target) as [x|]; [by exists x|].
           by apply elem_of_nil in He0.
        -- left. destruct (get uri target) as [x|]; [by exists x|].
           by apply elem_of_nil in He0.
        -- right. exists edits. split; [left|].
           apply list_elem_of_In, filter_In in He0 as [He0 _]. by apply list_elem_of_In.
      * rewrite get_set_ne in Hg0 by done. left. by exists es0.
    + right. exists edits'. split; [by right | done].
Qed.

(** X25. Aggregating the fixes only ever adds edits: what the edit
    holds for a resource stays, in order, at the front of what it holds
    afterwards.  The edits of the first action are taken whole, and every
    edit of the aggregate is an edit of one of the actions for the same
    resource.  A single-resource fix adds, behind the edits held, those
    edits once more and then the edits of the fix that none of them
    contains: the merged list starts with the edits already held and is
    appended to them. *)
Theorem aggregate_only_adds_edits (actions : list CodeAction) (target : WorkspaceEdit) :
  (∀ u es, get u target = Some es →
           ∃ more, get u (aggregate target actions) = Some (es ++ more))
  ∧ (∀ first rest w u es,
       actions = first :: rest → target = empty_edit → edit first = Some w →
       get u w = Some es →
       ∃ more, get u (aggregate target actions) = Some (es ++ more))
  ∧ (∀ u es e,
       get u (aggregate target actions) = Some es → e ∈ es →
       (∃ es0, get u target = Some es0 ∧ e ∈ es0)
       ∨ ∃ action w edits, action ∈ actions ∧ edit action = Some w
                           ∧ (u, edits) ∈ w ∧ e ∈ edits)
  ∧ (∀ u edits,
       get u (mergeEdits target [(u, edits)])
       = Some (default [] (get u target)
               ++ default [] (get u target)
               ++ List.filter
                    (λ e, negb (existsb (λ existingEdit,
                                           contains (range existingEdit) (range e))
                                  (default [] (get u target))))
                    edits)).
Proof.
  assert (∀ actions target u es, get u target = Some es →
            ∃ more, get u (aggregate target actions) = Some (es ++ more)) as Hgrow.
  { clear. induction actions as [|a actions IH]; intros target u es Hg; simpl.
    - exists []. by rewrite app_nil_r.
    - destruct (mergeEdits_grows (default empty_edit (edit a)) target u es Hg) as [m1 H1].
      destruct (IH _ _ _ H1) as [m2 H2]. exists (m1 ++ m2). by rewrite app_assoc. }
  split_and!.
  - apply Hgrow.
  - intros first rest w u es -> -> Hw Hg. simpl. rewrite Hw. simpl.
    destruct (mergeEdits_takes_first w empty_edit u es eq_refl Hg) as [m1 H1].
    destruct (Hgrow rest _ _ _ H1) as [m2 H2]. exists (m1 ++ m2). by rewrite app_assoc.
  - revert target. induction actions as [|a actions IH]; intros target u es e Hg He;
      simpl in *.
    + left. by exists es.
    + destruct (IH _ _ _ _ Hg He) as [(es0 & Hg0 & He0) | (action & w & edits & H1 & H2 & H3)].
      * destruct (mergeEdits_origin _ _ _ _ _ Hg0 He0) as [H | (edits & Hin & He')];
          [by left|].
        right. destruct (edit a) as [w|] eqn:Hw; [|by apply elem_of_nil in Hin].
        exists a, w, edits. split_and!; try done. left.
      * right. exists action, w, edits. split; [by right | done].
  - intros u edits. simpl. rewrite get_set_eq. by rewrite mergeEdits_inner_filter.
Qed.

End FixAllEdits.

(** ** linkify.ts: every rule id of a directive is linked *)
Section DirectiveLinksComplete.
Import Editor Props Terms Linkify.

Lemma app_same_length (a b a' b' : string) :
  a +:+ b = a' +:+ b' → String.length a = String.length a' → a = a' ∧ b = b'.
Proof.
  revert a'. induction a as [|x a IH]; intros [|x' a'] H Hl; simpl in Hl; try done.
  rewrite !app_cons in H. injection H as -> H.
  destruct (IH a' H) as [-> ->]; [lia | done].
Qed.

Lemma string_snoc_cases (s : string) : s = "" ∨ ∃ s' c, s = s' +:+ String c "".
Proof.
  induction s as [|x s IH]; [by left|]. right.
  destruct IH as [-> | (s' & c & ->)]; [by exists "", x | by exists (String x s'), c].
Qed.

Lemma NotAfterWord_ends pre : NotAfterWord pre → ends_with_word pre = false.
Proof.
  intros H. destruct (string_snoc_cases pre) as [-> | (pre' & c & ->)]; [done|].
  rewrite ends_with_word_snoc. by apply (H pre' c).
Qed.

Lemma NotBeforeWord_boundary post : NotBeforeWord post → boundary_after post = true.
Proof. intros H. destruct post as [|c t]; [done|]. simpl. by rewrite (H c t). Qed.

Lemma digit_is_word c : IsDigit c → Text.is_word c = true.
Proof.
  unfold IsDigit, Text.is_word. intros [H1 H2].
  apply Nat.leb_le in H1, H2. by rewrite H1, H2.
Qed.

Lemma digit_not_S c : IsDigit c → "S"%char ≠ c.
Proof. intros [H1 H2] <-. change (nat_of_ascii "S") with 83 in H2. lia. Qed.

Lemma rule_entry_word p d :
  RuleEntry p d → AllChars (λ c, Text.is_word c = true) p ∧ p ≠ "".
Proof.
  intros [(a & b & c & e & -> & Ha & Hb & Hc & He) [-> | ->]]; simpl;
    split_and!; try done; by apply digit_is_word.
Qed.

Lemma match_here_complete p d post :
  RuleEntry p d → NotBeforeWord post →
  match_here false (p +:+ post) = Some (String.length p)
  ∧ Js.slice_to (String.length p) (p +:+ post) = p.
Proof.
  intros [(a & b & c & e & -> & Ha & Hb & Hc & He) Hp] Hpost%NotBeforeWord_boundary.
  split; [|apply slice_to_app].
  pose proof (proj2 (is_digit_spec a) Ha) as Da. pose proof (proj2 (is_digit_spec b) Hb) as Db.
  pose proof (proj2 (is_digit_spec c) Hc) as Dc. pose proof (proj2 (is_digit_spec e) He) as De.
  unfold match_here. destruct Hp as [-> | ->].
  - rewrite !app_cons, app_nil_l. cbn [Js.startsWith].
    rewrite (decide_False (P := "S"%char = a)) by (by apply digit_not_S).
    cbn [andb four_digits_here Js.slice_from String.length].
    by rewrite Da, Db, Dc, De, Hpost.
  - rewrite !app_cons, app_nil_l, !app_cons, app_nil_l. cbn [Js.startsWith].
    rewrite !decide_True by done.
    cbn [andb four_digits_here Js.slice_from String.length].
    by rewrite Da, Db, Dc, De, Hpost.
Qed.

Lemma matches_complete s : ∀ pre skip idx p d,
  RuleToken (pre +:+ s) idx p d → String.length pre <= idx →
  AllChars (λ c, Text.is_word c = true) (Js.slice_to skip s) →
  (0 < skip → ends_with_word pre = true) →
  (idx, p) ∈ matches (ends_with_word pre) (String.length pre) skip s.
Proof.
  induction s as [|c r IH]; intros pre skip idx p d Htok Hle Hword Hskip.
  - destruct Htok as (pre' & post & Hline & Hlen & Hentry & _).
    apply rule_entry_word in Hentry as [_ Hne].
    apply (f_equal String.length) in Hline.
    rewrite !length_app_string in Hline. simpl in Hline.
    destruct p; [done|]. simpl in Hline. lia.
  - assert (∀ skip', String.length pre < idx →
              AllChars (λ c, Text.is_word c = true) (Js.slice_to skip' r) →
              (0 < skip' → Text.is_word c = true) →
              (idx, p) ∈ matches (Text.is_word c) (S (String.length pre)) skip' r) as Hrest.
    { intros skip' Hlt Hw Hs.
      pose proof (IH (pre +:+ String c "") skip' idx p d) as H.
      rewrite ends_with_word_snoc, length_app_string, Nat.add_1_r, snoc_app in H.
      by apply H. }
    assert (String.length pre = idx → ends_with_word pre = false
                                      ∧ String c r = p +:+ Js.slice_from (String.length p) (String c r)
                                      ∧ NotBeforeWord (Js.slice_from (String.length p) (String c r)))
      as Hhere.
    { intros Heq. destruct Htok as (pre' & post & Hline & Hlen & Hentry & Hpre & Hpost).
      destruct (app_same_length pre (String c r) pre' (p +:+ post)) as [-> Hs];
        [done | congruence |].
      rewrite Hs, slice_from_app. split; [by apply NotAfterWord_ends | done]. }
    destruct (decide (String.length pre = idx)) as [Heq|Hne].
    + destruct (Hhere Heq) as (Hpw & Hs & Hpost).
      destruct skip as [|k]; [|rewrite Hskip in Hpw by lia; done].
      cbn [matches]. rewrite Hpw, Hs.
      assert (RuleEntry p d) as Hentry by (by destruct Htok as (? & ? & _ & _ & ? & _)).
      destruct (match_here_complete p d _ Hentry Hpost) as [-> ->].
      rewrite Heq. left.
    + assert (String.length pre < idx) as Hlt by lia.
      destruct skip as [|k]; cbn [matches].
      * destruct (match_here (ends_with_word pre) (String c r)) as [len|] eqn:Hm.
        -- right.
           destruct (match_here_spec _ _ _ Hm) as (_ & q & dq & post & Hs & Hq & Hlen & _).
           apply rule_entry_word in Hq as [Hq Hqne].
           destruct q as [|x q]; [done|]. rewrite app_cons in Hs. injection Hs as <- ->.
           simpl in Hlen. subst len. simpl (S _ - 1). rewrite Nat.sub_0_r.
           destruct Hq as [Hx Hq]. apply Hrest; [done | by rewrite slice_to_app | done].
        -- apply Hrest; [done | by destruct r | lia].
      * simpl in Hword. destruct Hword as [Hc Hword]. by apply Hrest.
Qed.

Lemma links_from_keeps ls : ∀ k acc link, link ∈ acc → link ∈ links_from k ls acc.
Proof.
  induction ls as [|l ls IH]; intros k acc link Hin; simpl; [done|].
  apply IH. destruct (is_directive l); [|done].
  unfold collectMatchesOnLine. apply elem_of_app. by left.
Qed.

Lemma links_from_complete ls : ∀ k acc i text idx p d,
  ls !! i = Some text → Directive text → RuleToken text idx p d →
  link_to_rule (k + i) idx (String.length p) d ∈ links_from k ls acc.
Proof.
  induction ls as [|l ls IH]; intros k acc i text idx p d Hl Hdir Htok; [done|].
  destruct i as [|i]; simpl in *.
  - injection Hl as ->. apply links_from_keeps.
    rewrite (proj2 (is_directive_spec _) Hdir).
    unfold collectMatchesOnLine. apply elem_of_app. right.
    apply list_elem_of_fmap. exists (idx, p). split.
    + assert (RuleEntry p d) as Hentry by (by destruct Htok as (? & ? & _ & _ & ? & _)).
      unfold link_to_rule, translate. simpl.
      by rewrite Nat.add_0_r, (wiki_url_rule_entry p d Hentry).
    + apply (matches_complete _ "" 0 idx p d); try done; simpl; lia.
  - rewrite <- Nat.add_succ_comm. by apply (IH (S k) _ i text).
Qed.

(** X26. Every rule id that stands as a word of its own on a directive
    line of the document is linked: the provider returns the link that
    covers it and points to the wiki page of the rule. *)
Theorem rule_ids_of_directives_are_linked (document : Linter.TextDocument)
    (n idx : nat) (text p d : string) :
  Linter.lines document !! n = Some text →
  Directive text →
  RuleToken text idx p d →
  link_to_rule n idx (String.length p) d ∈ provideDocumentLinks document.
Proof.
  intros Hl Hdir Htok. unfold provideDocumentLinks.
  by apply (links_from_complete (Linter.lines document) 0 [] n text idx p d).
Qed.

End DirectiveLinksComplete.

(** The second rule of the directive on the second line of the script. *)
Lemma rule_ids_of_directives_are_linked_witness :
  Terms.link_to_rule 1 30 4 "2046" ∈ Linkify.provideDocumentLinks Cases.script_with_directive.
Proof.
  apply (rule_ids_of_directives_are_linked Cases.script_with_directive 1 30
           "  # shellcheck disable=SC2086,2046" "2046" "2046").
  - reflexivity.
  - apply is_directive_spec. reflexivity.
  - exists "  # shellcheck disable=SC2086,", "". split; [reflexivity|].
    split; [reflexivity|]. split.
    + split; [|by left]. exists "2"%char, "0"%char, "4"%char, "6"%char.
      split; [reflexivity|]. vm_compute. repeat split; lia.
    + split; [by apply ends_with_word_false | by apply boundary_after_spec].
Defined.

(** ** fix-all.ts: a fix collected twice *)
Section FixAllRepeats.
Import Editor FixAll.

Lemma isBefore_irrefl p : isBefore p p = false.
Proof. unfold isBefore. by rewrite !Nat.ltb_irrefl, andb_false_r. Qed.

Lemma contains_refl r : isBefore (end_ r) (start r) = false → contains r r = true.
Proof.
  intros H. unfold contains, contains_position. by rewrite !isBefore_irrefl, H.
Qed.

Lemma filter_none {A} (f : A → bool) (l : list A) :
  (∀ x, x ∈ l → f x = false) → List.filter f l = [].
Proof.
  induction l as [|x l IH]; intros H; [done|]. simpl.
  rewrite (H x) by left. apply IH. intros y Hy. apply H. by right.
Qed.

Lemma mergeEdits_single target u edits :
  get u (mergeEdits target [(u, edits)])
  = Some (default [] (get u target)
          ++ mergeEdits_inner (default [] (get u target)) (default [] (get u target)) edits).
Proof. simpl. by rewrite get_set_eq. Qed.

(** X27. Merging the same single-resource fix a second time adds none
    of its edits as a new one, provided no range of the fix ends before
    it starts: each is contained in an edit held before or has been added
    by the first merge, and then contains itself.  But the merged list,
    which is the list held, is appended to the list held: afterwards the
    resource holds every edit twice.  So a fix that is collected twice in
    a row is applied twice. *)
Theorem merging_a_fix_twice_doubles_the_edits (target : WorkspaceEdit) (u : string)
    (edits : list TextEdit) :
  (∀ e, e ∈ edits → isBefore (end_ (range e)) (start (range e)) = false) →
  (∃ held,
     get u (mergeEdits target [(u, edits)]) = Some held
     ∧ get u (mergeEdits (mergeEdits target [(u, edits)]) [(u, edits)])
       = Some (held ++ held))
  ∧ ∀ action, edit action = Some [(u, edits)] →
      get u (aggregate empty_edit [action; action]) = Some (edits ++ edits).
Proof.
  intros Hwf.
  assert (∀ target,
            ∃ held,
              get u (mergeEdits target [(u, edits)]) = Some held
              ∧ get u (mergeEdits (mergeEdits target [(u, edits)]) [(u, edits)])
                = Some (held ++ held)) as Hm.
  { intros t. rewrite (mergeEdits_single (mergeEdits t [(u, edits)])).
    rewrite (mergeEdits_single t). simpl (default _ (Some _)).
    rewrite !mergeEdits_inner_filter.
    set (existing := default [] (get u t)).
    set (kept := List.filter _ edits).
    eexists. split; [done|].
    rewrite (filter_none _ edits); [by rewrite app_nil_r|].
    intros e He. apply negb_false_iff, existsb_exists.
    destruct (existsb (λ existingEdit, contains (range existingEdit) (range e)) existing)
      eqn:Hex.
    - apply existsb_exists in Hex as (x & Hx & Hc). exists x. split; [|done].
      apply in_or_app. by left.
    - exists e. split; [|by apply contains_refl, Hwf].
      apply in_or_app. right. apply in_or_app. right.
      apply filter_In. split; [by apply list_elem_of_In|]. by rewrite Hex. }
  split; [apply Hm|]. intros action Ha.
  destruct (Hm empty_edit) as (held & H1 & H2).
  simpl aggregate. rewrite Ha. simpl (default _ (Some _)).
  rewrite H2. f_equal.
  rewrite mergeEdits_single in H1. simpl in H1. rewrite mergeEdits_inner_nil in H1.
  by injection H1 as <-.
Qed.

End FixAllRepeats.

(** The fix of columns 3 to 8, merged twice into the empty edit. *)
Lemma merging_a_fix_twice_doubles_the_edits_witness :
  Editor.get "file:///a.sh"
    (FixAll.mergeEdits
       (FixAll.mergeEdits Editor.empty_edit
          [("file:///a.sh",
            [{| Editor.range := Samples.columns 3 8; Editor.newText := "x" |}])])
       [("file:///a.sh", [{| Editor.range := Samples.columns 3 8; Editor.newText := "x" |}])])
  = Some [{| Editor.range := Samples.columns 3 8; Editor.newText := "x" |};
          {| Editor.range := Samples.columns 3 8; Editor.newText := "x" |}].
Proof.
  destruct (merging_a_fix_twice_doubles_the_edits Editor.empty_edit "file:///a.sh"
              [{| Editor.range := Samples.columns 3 8; Editor.newText := "x" |}])
    as [(held & H1 & H2) _].
  - intros e ->%list_elem_of_singleton. reflexivity.
  - injection H1 as <-. exact H2.
Defined.

(** ** linter.ts: registering document filters *)
Section DocumentFilters.
Import Thrown Linter Runs Filters.
Variable score : nat → TextDocument → bool.

(** X28. Shell and Bats documents are always allowed.  Registering a
    filter that is already registered changes nothing and hands back a
    disposable that does nothing, so disposing it leaves the filter in
    place; disposing the disposable of the first registration removes the
    filter for both.  A document that only that filter allowed is then no
    longer linted. *)
Theorem duplicate_filter_registration (documentFilter : nat) (r : Registry) :
  (∀ textDocument,
     languageId textDocument = "shellscript" ∨ languageId textDocument = "bats" →
     isAllowedTextDocument score r textDocument = true)
  ∧ (documentFilter ∉ additionalDocumentFilters r →
     let first := registerDocumentFilter documentFilter r in
     let second := registerDocumentFilter documentFilter (fst first) in
     second = (fst first, Nothing)
     ∧ documentFilter ∈ additionalDocumentFilters (dispose (snd second) (fst second))
     ∧ additionalDocumentFilters (dispose (snd first) (fst second))
       = additionalDocumentFilters r
     ∧ settingsByUri (provider (session (fst first))) = ∅
     ∧ toolStatusByPath (provider (session (fst first))) = ∅
     ∧ ∀ textDocument extraCondition fresh probe selected excluded,
         isAllowedTextDocument score r textDocument = false →
         triggerLint
           (isAllowedTextDocument score (dispose (snd first) (fst second)) textDocument)
           textDocument extraCondition fresh probe selected excluded
           (session (dispose (snd first) (fst second)))
         = (session (dispose (snd first) (fst second)), [], NoRequest)).
Proof.
  split.
  - intros textDocument H. unfold isAllowedTextDocument, LANGUAGES. simpl.
    destruct H as [-> | ->]; by rewrite ?bool_decide_eq_true_2 by done.
  - intros Hnew first second. unfold second, first, registerDocumentFilter.
    rewrite (bool_decide_eq_false_2 _ Hnew). simpl.
    assert (documentFilter ∈ {[documentFilter]} ∪ additionalDocumentFilters r) as Hin
      by (apply elem_of_union; left; by apply elem_of_singleton).
    rewrite (bool_decide_eq_true_2 _ Hin). simpl.
    assert (({[documentFilter]} ∪ additionalDocumentFilters r) ∖ {[documentFilter]}
            = additionalDocumentFilters r) as Hsame.
    { apply set_eq. intros x.
      rewrite elem_of_difference, elem_of_union, elem_of_singleton. split.
      - intros [[Hx | Hx] Hn]; [by destruct Hn | done].
      - intros Hx. split; [by right | by intros ->]. }
    split_and!; try done.
    intros textDocument extraCondition fresh probe selected excluded Hno.
    assert (∀ r1 r2, additionalDocumentFilters r1 = additionalDocumentFilters r2 →
                     isAllowedTextDocument score r1 textDocument
                     = isAllowedTextDocument score r2 textDocument) as Hdep.
    { intros r1 r2 H. unfold isAllowedTextDocument. by rewrite H. }
    rewrite (Hdep _ r) by exact Hsame. by rewrite Hno.
Qed.

End DocumentFilters.

(** ** utils/tool-check.ts: the update suggestion *)
Section UpdateSuggestion.
Import ToolCheck UpdatePrompt.
Variable Config : Type.
Variable config_get : Config → option bool.
Variable config_update : Config → Config.
Variable semver_lt : SemVer → string → bool.
Variable format : SemVer → string.

(** X29. The suggestion to update is shown exactly when version checks
    are not disabled and the version is below 0.7.0.  Whatever the user
    answers except "Don't Show Again" leaves the configuration as it is,
    so the suggestion comes back with the next probe; after "Don't Show
    Again", provided the host reads the stored flag back, it is never
    shown again, for any version. *)
Theorem update_suggestion_until_dismissed (version : SemVer) (selected : option string)
    (config : Config) :
  (∀ c, config_get (config_update c) = Some true) →
  let try := tryPromptForUpdatingTool Config config_get config_update semver_lt format in
  (snd (try version selected config) ≠ []
   ↔ isDisabled Config config_get config = false
     ∧ semver_lt version MINIMUM_TOOL_VERSION = true)
  ∧ (selected ≠ Some "Don't Show Again" → fst (try version selected config) = config)
  ∧ (snd (try version selected config) ≠ [] → selected = Some "Don't Show Again" →
     ∀ version' selected',
       try version' selected' (fst (try version selected config))
       = (fst (try version selected config), [])).
Proof.
  intros Hstore try. unfold try, tryPromptForUpdatingTool, promptForUpdatingTool.
  destruct (isDisabled Config config_get config) eqn:Hd; simpl.
  { split; [split; [intros H; by destruct H | by intros [? _]]|].
    split; [done | intros H; by destruct H]. }
  destruct (semver_lt version MINIMUM_TOOL_VERSION) eqn:Hlt; simpl.
  2: { split; [split; [intros H; by destruct H | by intros [_ ?]]|].
       split; [done | intros H; by destruct H]. }
  split; [|split].
  - split; [done|]. intros _. by repeat case_bool_decide.
  - intros Hs. rewrite bool_decide_eq_false_2 by done. by case_bool_decide.
  - intros _ ->. rewrite bool_decide_eq_true_2 by done. simpl.
    intros version' selected'. unfold isDisabled. by rewrite Hstore.
Qed.

End UpdateSuggestion.

Lemma update_suggestion_until_dismissed_witness :
  UpdatePrompt.tryPromptForUpdatingTool (option bool) UpdatePrompt.stored_flag
    UpdatePrompt.store_true UpdatePrompt.plain_lt UpdatePrompt.plain_format
    UpdatePrompt.version_0_6_0 (Some "Update") (Some true)
  = (Some true, []).
Proof.
  destruct (update_suggestion_until_dismissed (option bool) UpdatePrompt.stored_flag
              UpdatePrompt.store_true UpdatePrompt.plain_lt UpdatePrompt.plain_format
              UpdatePrompt.version_0_6_0 (Some "Don't Show Again") None)
    as (_ & _ & H).
  - reflexivity.
  - apply (H ltac:(discriminate) eq_refl UpdatePrompt.version_0_6_0 (Some "Update")).
Defined.
